(** * SMART-GRID backend: the orchestration layer

    A shallow embedding of the orchestration layer of [app/backend]:

    - [services/opendss_service.py]  (the grid-model adapter, [OpenDSS]),
    - [services/simulation_service.py] (the real-time engine, [Engine]),
    - [services/pipeline_service.py] (the batch orchestrator, [Pipeline]),
    - [api/websockets/handlers.py] (the fan-out hub and the duplex
      channel, [Hub]),

    followed by the properties of the specification that concern them.

    Conventions of the embedding.

    - Finite Python floats are idealised as rationals ([Q]): rounding,
      overflow and underflow are not modelled; sums are taken in the
      order Python takes them.  Where a float comes from a client and is
      used unchecked (the speed of the engine), it is a [pyfloat], which
      has the infinities and NaN as well.
    - A Python [dict] is an association list in insertion order.
    - A Python [set] is a [gset]; iterating over [list(s)] visits
      [elements s].
    - A raised exception is the [Raised] case of [outcome]; its payload is
      [str(e)].
    - A Python [str] is the [string] of its code points, which are taken
      to be below 256 (Latin-1).
    - What the power-flow solver or the network reports is an argument of
      the function that reads it.
    - A coroutine is cut at its [await]s: every segment between two
      suspension points is one atomic transition. *)

From Stdlib Require Import ZArith QArith Qabs Qround String Ascii List Bool Lia Lqa Sorted.
From stdpp Require Import base gmap sets list strings pretty.

(** ** Exceptions *)

Inductive outcome (A : Type) : Type :=
| Ok (a : A)
| Raised (exc : string).
Arguments Ok {A} a.
Arguments Raised {A} exc.

#[global] Instance outcome_ret : MRet outcome := fun A a => Ok a.
#[global] Instance outcome_bind : MBind outcome :=
  fun A B f m => match m with Ok a => f a | Raised e => Raised e end.

(** ** Insertion-ordered dictionaries *)

Section Dict.
Context {V : Type}.

(** [d[k] = v]: an existing key keeps its place, a new key goes last. *)
Fixpoint dict_set (k : string) (v : V) (d : list (string * V)) : list (string * V) :=
  match d with
  | [] => [(k, v)]
  | (k', v') :: d' =>
      if String.eqb k k' then (k, v) :: d' else (k', v') :: dict_set k v d'
  end.

Definition dict_values (d : list (string * V)) : list V := map snd d.
End Dict.

(** Python's [sum]: starts from 0 and adds from the left. *)
Definition py_sum (xs : list Q) : Q := fold_left Qplus xs 0%Q.

(** ** Floats that need not be finite *)

(** A Python [float]: a finite one, an infinity, or NaN
    ([json.loads] accepts [Infinity], [-Infinity] and [NaN]). *)
Inductive pyfloat : Type :=
| Finite (q : Q)
| PlusInf
| MinusInf
| NaN.
Bind Scope Q_scope with pyfloat.
Coercion Finite : Q >-> pyfloat.




(** What [await asyncio.sleep(delay)] does to the coroutine that awaits
    it: it returns, it raises, or it never returns. *)
Inductive sleep_result : Type :=
| Woken
| SleepRaised (exc : string)
| NeverWoken.


(** * The grid-model adapter: [opendss_service.py] *)

Module LoadData.
Record t := mk { name : string; bus : string; kw : Q; kvar : Q; voltage_pu : Q }.
End LoadData.

Module GeneratorData.
Record t := mk { name : string; bus : string; kw : Q; kvar : Q; type : string }.
End GeneratorData.

(** [GridState].  The per-element collections [buses], [lines] and
    [transformers] are not read by any function below other than to be
    copied, and are left out. *)
Record GridState := mkGridState {
  timestamp : Q;
  converged : bool;
  total_power_kw : Q;
  total_power_kvar : Q;
  total_losses_kw : Q;
  total_generation_kw : Q;
  total_solar_kw : Q;
  total_load_kw : Q;
  loads : list (string * LoadData.t);
  generators : list (string * GeneratorData.t);
  voltage_violations : list string;
  overloaded_elements : list string
}.

Module OpenDSS.

(** What [opendssdirect] reports for one load: [Loads.Name()], the first
    bus name without its node suffix, [Loads.kW()], [Loads.kvar()] and the
    first entry of [Bus.puVmagAngle()] (1.0 when there is none). *)
Record RawLoad := mkRawLoad {
  Loads_Name : string;
  Loads_Bus : string;
  Loads_kW : Q;
  Loads_kvar : Q;
  Loads_vpu : Q
}.

(** One generator or PV system: its name, bus and [CktElement.Powers()]
    (the first two entries, if any). *)
Record RawGen := mkRawGen {
  Gen_Name : string;
  Gen_Bus : string;
  Gen_Powers : option (Q * Q)
}.

(** The solver as seen through [opendssdirect] after the last [Solve()]. *)
Record Circuit := mkCircuit {
  Solution_Converged : bool;
  Circuit_TotalPower : Q * Q;
  Circuit_Losses : Q * Q;
  Loads : list RawLoad;
  Generators : list RawGen;
  PVsystems : list RawGen;
  (** the lists computed by [_check_voltage_violations] and
      [_check_overloads] *)
  check_voltage_violations : list string;
  check_overloads : list string
}.

Record OpenDSSService := mkService {
  _model_loaded : bool;
  _circuit_name : string;
  _current_load_mult : Q
}.

(** [__init__] *)
Definition init : OpenDSSService :=
  {| _model_loaded := false; _circuit_name := ""; _current_load_mult := 1 |}.

Definition is_loaded (svc : OpenDSSService) : bool := _model_loaded svc.

(** [load_model]: [compiled] is [Some name] when the compile produced a
    circuit of that name without error, [None] otherwise. *)
Definition load_model (compiled : option string) (svc : OpenDSSService)
  : OpenDSSService * bool :=
  match compiled with
  | Some name =>
      ({| _model_loaded := true; _circuit_name := name;
          _current_load_mult := _current_load_mult svc |}, true)
  | None =>
      ({| _model_loaded := false; _circuit_name := _circuit_name svc;
          _current_load_mult := _current_load_mult svc |}, false)
  end.

(** [set_load_multiplier] *)
Definition set_load_multiplier (multiplier : Q) (svc : OpenDSSService)
  : outcome OpenDSSService :=
  if negb (_model_loaded svc) then Raised "Model not loaded."
  else Ok {| _model_loaded := _model_loaded svc;
             _circuit_name := _circuit_name svc;
             _current_load_mult := multiplier |}.

(** [set_generation_multiplier]: the irradiance it sets lives in the
    solver; for the service it is only the loaded check. *)
Definition set_generation_multiplier (svc : OpenDSSService) : outcome unit :=
  if negb (_model_loaded svc) then Raised "Model not loaded." else Ok tt.

(** [_get_all_loads]: walks the loads until an empty name, scaling the
    nominal kW and kvar of each by the current load multiplier. *)
Fixpoint get_all_loads_from (mult : Q) (raw : list RawLoad)
    (acc : list (string * LoadData.t)) : list (string * LoadData.t) :=
  match raw with
  | [] => acc
  | r :: raw' =>
      if String.eqb (Loads_Name r) "" then acc
      else
        get_all_loads_from mult raw'
          (dict_set (Loads_Name r)
             (LoadData.mk (Loads_Name r) (Loads_Bus r)
                (Loads_kW r * mult) (Loads_kvar r * mult) (Loads_vpu r))
             acc)
  end.

Definition _get_all_loads (svc : OpenDSSService) (c : Circuit)
  : list (string * LoadData.t) :=
  get_all_loads_from (_current_load_mult svc) (Loads c) [].

Definition gen_kw (r : RawGen) : Q :=
  match Gen_Powers r with Some (p0, _) => - p0 | None => 0 end.
Definition gen_kvar (r : RawGen) : Q :=
  match Gen_Powers r with Some (_, p1) => - p1 | None => 0 end.

Fixpoint get_gens_from (pv : bool) (raw : list RawGen)
    (acc : list (string * GeneratorData.t)) : list (string * GeneratorData.t) :=
  match raw with
  | [] => acc
  | r :: raw' =>
      if String.eqb (Gen_Name r) "" then acc
      else
        get_gens_from pv raw'
          (dict_set (if pv then "PV_" +:+ Gen_Name r else Gen_Name r)
             (GeneratorData.mk (Gen_Name r) (Gen_Bus r) (gen_kw r) (gen_kvar r)
                (if pv then "pvsystem" else "generator"))
             acc)
  end.

(** [_get_all_generators]: regular generators first, then PV systems. *)
Definition _get_all_generators (c : Circuit) : list (string * GeneratorData.t) :=
  get_gens_from true (PVsystems c) (get_gens_from false (Generators c) []).

Definition sum_load_kw (ls : list (string * LoadData.t)) : Q :=
  py_sum (map LoadData.kw (dict_values ls)).

Definition sum_gen_kw (gs : list (string * GeneratorData.t)) : Q :=
  py_sum (map GeneratorData.kw (dict_values gs)).

Definition sum_solar_kw (gs : list (string * GeneratorData.t)) : Q :=
  py_sum (map GeneratorData.kw
            (List.filter (fun g => String.eqb (GeneratorData.type g) "pvsystem")
               (dict_values gs))).

(** [get_grid_state]: [c] is the circuit as [self.solve()] leaves it. *)
Definition get_grid_state (svc : OpenDSSService) (c : Circuit) : outcome GridState :=
  if negb (_model_loaded svc) then Raised "Model not loaded. Call load_model() first."
  else
    let ls := _get_all_loads svc c in
    let gs := _get_all_generators c in
    let nominal_load := sum_load_kw ls in
    Ok {| timestamp := 0;
          converged := Solution_Converged c;
          total_power_kw := - fst (Circuit_TotalPower c);
          total_power_kvar := - snd (Circuit_TotalPower c);
          total_losses_kw := fst (Circuit_Losses c) / 1000;
          total_generation_kw := sum_gen_kw gs;
          total_solar_kw := sum_solar_kw gs;
          total_load_kw := nominal_load * _current_load_mult svc;
          loads := ls;
          generators := gs;
          voltage_violations := check_voltage_violations c;
          overloaded_elements := check_overloads c |}.

(** [read_current_state]: the same extraction without solving. *)
Definition read_current_state (svc : OpenDSSService) (c : Circuit) : outcome GridState :=
  if negb (_model_loaded svc) then Raised "Model not loaded. Call load_model() first."
  else
    let ls := _get_all_loads svc c in
    let gs := _get_all_generators c in
    Ok {| timestamp := 0;
          converged := Solution_Converged c;
          total_power_kw := - fst (Circuit_TotalPower c);
          total_power_kvar := - snd (Circuit_TotalPower c);
          total_losses_kw := fst (Circuit_Losses c) / 1000;
          total_generation_kw := sum_gen_kw gs;
          total_solar_kw := sum_solar_kw gs;
          total_load_kw := sum_load_kw ls;
          loads := ls;
          generators := gs;
          voltage_violations := check_voltage_violations c;
          overloaded_elements := check_overloads c |}.

End OpenDSS.

(** * Observers, callbacks and server events *)

(** The identity of a [WebSocket] object. *)
Definition websocket : Type := nat.

(** The callables held by the engine's subscriber set: the closure that
    [ConnectionManager._create_broadcast_callback] builds for a websocket,
    or any other callable handed to [subscribe]. *)
Inductive callback : Type :=
| WsCallback (ws : websocket)
| PlainCallback (id : nat).

#[global] Instance callback_eq_dec : EqDecision callback.
Proof. solve_decision. Defined.

#[global] Instance callback_countable : Countable callback.
Proof.
  refine (inj_countable'
            (fun c => match c with WsCallback w => inl w | PlainCallback i => inr i end)
            (fun s => match s with inl w => WsCallback w | inr i => PlainCallback i end) _).
  intros []; reflexivity.
Defined.

(** One entry of the engine's history: the summary built by
    [_add_to_history]. *)
Record HistoryEntry := mkHistoryEntry {
  h_timestamp : Q;
  h_total_power_kw : Q;
  h_total_load_kw : Q;
  h_total_generation_kw : Q;
  h_total_losses_kw : Q;
  h_converged : bool;
  h_num_violations : nat
}.

(** The dict returned by the engine's control operations. *)
Record Response := mkResponse {
  success : bool;
  error : option string;
  message : option string;
  speed : option pyfloat;
  state : option GridState
}.

Definition failure (msg : string) : Response :=
  {| success := false; error := Some msg; message := None; speed := None; state := None |}.

Definition succeeded (msg : string) : Response :=
  {| success := true; error := None; message := Some msg; speed := None; state := None |}.

(** The dict returned by [get_status]. *)
Record Status := mkStatus {
  st_running : bool;
  st_paused : bool;
  st_current_hour : Q;
  st_speed : pyfloat;
  st_subscribers : nat;
  st_history_length : nat;
  st_model_loaded : bool;
  st_mode : string
}.

(** Server messages, by their ["type"]; the wall-clock ["timestamp"] is
    left out, and a snapshot stands for its [_state_to_dict] rendering. *)
Inductive event : Type :=
| state_update (data : GridState)
| status (data : Status)
| response (action : string) (data : Response)
| history (data : list HistoryEntry)
| error_event (message : string)
| info (message : string)
| pong.

(** One call of [websocket.send_json]: the socket, the message, and
    whether the call returned ([true]) or raised ([false]). *)
Record delivery := mkDelivery {
  dl_to : websocket;
  dl_event : event;
  dl_ok : bool
}.

(** [lst[start:]] for a Python list and any integer [start]. *)
Definition py_slice_from {A : Type} (start : Z) (l : list A) : list A :=
  let n := Z.of_nat (length l) in
  let s := if (start <? 0)%Z then Z.max 0 (start + n) else Z.min start n in
  drop (Z.to_nat s) l.

(** * The real-time engine: [simulation_service.py] *)

Module Engine.
Import OpenDSS.

(** The background loop created by [start]. *)
Record LoopTask := mkLoopTask {
  real_data : bool;
  total_hours : Z
}.

Record SimulationService := mkService {
  _running : bool;
  _paused : bool;
  _current_state : option GridState;
  _simulation_speed : pyfloat;
  _subscribers : gset callback;
  _simulation_task : option LoopTask;
  _history : list HistoryEntry;
  _max_history_length : nat;
  _current_hour : Q;
  _step_minutes : Z;
  _mode : string
}.

(** [__init__] *)
Definition init : SimulationService :=
  {| _running := false; _paused := false; _current_state := None;
     _simulation_speed := 1; _subscribers := ∅; _simulation_task := None;
     _history := []; _max_history_length := 1000; _current_hour := 0;
     _step_minutes := 15; _mode := "synthetic" |}.

Definition is_paused (e : SimulationService) : bool := _paused e.

Definition set_subscribers (subs : gset callback) (e : SimulationService) :=
  {| _running := _running e; _paused := _paused e;
     _current_state := _current_state e;
     _simulation_speed := _simulation_speed e; _subscribers := subs;
     _simulation_task := _simulation_task e; _history := _history e;
     _max_history_length := _max_history_length e;
     _current_hour := _current_hour e; _step_minutes := _step_minutes e;
     _mode := _mode e |}.

Definition set_history (h : list HistoryEntry) (e : SimulationService) :=
  {| _running := _running e; _paused := _paused e;
     _current_state := _current_state e;
     _simulation_speed := _simulation_speed e; _subscribers := _subscribers e;
     _simulation_task := _simulation_task e; _history := h;
     _max_history_length := _max_history_length e;
     _current_hour := _current_hour e; _step_minutes := _step_minutes e;
     _mode := _mode e |}.

Definition set_paused (p : bool) (e : SimulationService) :=
  {| _running := _running e; _paused := p;
     _current_state := _current_state e;
     _simulation_speed := _simulation_speed e; _subscribers := _subscribers e;
     _simulation_task := _simulation_task e; _history := _history e;
     _max_history_length := _max_history_length e;
     _current_hour := _current_hour e; _step_minutes := _step_minutes e;
     _mode := _mode e |}.


Definition set_current (st : GridState) (hour : Q) (e : SimulationService) :=
  {| _running := _running e; _paused := _paused e;
     _current_state := Some st;
     _simulation_speed := _simulation_speed e; _subscribers := _subscribers e;
     _simulation_task := _simulation_task e; _history := _history e;
     _max_history_length := _max_history_length e;
     _current_hour := hour; _step_minutes := _step_minutes e;
     _mode := _mode e |}.

(** The [finally] block of both loops, and the body of [stop]. *)
Definition reset_run (e : SimulationService) :=
  {| _running := false; _paused := false;
     _current_state := _current_state e;
     _simulation_speed := _simulation_speed e; _subscribers := _subscribers e;
     _simulation_task := None; _history := _history e;
     _max_history_length := _max_history_length e;
     _current_hour := _current_hour e; _step_minutes := _step_minutes e;
     _mode := _mode e |}.

Definition subscribe (cb : callback) (e : SimulationService) :=
  set_subscribers ({[cb]} ∪ _subscribers e) e.

Definition unsubscribe (cb : callback) (e : SimulationService) :=
  set_subscribers (_subscribers e ∖ {[cb]}) e.

(** [_broadcast_state].  [invoke cb st] is what calling [cb] on the
    rendered snapshot does: whether it raised, and the sends it made. *)
Section Broadcast.
Variable invoke : callback -> GridState -> bool * list delivery.

Fixpoint broadcast_loop (cbs : list callback) (st : GridState)
    (subs : gset callback) (log : list delivery)
  : gset callback * list delivery :=
  match cbs with
  | [] => (subs, log)
  | cb :: cbs' =>
      let '(raised, sent) := invoke cb st in
      broadcast_loop cbs' st
        (if raised then subs ∖ {[cb]} else subs) (log ++ sent)
  end.

Definition _broadcast_state (st : GridState) (e : SimulationService)
  : SimulationService * list delivery :=
  let '(subs, log) :=
    broadcast_loop (elements (_subscribers e)) st (_subscribers e) [] in
  (set_subscribers subs e, log).
End Broadcast.

(** [start]; [compiled] is the outcome of the compile that [load_model]
    would run. *)
Definition start (compiled : option string) (hours : Z) (speed : pyfloat)
    (mode : string) (e : SimulationService) (d : OpenDSSService)
  : SimulationService * OpenDSSService * Response :=
  let '(d1, load_failed) :=
    if negb (is_loaded d)
    then let '(d', ok) := load_model compiled d in (d', negb ok)
    else (d, false) in
  if load_failed then (e, d1, failure "Failed to load model")
  else if _running e then (e, d1, failure "Simulation already running")
  else
    ({| _running := true; _paused := false;
        _current_state := _current_state e;
        _simulation_speed := speed; _subscribers := _subscribers e;
        _simulation_task :=
          Some {| real_data := String.eqb mode "real_data"; total_hours := hours |};
        _history := [];
        _max_history_length := _max_history_length e;
        _current_hour := 0; _step_minutes := _step_minutes e;
        _mode := mode |},
     d1,
     {| success := true; error := None;
        message := Some ("Simulation started for " +:+ pretty hours
                         +:+ " hours (mode=" +:+ mode +:+ ")");
        speed := Some speed; state := None |}).

(** [_add_to_history] *)
Definition summary (st : GridState) : HistoryEntry :=
  {| h_timestamp := timestamp st;
     h_total_power_kw := total_power_kw st;
     h_total_load_kw := total_load_kw st;
     h_total_generation_kw := total_generation_kw st;
     h_total_losses_kw := total_losses_kw st;
     h_converged := converged st;
     h_num_violations := length (voltage_violations st) |}.

Definition history_append (cap : nat) (x : HistoryEntry) (h : list HistoryEntry)
  : list HistoryEntry :=
  let h' := h ++ [x] in
  if cap <? length h' then drop 1 h' else h'.

Definition _add_to_history (st : GridState) (e : SimulationService) : SimulationService :=
  set_history (history_append (_max_history_length e) (summary st) (_history e)) e.

(** [stop] *)
Definition stop (e : SimulationService) : SimulationService * Response :=
  (reset_run e, succeeded "Simulation stopped").

(** [pause] *)
Definition pause (e : SimulationService) : SimulationService * Response :=
  if negb (_running e) then (e, failure "Simulation not running")
  else (set_paused true e, succeeded "Simulation paused").

(** [resume] *)
Definition resume (e : SimulationService) : SimulationService * Response :=
  if negb (_running e) then (e, failure "Simulation not running")
  else (set_paused false e, succeeded "Simulation resumed").


(** [get_history]: [self._history[-limit:]] *)
Definition get_history (limit : Z) (e : SimulationService) : list HistoryEntry :=
  py_slice_from (- limit) (_history e).

(** [get_status]; the rounding of [current_hour] is not modelled. *)
Definition get_status (e : SimulationService) (d : OpenDSSService) : Status :=
  {| st_running := _running e; st_paused := _paused e;
     st_current_hour := _current_hour e; st_speed := _simulation_speed e;
     st_subscribers := size (_subscribers e);
     st_history_length := length (_history e);
     st_model_loaded := is_loaded d; st_mode := _mode e |}.

(** [_get_load_profile]; [jitter] is the draw of
    [random.uniform(-0.03, 0.03)]. *)
Definition Qlt_bool (a b : Q) : bool := negb (Qle_bool b a).

Definition _get_load_profile (hour jitter : Q) : Q :=
  let base : Q :=
    if Qle_bool 18 hour && Qlt_bool hour 22 then 1%Q
    else if Qle_bool 6 hour && Qlt_bool hour 18
         then ((7 # 10) + (2 # 10) * (hour - 6) / 12)%Q
    else if Qle_bool 22 hour || Qlt_bool hour 6 then (1 # 2)%Q
    else (7 # 10)%Q in
  let variation : Q := (1 + jitter)%Q in
  (base * variation)%Q.

(** [x % 24] on floats. *)
Definition hour_of_day (x : Q) : Q := (x - 24 * inject_Z (Qfloor (x / 24)))%Q.

Definition with_timestamp (t : Q) (st : GridState) : GridState :=
  {| timestamp := t; converged := converged st;
     total_power_kw := total_power_kw st;
     total_power_kvar := total_power_kvar st;
     total_losses_kw := total_losses_kw st;
     total_generation_kw := total_generation_kw st;
     total_solar_kw := total_solar_kw st;
     total_load_kw := total_load_kw st;
     loads := loads st; generators := generators st;
     voltage_violations := voltage_violations st;
     overloaded_elements := overloaded_elements st |}.

Definition next_hour (e : SimulationService) : Q :=
  (_current_hour e + inject_Z (_step_minutes e) / 60)%Q.

Section Stepping.
Variable invoke : callback -> GridState -> bool * list delivery.

(** What [step] and the body of [_simulation_loop] share, down to the
    fan-out: multipliers, solve and extract, stamp, record, fan out.
    [c] is the circuit after the solve. *)
Definition synthetic_body (jitter : Q) (c : Circuit)
    (e : SimulationService) (d : OpenDSSService)
  : outcome (SimulationService * OpenDSSService * list delivery * GridState) :=
  let load_mult := _get_load_profile (hour_of_day (_current_hour e)) jitter in
  d1 ← set_load_multiplier load_mult d;
  _ ← set_generation_multiplier d1;
  st0 ← get_grid_state d1 c;
  let st := with_timestamp (_current_hour e) st0 in
  let e1 := _add_to_history st (set_current st (_current_hour e) e) in
  let '(e2, log) := _broadcast_state invoke st e1 in
  Ok (e2, d1, log, st).

(** [self._current_hour += self._step_minutes / 60] *)
Definition advance (st : GridState) (e : SimulationService) : SimulationService :=
  set_current st (next_hour e) e.

(** The profile-driven step with nothing between the fan-out and the
    advance of the clock, as in [step]. *)
Definition synthetic_step (jitter : Q) (c : Circuit)
    (e : SimulationService) (d : OpenDSSService)
  : outcome (SimulationService * OpenDSSService * list delivery * GridState) :=
  '(e2, d1, log, st) ← synthetic_body jitter c e d;
  Ok (advance st e2, d1, log, st).

(** [step] *)
Definition step (compiled : option string) (jitter : Q) (c : Circuit)
    (e : SimulationService) (d : OpenDSSService)
  : outcome (SimulationService * OpenDSSService * list delivery * Response) :=
  let '(d1, load_failed) :=
    if negb (is_loaded d)
    then let '(d', ok) := load_model compiled d in (d', negb ok)
    else (d, false) in
  if load_failed then Ok (e, d1, [], failure "Failed to load model")
  else
    '(e', d', log, st) ← synthetic_step jitter c e d1;
    Ok (e', d', log,
        {| success := true; error := None; message := None;
           speed := None; state := Some st |}).

(** How a pass through one of the two loops ends: the loop goes on
    with its next pass, the loop has ended (through [finally]), or the
    coroutine stays suspended in the pass. *)
Inductive pass_end : Type :=
| GoesOn
| Ended
| Asleep.

(** One pass through the [while] of [_simulation_loop]; [sl] is what
    [await asyncio.sleep(step_interval / 60)] does in it.  In the body
    an exception can only come from the loaded checks, before anything
    is written; it ends the loop through [finally], and so does an
    exception of the sleep, after the fan-out and before the clock is
    advanced. *)
Definition simulation_loop_iteration (sl : sleep_result) (hours : Z)
    (jitter : Q) (c : Circuit) (e : SimulationService) (d : OpenDSSService)
  : SimulationService * OpenDSSService * list delivery * pass_end :=
  if _running e && Qlt_bool (_current_hour e) (inject_Z hours) then
    if _paused e then (e, d, [], GoesOn)
    else
      match synthetic_body jitter c e d with
      | Ok (e2, d1, log, st) =>
          match sl with
          | Woken => (advance st e2, d1, log, GoesOn)
          | SleepRaised _ => (reset_run e2, d1, log, Ended)
          | NeverWoken => (e2, d1, log, Asleep)
          end
      | Raised _ => (reset_run e, d, [], Ended)
      end
  else (reset_run e, d, [], Ended).

(** The snapshot that the body of [_real_data_simulation_loop] builds
    after its own [Solve()]. *)
Definition real_data_state (c : Circuit)
    (e : SimulationService) (d : OpenDSSService) : GridState :=
  let ls := _get_all_loads d c in
  let gs := _get_all_generators c in
  {| timestamp := _current_hour e;
     converged := Solution_Converged c;
     total_power_kw := - fst (Circuit_TotalPower c);
     total_power_kvar := - snd (Circuit_TotalPower c);
     total_losses_kw := fst (Circuit_Losses c) / 1000;
     total_generation_kw := sum_gen_kw gs;
     total_solar_kw := sum_solar_kw gs;
     total_load_kw := sum_load_kw ls;
     loads := ls; generators := gs;
     voltage_violations := check_voltage_violations c;
     overloaded_elements := check_overloads c |}.

(** One pass through the [for] of [_real_data_simulation_loop]; [sl]
    is what [await asyncio.sleep(step_interval / 60)] does in it.  The
    step counter of the [for], which also ends the loop, is not part of
    the state. *)
Definition real_data_loop_iteration (sl : sleep_result) (c : Circuit)
    (e : SimulationService) (d : OpenDSSService)
  : SimulationService * list delivery * pass_end :=
  if negb (_running e) then (reset_run e, [], Ended)
  else if _paused e then (e, [], GoesOn)
  else
    let st := real_data_state c e d in
    let e1 := _add_to_history st (set_current st (_current_hour e) e) in
    let '(e2, log) := _broadcast_state invoke st e1 in
    match sl with
    | Woken => (advance st e2, log, GoesOn)
    | SleepRaised _ => (reset_run e2, log, Ended)
    | NeverWoken => (e2, log, Asleep)
    end.
End Stepping.

End Engine.

(** * The batch orchestrator: [pipeline_service.py] *)

(** The values that [SimulationTask.status] takes. *)
Inductive task_status : Type :=
| pending | running | completed | failed | cancelled.

#[global] Instance task_status_eq_dec : EqDecision task_status.
Proof. solve_decision. Defined.

(** The string stored in [status]; [failed] is the status ["error"]. *)
Definition status_string (s : task_status) : string :=
  match s with
  | pending => "pending" | running => "running" | completed => "completed"
  | failed => "error" | cancelled => "cancelled"
  end.

(** A date is the number of days since 0001-01-01, the first day that
    [datetime] has; [DATE_MAX] is 9999-12-31, the last one.  Adding a day
    to it raises [OverflowError]. *)
Definition DATE_MAX : Z := 3652058.

(** A per-day result dict.  Dates are day ordinals; the voltage and power
    statistics of a successful day are left out. *)
Module DayResult.
Record t := mk {
  date : Z;
  status : string;
  converged_steps : option nat;
  total_steps : option nat;
  error : option string
}.
End DayResult.

Module SimulationTask.
Record t := mk {
  task_id : string;
  status : task_status;
  mode : string;
  start_date : Z;
  end_date : Z;
  total_days : Z;
  current_day : Z;
  current_date : option Z;
  completed_days : list DayResult.t;
  error : option string
}.

Definition with_status (s : task_status) (t0 : t) : t :=
  mk (task_id t0) s (mode t0) (start_date t0) (end_date t0) (total_days t0)
     (current_day t0) (current_date t0) (completed_days t0) (error t0).

Definition with_error (s : task_status) (e : string) (t0 : t) : t :=
  mk (task_id t0) s (mode t0) (start_date t0) (end_date t0) (total_days t0)
     (current_day t0) (current_date t0) (completed_days t0) (Some e).

Definition with_current (day : Z) (d : Z) (t0 : t) : t :=
  mk (task_id t0) (status t0) (mode t0) (start_date t0) (end_date t0)
     (total_days t0) day (Some d) (completed_days t0) (error t0).

Definition append_day (r : DayResult.t) (t0 : t) : t :=
  mk (task_id t0) (status t0) (mode t0) (start_date t0) (end_date t0)
     (total_days t0) (current_day t0) (current_date t0)
     (completed_days t0 ++ [r]) (error t0).
End SimulationTask.

Module Pipeline.
Import OpenDSS.

(** What one day meets outside the orchestrator: the exception that
    [_prepare_date] raises, if any; [dss.Error.Description()] after the
    compile; [dss.Circuit.Name()]; and [dss.Solution.Converged()] at
    each of the 96 steps. *)
Record DayEnv := mkDayEnv {
  prepare_exception : option string;
  Error_Description : string;
  Circuit_Name : string;
  Converged_at : nat -> bool
}.

(** [_prepare_date] *)
Definition _prepare_date (env : DayEnv) : outcome unit :=
  match prepare_exception env with
  | Some e => Raised e
  | None => Ok tt
  end.

(** [_run_simulation]: the compile, the error check, the loaded mark on
    the shared adapter, then the 96 steps (their convergence flags). *)
Definition _run_simulation (env : DayEnv) (d : OpenDSSService)
  : OpenDSSService * outcome (list bool) :=
  if negb (String.eqb (Error_Description env) "")
  then (d, Raised ("DSS compile error: " +:+ Error_Description env))
  else
    ({| _model_loaded := true; _circuit_name := Circuit_Name env;
        _current_load_mult := _current_load_mult d |},
     Ok (map (Converged_at env) (seq 0 96))).

(** [_summarize_day] *)
Definition _summarize_day (date : Z) (steps : list bool) : DayResult.t :=
  {| DayResult.date := date;
     DayResult.status := "success";
     DayResult.converged_steps := Some (length (List.filter id steps));
     DayResult.total_steps := Some 96%nat;
     DayResult.error := None |}.

(** The closure [_sync_work] of [_run_one_day]. *)
Definition _sync_work (date : Z) (env : DayEnv) (d : OpenDSSService)
  : OpenDSSService * outcome DayResult.t :=
  match _prepare_date env with
  | Raised e => (d, Raised e)
  | Ok _ =>
      let '(d', r) := _run_simulation env d in
      (d', steps ← r; Ok (_summarize_day date steps))
  end.

(** [_run_one_day]: whatever [_sync_work] raises becomes an error record. *)
Definition _run_one_day (date : Z) (env : DayEnv) (d : OpenDSSService)
  : OpenDSSService * outcome DayResult.t :=
  let '(d', r) := _sync_work date env d in
  match r with
  | Ok result => (d', Ok result)
  | Raised e =>
      (d', Ok {| DayResult.date := date;
                 DayResult.status := "error";
                 DayResult.converged_steps := None;
                 DayResult.total_steps := None;
                 DayResult.error := Some e |})
  end.

(** Where the coroutine [_run_task] is suspended. *)
Inductive pc : Type :=
| Created       (* scheduled by [create_task], not yet run *)
| AwaitDay      (* at [await self._run_one_day(date_str)] *)
| AwaitSleep    (* at [await asyncio.sleep(0.1)] *)
| Finished.

#[global] Instance pc_eq_dec : EqDecision pc.
Proof. solve_decision. Defined.

(** A task object together with the coroutine that holds it: its
    suspension point and its locals [current] and [day_num]. *)
Record TaskObj := mkTaskObj {
  task : SimulationTask.t;
  at_pc : pc;
  current : Z;
  day_num : Z
}.

(** [_tasks] maps a task id to an object of the heap; the coroutine of a
    task holds the same object. *)
Record PipelineService := mkService {
  _tasks : gmap string nat;
  _running_task_id : option string
}.

Record Orchestrator := mkOrchestrator {
  service : PipelineService;
  heap : list TaskObj
}.

(** [__init__] *)
Definition init : Orchestrator :=
  {| service := {| _tasks := ∅; _running_task_id := None |}; heap := [] |}.

Definition is_busy (o : Orchestrator) : bool :=
  match _running_task_id (service o) with Some _ => true | None => false end.

(** [get_task] *)
Definition get_task (task_id : string) (o : Orchestrator) : option SimulationTask.t :=
  r ← _tasks (service o) !! task_id;
  task <$> heap o !! r.

(** The [SimulationTask] that [start_simulation] builds, with the
    coroutine [_run_task] created for it. *)
Definition new_task (task_id : string) (start_date : Z) (end_date : option Z)
  : TaskObj :=
  let is_range :=
    match end_date with
    | Some e => negb (e =? start_date)%Z
    | None => false
    end in
  let d_end := default start_date end_date in
  {| task :=
       {| SimulationTask.task_id := task_id;
          SimulationTask.status := pending;
          SimulationTask.mode := if is_range then "range" else "single";
          SimulationTask.start_date := start_date;
          SimulationTask.end_date := d_end;
          SimulationTask.total_days := d_end - start_date + 1;
          SimulationTask.current_day := 0;
          SimulationTask.current_date := None;
          SimulationTask.completed_days := [];
          SimulationTask.error := None |};
     at_pc := Created; current := 0; day_num := 0 |}.

(** [start_simulation]; [task_id] is the identifier drawn from
    [uuid.uuid4()]. *)
Definition start_simulation (task_id : string) (start_date : Z)
    (end_date : option Z) (o : Orchestrator) : outcome (Orchestrator * string) :=
  if is_busy o then Raised "A simulation is already running"
  else
    Ok ({| service :=
             {| _tasks := <[task_id := length (heap o)]> (_tasks (service o));
                _running_task_id := Some task_id |};
           heap := heap o ++ [new_task task_id start_date end_date] |},
        task_id).

(** [cancel_task] *)
Definition cancel_task (task_id : string) (o : Orchestrator) : Orchestrator * bool :=
  match _tasks (service o) !! task_id with
  | Some r =>
      match heap o !! r with
      | Some obj =>
          if decide (SimulationTask.status (task obj) = running) then
            ({| service := {| _tasks := _tasks (service o);
                              _running_task_id := None |};
                heap := <[r := {| task := SimulationTask.with_status cancelled (task obj);
                                  at_pc := at_pc obj; current := current obj;
                                  day_num := day_num obj |}]> (heap o) |},
             true)
          else (o, false)
      | None => (o, false)
      end
  | None => (o, false)
  end.

(** The head of the [while] of [_run_task], down to the next [await] or
    to the end of the coroutine. *)
Definition loop_head (obj : TaskObj) : TaskObj :=
  if (current obj <=? SimulationTask.end_date (task obj))%Z then
    if decide (SimulationTask.status (task obj) = cancelled) then
      (* break, then the statement after the loop *)
      {| task := SimulationTask.with_status completed (task obj);
         at_pc := Finished; current := current obj; day_num := day_num obj |}
    else
      {| task := SimulationTask.with_current (day_num obj + 1) (current obj) (task obj);
         at_pc := AwaitDay; current := current obj;
         day_num := day_num obj + 1 |}
  else
    {| task := SimulationTask.with_status completed (task obj);
       at_pc := Finished; current := current obj; day_num := day_num obj |}.

(** One resumption of the coroutine [_run_task]: from where it is
    suspended to its next suspension.  At [AwaitDay] the awaited
    [_run_one_day] has just finished in environment [env]; its record is
    appended and the date advanced, which fails after the last date that
    [datetime] has. *)
Definition run_task_step (env : DayEnv) (obj : TaskObj) (d : OpenDSSService)
  : TaskObj * OpenDSSService :=
  match at_pc obj with
  | Created =>
      (loop_head {| task := SimulationTask.with_status running (task obj);
                    at_pc := Created;
                    current := SimulationTask.start_date (task obj);
                    day_num := 0 |}, d)
  | AwaitDay =>
      let '(d', r) := _run_one_day (current obj) env d in
      match r with
      | Ok day_result =>
          let t1 := SimulationTask.append_day day_result (task obj) in
          if (DATE_MAX <? current obj + 1)%Z then
            (* [current += timedelta(days=1)] raises [OverflowError], which
               [except Exception as e] takes *)
            ({| task := SimulationTask.with_error failed "date value out of range" t1;
                at_pc := Finished; current := current obj;
                day_num := day_num obj |}, d')
          else
            ({| task := t1;
                at_pc := AwaitSleep; current := current obj + 1;
                day_num := day_num obj |}, d')
      | Raised e =>
          (* except Exception as e *)
          ({| task := SimulationTask.with_error failed e (task obj);
              at_pc := Finished; current := current obj;
              day_num := day_num obj |}, d')
      end
  | AwaitSleep => (loop_head obj, d)
  | Finished => (obj, d)
  end.

(** The event loop resumes the coroutine of heap object [r]; when the
    coroutine ends, its [finally] clears [_running_task_id]. *)
Definition resume_task (r : nat) (env : DayEnv) (o : Orchestrator)
    (d : OpenDSSService) : Orchestrator * OpenDSSService :=
  match heap o !! r with
  | Some obj =>
      let '(obj', d') := run_task_step env obj d in
      ({| service :=
            if decide (at_pc obj <> Finished /\ at_pc obj' = Finished)
            then {| _tasks := _tasks (service o); _running_task_id := None |}
            else service o;
          heap := <[r := obj']> (heap o) |}, d')
  | None => (o, d)
  end.

End Pipeline.

(** * The fan-out hub and the duplex channel: [handlers.py] *)

(** A decoded JSON value. *)
#[local] Set Warnings "-register-all".
Inductive json : Type :=
| JNull
| JBool (b : bool)
| JNumber (x : pyfloat)
| JString (s : string)
| JArray (items : list json)
| JObject (fields : list (string * json)).
#[local] Set Warnings "register-all".

(** [str.lower] on one character.  Of the code points below 256 it
    changes the capitals A to Z, and the accented capitals 192 to 214 and
    216 to 222, each into the code point 32 above it. *)
Definition lower_ascii (c : ascii) : ascii :=
  let n := nat_of_ascii c in
  if (65 <=? n) && (n <=? 90) || (192 <=? n) && (n <=? 214)
     || (216 <=? n) && (n <=? 222)
  then ascii_of_nat (n + 32) else c.

Fixpoint lower (s : string) : string :=
  match s with
  | EmptyString => EmptyString
  | String c s' => String (lower_ascii c) (lower s')
  end.

(** The last binding of a key in an object. *)
Fixpoint fields_get (k : string) (fields : list (string * json)) : option json :=
  match fields with
  | [] => None
  | (k', v) :: rest =>
      match fields_get k rest with
      | Some v' => Some v'
      | None => if String.eqb k k' then Some v else None
      end
  end.

(** [data.get(key, default)]: an [AttributeError] unless [data] is a dict. *)
Definition json_get (data : json) (key : string) (dflt : json) : outcome json :=
  match data with
  | JObject fields => Ok (default dflt (fields_get key fields))
  | JNull => Raised "'NoneType' object has no attribute 'get'"
  | JBool _ => Raised "'bool' object has no attribute 'get'"
  | JNumber _ => Raised "'float' object has no attribute 'get'"
  | JString _ => Raised "'str' object has no attribute 'get'"
  | JArray _ => Raised "'list' object has no attribute 'get'"
  end.

(** [value.lower()]: an [AttributeError] unless [value] is a string. *)
Definition json_lower (v : json) : outcome string :=
  match v with
  | JString s => Ok (lower s)
  | JNull => Raised "'NoneType' object has no attribute 'lower'"
  | JBool _ => Raised "'bool' object has no attribute 'lower'"
  | JNumber _ => Raised "'float' object has no attribute 'lower'"
  | JArray _ => Raised "'list' object has no attribute 'lower'"
  | JObject _ => Raised "'dict' object has no attribute 'lower'"
  end.

Module Hub.
Import OpenDSS.

Record ConnectionManager := mkManager {
  active_connections : gset websocket;
  _callbacks : gmap websocket callback
}.

(** The module-level singletons that the handlers reach. *)
Record Server := mkServer {
  manager : ConnectionManager;
  engine : Engine.SimulationService;
  adapter : OpenDSSService
}.

Definition init : Server :=
  {| manager := {| active_connections := ∅; _callbacks := ∅ |};
     engine := Engine.init; adapter := OpenDSS.init |}.

Section Network.
(** The sockets on which [send_json] raises, and the other
    subscribers whose call raises. *)
Variable broken : websocket -> bool.
Variable raises : nat -> bool.

Definition send_json (ws : websocket) (ev : event) : delivery :=
  {| dl_to := ws; dl_event := ev; dl_ok := negb (broken ws) |}.

(** The closure of [_create_broadcast_callback]: it sends, and keeps
    any exception of the send to itself. *)
Definition ws_callback (ws : websocket) (data : GridState) : bool * list delivery :=
  (false, [send_json ws (state_update data)]).

(** Calling a subscriber of the engine. *)
Definition invoke (cb : callback) (data : GridState) : bool * list delivery :=
  match cb with
  | WsCallback ws => ws_callback ws data
  | PlainCallback i => (raises i, [])
  end.

(** [connect] *)
Definition connect (ws : websocket) (s : Server) : Server :=
  let cb := WsCallback ws in
  {| manager :=
       {| active_connections := {[ws]} ∪ active_connections (manager s);
          _callbacks := <[ws := cb]> (_callbacks (manager s)) |};
     engine := Engine.subscribe cb (engine s);
     adapter := adapter s |}.

(** [disconnect] *)
Definition disconnect (ws : websocket) (s : Server) : Server :=
  match _callbacks (manager s) !! ws with
  | Some cb =>
      {| manager :=
           {| active_connections := active_connections (manager s) ∖ {[ws]};
              _callbacks := delete ws (_callbacks (manager s)) |};
         engine := Engine.unsubscribe cb (engine s);
         adapter := adapter s |}
  | None =>
      {| manager :=
           {| active_connections := active_connections (manager s) ∖ {[ws]};
              _callbacks := _callbacks (manager s) |};
         engine := engine s;
         adapter := adapter s |}
  end.

(** The [for] of [broadcast]: the sends made and the set
    [disconnected]. *)
Fixpoint broadcast_loop (conns : list websocket) (msg : event)
    (disconnected : gset websocket) (log : list delivery)
  : gset websocket * list delivery :=
  match conns with
  | [] => (disconnected, log)
  | c :: conns' =>
      broadcast_loop conns' msg
        (if broken c then {[c]} ∪ disconnected else disconnected)
        (log ++ [send_json c msg])
  end.

(** [broadcast] *)
Definition broadcast (msg : event) (m : ConnectionManager)
  : ConnectionManager * list delivery :=
  if decide (active_connections m = ∅) then (m, [])
  else
    let '(disconnected, log) :=
      broadcast_loop (elements (active_connections m)) msg ∅ [] in
    ({| active_connections := active_connections m ∖ disconnected;
        _callbacks := _callbacks m |}, log).

(** [send_personal] *)
Definition send_personal (ws : websocket) (msg : event) : list delivery :=
  [send_json ws msg].

(** The engine fans a snapshot out to its subscribers. *)
Definition engine_broadcast (st : GridState) (s : Server) : Server * list delivery :=
  let '(e', log) := Engine._broadcast_state invoke st (engine s) in
  ({| manager := manager s; engine := e'; adapter := adapter s |}, log).

(** [_broadcast_status] *)
Definition _broadcast_status (s : Server) : Server * list delivery :=
  let '(m', log) :=
    broadcast (status (Engine.get_status (engine s) (adapter s))) (manager s) in
  ({| manager := m'; engine := engine s; adapter := adapter s |}, log).

(** The actions that [handle_client_message] knows. *)
Definition known_actions : list string :=
  ["ping"; "start"; "stop"; "pause"; "resume"; "step"; "set_speed";
   "get_state"; "get_status"; "get_history"].

(** The branches of the nine actions that call into the engine are a
    parameter: [engine_action ws action params s] is the state they
    leave and the sends they make, replies and status broadcasts
    included.  Whatever they raise is caught inside
    [handle_client_message] and answered with an error event, so they
    return normally. *)
Variable engine_action :
  websocket -> string -> json -> Server -> Server * list delivery.

(** [handle_client_message] *)
Definition handle_client_message (ws : websocket) (data : json) (s : Server)
  : outcome (Server * list delivery) :=
  a ← json_get data "action" (JString "");
  action ← json_lower a;
  params ← json_get data "params" (JObject []);
  if String.eqb action "ping" then Ok (s, send_personal ws pong)
  else if bool_decide (action ∈ known_actions)
  then Ok (engine_action ws action params s)
  else Ok (s, send_personal ws (error_event ("Unknown action: " +:+ action))).

(** What [await websocket.receive_json()] does on the next frame: it
    returns the decoded value, or raises.  The exceptions are told apart
    as the [except] clauses of [websocket_endpoint] tell them apart.
    [Failed] is every [Exception] other than the two named ones: the
    [KeyError] of a binary frame (the message has no ["text"]), the
    [RecursionError] of a text nested too deep for [json.loads], the
    [ValueError] of an integer literal of more than 4300 digits. *)
Inductive frame : Type :=
| Json (data : json)        (* a text frame; [json.loads] returns [data] *)
| Malformed                 (* a text frame; [json.JSONDecodeError] *)
| Disconnected              (* [WebSocketDisconnect] *)
| Failed (exc : string).    (* any other [Exception] *)

(** One pass through the [while True] of [websocket_endpoint]; the
    boolean tells whether the loop goes on. *)
Definition endpoint_iteration (ws : websocket) (f : frame) (s : Server)
  : Server * list delivery * bool :=
  match f with
  | Malformed =>
      (s, send_personal ws (error_event "Invalid JSON message"), true)
  | Disconnected => (disconnect ws s, [], false)
  | Failed _ =>
      (* except Exception as e *)
      (disconnect ws s, [], false)
  | Json data =>
      match handle_client_message ws data s with
      | Ok (s', log) => (s', log, true)
      | Raised _ => (disconnect ws s, [], false)
      end
  end.
End Network.

End Hub.

(** * The process: the engine and the orchestrator on one adapter *)

Module System.
Import OpenDSS.

(** The three singletons [opendss_service], [simulation_service] and
    [pipeline_service]. *)
Record t := mk {
  adapter : OpenDSSService;
  engine : Engine.SimulationService;
  orchestrator : Pipeline.Orchestrator
}.

Definition init : t :=
  {| adapter := OpenDSS.init; engine := Engine.init;
     orchestrator := Pipeline.init |}.

(** What can happen next: a control request, or the event loop resuming
    one of the two background activities.  [EngineLoop] is a pass of the
    engine's loop in which the pacing sleep returns, [EngineLoopSleeping]
    one in which it does [sl]. *)
Inductive action : Type :=
| EngineStart (compiled : option string) (hours : Z) (speed : pyfloat) (mode : string)
| EngineStop
| EnginePause
| EngineResume
| EngineLoop (jitter : Q) (c : Circuit)
| EngineLoopSleeping (sl : sleep_result) (jitter : Q) (c : Circuit)
| BatchStart (task_id : string) (start_date : Z) (end_date : option Z)
| BatchCancel (task_id : string)
| BatchResume (r : nat) (env : Pipeline.DayEnv).

(** No observer is attached in this model of the process. *)
Definition no_observer (cb : callback) (st : GridState) : bool * list delivery :=
  (false, []).

Definition engine_start (compiled : option string) (hours : Z) (speed : pyfloat)
    (mode : string) (s : t) : t * Response :=
  let '(e, d, r) := Engine.start compiled hours speed mode (engine s) (adapter s) in
  ({| adapter := d; engine := e; orchestrator := orchestrator s |}, r).

Definition batch_start (task_id : string) (start_date : Z) (end_date : option Z)
    (s : t) : outcome (t * string) :=
  '(o, i) ← Pipeline.start_simulation task_id start_date end_date (orchestrator s);
  Ok ({| adapter := adapter s; engine := engine s; orchestrator := o |}, i).

(** The event loop resumes the loop of the engine for one pass, in
    which the pacing sleep does [sl]. *)
Definition engine_loop (sl : sleep_result) (jitter : Q) (c : Circuit) (s : t) : t :=
  match Engine._simulation_task (engine s) with
  | None => s
  | Some lt =>
      if Engine.real_data lt then
        let '(e, _, _) :=
          Engine.real_data_loop_iteration no_observer sl c (engine s) (adapter s) in
        {| adapter := adapter s; engine := e; orchestrator := orchestrator s |}
      else
        let '(e, d, _, _) :=
          Engine.simulation_loop_iteration no_observer sl (Engine.total_hours lt)
            jitter c (engine s) (adapter s) in
        {| adapter := d; engine := e; orchestrator := orchestrator s |}
  end.

Definition exec (a : action) (s : t) : t :=
  match a with
  | EngineStart compiled hours speed mode =>
      fst (engine_start compiled hours speed mode s)
  | EngineStop =>
      {| adapter := adapter s; engine := fst (Engine.stop (engine s));
         orchestrator := orchestrator s |}
  | EnginePause =>
      {| adapter := adapter s; engine := fst (Engine.pause (engine s));
         orchestrator := orchestrator s |}
  | EngineResume =>
      {| adapter := adapter s; engine := fst (Engine.resume (engine s));
         orchestrator := orchestrator s |}
  | EngineLoop jitter c => engine_loop Woken jitter c s
  | EngineLoopSleeping sl jitter c => engine_loop sl jitter c s
  | BatchStart task_id start_date end_date =>
      match batch_start task_id start_date end_date s with
      | Ok (s', _) => s'
      | Raised _ => s
      end
  | BatchCancel task_id =>
      {| adapter := adapter s; engine := engine s;
         orchestrator := fst (Pipeline.cancel_task task_id (orchestrator s)) |}
  | BatchResume r env =>
      let '(o, d) := Pipeline.resume_task r env (orchestrator s) (adapter s) in
      {| adapter := d; engine := engine s; orchestrator := o |}
  end.

Definition run (acts : list action) (s : t) : t := fold_left (fun s a => exec a s) acts s.

Definition reachable (s : t) : Prop := exists acts, s = run acts init.

End System.

(** * Runs of appends to the history *)

(** The history after a run of appends. *)
Definition appends_hist (cap : nat) (xs : list HistoryEntry) (h : list HistoryEntry)
  : list HistoryEntry :=
  fold_left (fun h x => Engine.history_append cap x h) xs h.

(** The engine after recording a run of snapshots. *)
Definition record_all (sts : list GridState) (e : Engine.SimulationService)
  : Engine.SimulationService :=
  fold_left (fun e st => Engine._add_to_history st e) sts e.

(** * Running a task to its end *)

(** The record that a day leaves in [completed_days], read off
    [_run_one_day]: an error record for an exception of the preparation or
    for a compile error, the summary otherwise. *)
Definition error_record (date : Z) (e : string) : DayResult.t :=
  {| DayResult.date := date; DayResult.status := "error";
     DayResult.converged_steps := None; DayResult.total_steps := None;
     DayResult.error := Some e |}.

Definition day_record (date : Z) (env : Pipeline.DayEnv) : DayResult.t :=
  match Pipeline.prepare_exception env with
  | Some e => error_record date e
  | None =>
      if String.eqb (Pipeline.Error_Description env) ""
      then Pipeline._summarize_day date (map (Pipeline.Converged_at env) (seq 0 96))
      else error_record date ("DSS compile error: " +:+ Pipeline.Error_Description env)
  end.

(** The event loop resumes the coroutine of a task, [fuel] times at most,
    until it ends; [envs date] is what the day [date] meets. *)
Fixpoint drive (fuel : nat) (envs : Z -> Pipeline.DayEnv) (obj : Pipeline.TaskObj)
    (d : OpenDSS.OpenDSSService) : Pipeline.TaskObj * OpenDSS.OpenDSSService :=
  match fuel with
  | O => (obj, d)
  | S fuel' =>
      if decide (Pipeline.at_pc obj = Pipeline.Finished) then (obj, d)
      else
        let '(obj', d') := Pipeline.run_task_step (envs (Pipeline.current obj)) obj d in
        drive fuel' envs obj' d'
  end.

(** [n] consecutive dates from [from]. *)
Fixpoint dates (from : Z) (n : nat) : list Z :=
  match n with
  | O => []
  | S k => from :: dates (from + 1) k
  end.

(** Status and suspension point of a task agree. *)
Definition coherent (obj : Pipeline.TaskObj) : Prop :=
  match SimulationTask.status (Pipeline.task obj) with
  | pending => Pipeline.at_pc obj = Pipeline.Created
  | running | cancelled =>
      Pipeline.at_pc obj = Pipeline.AwaitDay \/ Pipeline.at_pc obj = Pipeline.AwaitSleep
  | completed | failed => Pipeline.at_pc obj = Pipeline.Finished
  end.

(** Every task object of the process is coherent. *)
Definition heap_coherent (s : System.t) : Prop :=
  Forall coherent (Pipeline.heap (System.orchestrator s)).

(** * More of the engine: the solar profile and the whole loop *)

Module EngineLoop.
Import OpenDSS.

(** Python's two-argument [max] and [min]: the first argument wins a tie. *)
Definition py_max (a b : Q) : Q := if Engine.Qlt_bool a b then b else a.
Definition py_min (a b : Q) : Q := if Engine.Qlt_bool b a then b else a.

Definition MAX_SOLAR_FACTOR : Q := 1 # 10.

(** [_get_solar_profile]; [sine] is the value of
    [math.sin((hour - 6) * math.pi / 12)] and [jitter] the draw of
    [random.uniform(-0.05, 0.05)]. *)
Definition _get_solar_profile (hour sine jitter : Q) : Q :=
  if Qle_bool 6 hour && Qle_bool hour 18 then
    let raw_solar := py_max 0 sine in
    let base_solar := py_min raw_solar MAX_SOLAR_FACTOR in
    if Engine.Qlt_bool 0 base_solar then
      let variation : Q := (1 + jitter)%Q in
      py_max 0 (base_solar * variation)
    else 0%Q
  else 0%Q.


Section Loop.
Variable invoke : callback -> GridState -> bool * list delivery.
Variable hours : Z.
(** What the [i]-th pass meets: the draw of the load jitter, the
    circuit after the solve, and what a sleep of NaN seconds does. *)
Variable jitter_at : nat -> Q.
Variable circuit_at : nat -> Circuit.
Variable nan_sleep_at : nat -> sleep_result.



End Loop.

End EngineLoop.



(** * Invariants of the orchestrator *)

(** Every registered id resolves to a task object that carries the id,
    and a busy orchestrator names a task that is pending or running. *)
Definition registry_ok (o : Pipeline.Orchestrator) : Prop :=
  (forall id r,
     Pipeline._tasks (Pipeline.service o) !! id = Some r ->
     exists obj,
       Pipeline.heap o !! r = Some obj /\
       SimulationTask.task_id (Pipeline.task obj) = id) /\
  (forall id,
     Pipeline._running_task_id (Pipeline.service o) = Some id ->
     exists r obj,
       Pipeline._tasks (Pipeline.service o) !! id = Some r /\
       Pipeline.heap o !! r = Some obj /\
       (SimulationTask.status (Pipeline.task obj) = pending \/
        SimulationTask.status (Pipeline.task obj) = running)).

(** The progress fields of a task agree with its results and with where
    its coroutine stands.  A task has status error only once its
    coroutine has ended on the date overflow, after the record of a day
    that is the last date that [datetime] has. *)
Definition progress_ok (obj : Pipeline.TaskObj) : Prop :=
  let t := Pipeline.task obj in
  let n := length (SimulationTask.completed_days t) in
  map DayResult.date (SimulationTask.completed_days t)
    = dates (SimulationTask.start_date t) n /\
  (SimulationTask.status t = failed ->
   Pipeline.at_pc obj = Pipeline.Finished /\
   SimulationTask.error t = Some "date value out of range" /\
   exists k, n = S k /\ (DATE_MAX <= SimulationTask.start_date t + Z.of_nat k)%Z) /\
  (SimulationTask.status t <> failed -> SimulationTask.error t = None) /\
  SimulationTask.total_days t
    = (SimulationTask.end_date t - SimulationTask.start_date t + 1)%Z /\
  (Z.of_nat n <= Z.max 0 (SimulationTask.total_days t))%Z /\
  match Pipeline.at_pc obj with
  | Pipeline.Created => n = 0 /\ SimulationTask.current_day t = 0%Z
  | Pipeline.AwaitDay =>
      Pipeline.current obj = (SimulationTask.start_date t + Z.of_nat n)%Z /\
      (Pipeline.current obj <= SimulationTask.end_date t)%Z /\
      Pipeline.day_num obj = (Z.of_nat n + 1)%Z /\
      SimulationTask.current_day t = (Z.of_nat n + 1)%Z /\
      SimulationTask.current_date t = Some (Pipeline.current obj)
  | Pipeline.AwaitSleep =>
      Pipeline.current obj = (SimulationTask.start_date t + Z.of_nat n)%Z /\
      Pipeline.day_num obj = Z.of_nat n /\
      SimulationTask.current_day t = Z.of_nat n
  | Pipeline.Finished => SimulationTask.current_day t = Z.of_nat n
  end.

(** Every task object of the process keeps its progress fields in step. *)
Definition heap_progress (s : System.t) : Prop :=
  Forall progress_ok (Pipeline.heap (System.orchestrator s)).

(** * Reachable states of the hub *)

(** The states that the hub and the engine's subscriber set go through:
    observers connect (each websocket object once), disconnect, the hub
    broadcasts a status and the engine fans a snapshot out, over any
    network. *)
Inductive hub_reachable : Hub.Server -> Prop :=
| hub_reach_init : hub_reachable Hub.init
| hub_reach_connect (ws : websocket) (s : Hub.Server) :
    hub_reachable s ->
    Hub._callbacks (Hub.manager s) !! ws = None ->
    hub_reachable (Hub.connect ws s)
| hub_reach_disconnect (ws : websocket) (s : Hub.Server) :
    hub_reachable s -> hub_reachable (Hub.disconnect ws s)
| hub_reach_status (broken : websocket -> bool) (s : Hub.Server) :
    hub_reachable s -> hub_reachable (fst (Hub._broadcast_status broken s))
| hub_reach_snapshot (broken : websocket -> bool) (raises : nat -> bool)
    (st : GridState) (s : Hub.Server) :
    hub_reachable s ->
    hub_reachable (fst (Hub.engine_broadcast broken raises st s)).

(** The two registrations of an observer go together. *)
Definition hub_ok (s : Hub.Server) : Prop :=
  (forall cb, cb ∈ Engine._subscribers (Hub.engine s) ->
     exists ws, cb = WsCallback ws /\
                Hub._callbacks (Hub.manager s) !! ws = Some cb) /\
  (forall ws cb, Hub._callbacks (Hub.manager s) !! ws = Some cb ->
     cb = WsCallback ws) /\
  (forall ws, ws ∈ Hub.active_connections (Hub.manager s) ->
     is_Some (Hub._callbacks (Hub.manager s) !! ws)).

(** * Messages that the channel can dispatch *)

(** [data] is a dict whose ["action"] is a string or is absent: the two
    attribute accesses at the head of [handle_client_message] go
    through. *)
Definition dispatchable (data : json) : Prop :=
  exists fields a,
    data = JObject fields /\
    default (JString "") (fields_get "action" fields) = JString a.

(** * More of the adapter: the solve and the two checks *)

Module Solver.

(** The options that [solve] sets with [dss.Text.Command("Set ...")]. *)
Record Settings := mkSettings {
  mode : string;
  controlmode : string;
  algorithm : string;
  maxiterations : Z;
  tolerance : Q
}.

Definition set_algorithm (a : string) (o : Settings) : Settings :=
  {| mode := mode o; controlmode := controlmode o; algorithm := a;
     maxiterations := maxiterations o; tolerance := tolerance o |}.

Definition set_maxiterations (n : Z) (o : Settings) : Settings :=
  {| mode := mode o; controlmode := controlmode o; algorithm := algorithm o;
     maxiterations := n; tolerance := tolerance o |}.

Definition set_tolerance (t : Q) (o : Settings) : Settings :=
  {| mode := mode o; controlmode := controlmode o; algorithm := algorithm o;
     maxiterations := maxiterations o; tolerance := t |}.

Section Solve.
(** The solver: [Solve o c] is the circuit after [dss.Solution.Solve()]
    under the options [o], and [Converged c] what
    [dss.Solution.Converged()] then reports. *)
Variable Dss : Type.
Variable Solve : Settings -> Dss -> Dss.
Variable Converged : Dss -> bool.

(** [solve]: the flag it returns, with the options and the circuit that
    it leaves. *)
Definition solve (svc : OpenDSS.OpenDSSService) (c : Dss)
  : outcome (bool * Settings * Dss) :=
  if negb (OpenDSS._model_loaded svc)
  then Raised "Model not loaded. Call load_model() first."
  else
    let o1 := {| mode := "snapshot"; controlmode := "static";
                 algorithm := "newton"; maxiterations := 300;
                 tolerance := 1 # 10000 |} in
    let c1 := Solve o1 c in
    if Converged c1 then Ok (true, o1, c1)
    else
      let o2 := set_maxiterations 500 (set_algorithm "normal" o1) in
      let c2 := Solve o2 c1 in
      if Converged c2 then Ok (true, o2, c2)
      else
        let o3 := set_maxiterations 500
                    (set_tolerance (1 # 1000) (set_algorithm "newton" o2)) in
        let c3 := Solve o3 c2 in
        if Converged c3 then Ok (true, o3, c3)
        else
          let o4 := set_maxiterations 1000 (set_tolerance (1 # 100) o3) in
          let c4 := Solve o4 c3 in
          Ok (Converged c4, o4, c4).
End Solve.

End Solver.

Module BusData.
Record t := mk {
  name : string;
  base_kv : Q;
  voltage_pu : list Q;
  voltage_angle : list Q;
  num_nodes : nat;
  coordinates : option (Q * Q)
}.
End BusData.

Module Adapter.

(** What [opendssdirect] reports for one bus once it is the active bus. *)
Record RawBus := mkRawBus {
  Bus_Name : string;
  Bus_puVmagAngle : list Q;
  Bus_NumNodes : nat;
  Bus_kVBase : Q;
  Bus_X : Q;
  Bus_Y : Q
}.

(** The slice [l[0::2]]; [l[1::2]] is [every_other (tail l)]. *)
Fixpoint every_other {A : Type} (l : list A) : list A :=
  match l with
  | [] => []
  | x :: t => x :: match t with [] => [] | _ :: l' => every_other l' end
  end.

Definition bus_data (r : RawBus) : BusData.t :=
  let voltages := Bus_puVmagAngle r in
  let n := Bus_NumNodes r in
  {| BusData.name := Bus_Name r;
     BusData.base_kv := Bus_kVBase r;
     BusData.voltage_pu :=
       match voltages with [] => [0%Q] | _ => firstn n (every_other voltages) end;
     BusData.voltage_angle :=
       match voltages with
       | [] => [0%Q]
       | _ => firstn n (every_other (tail voltages))
       end;
     BusData.num_nodes := n;
     BusData.coordinates :=
       if Qeq_bool (Bus_X r) 0 then None else Some (Bus_X r, Bus_Y r) |}.

(** [_get_all_buses]: [raw] lists the buses in the order of
    [dss.Circuit.AllBusNames()]. *)
Definition _get_all_buses (raw : list RawBus) : list (string * BusData.t) :=
  fold_left (fun buses r => dict_set (Bus_Name r) (bus_data r) buses) raw [].

(** [needle in hay] on strings. *)
Fixpoint contains (needle hay : string) : bool :=
  String.prefix needle hay ||
  match hay with
  | EmptyString => false
  | String _ hay' => contains needle hay'
  end.

(** [max] of a list. *)
Definition py_max_list (xs : list Q) : outcome Q :=
  match xs with
  | [] => Raised "max() arg is an empty sequence"
  | x :: xs' => Ok (fold_left EngineLoop.py_max xs' x)
  end.

Section Violations.
(** [fmt4 v] renders [v] as [f"{v:.4f}"] does. *)
Variable fmt4 : Q -> string.

Definition violation_message (name : string) (i : nat) (v : Q) : string :=
  name +:+ " (node " +:+ pretty (i + 1)%nat +:+ "): " +:+ fmt4 v +:+ " pu".

(** The inner [for] over the node voltages of one bus. *)
Fixpoint node_violations (v_min v_max : Q) (name : string) (i : nat)
    (vs : list Q) (violations : list (Q * string)) : list (Q * string) :=
  match vs with
  | [] => violations
  | v :: vs' =>
      node_violations v_min v_max name (S i) vs'
        (if Engine.Qlt_bool (1 # 10) v
            && (Engine.Qlt_bool v v_min || Engine.Qlt_bool v_max v)
         then violations ++ [((Qabs (v - 1) * 100)%Q, violation_message name i v)]
         else violations)
  end.

(** The outer [for] over the buses. *)
Fixpoint bus_violations (v_min v_max : Q) (buses : list (string * BusData.t))
    (violations : list (Q * string)) : list (Q * string) :=
  match buses with
  | [] => violations
  | (name, bus) :: buses' =>
      bus_violations v_min v_max buses'
        (if contains "source" (lower name) then violations
         else node_violations v_min v_max name 0 (BusData.voltage_pu bus) violations)
  end.

(** [violations.sort(reverse=True, key=lambda x: x[0])]: descending in
    the key, entries of equal key in their original order. *)
Fixpoint insert_reverse (x : Q * string) (l : list (Q * string))
  : list (Q * string) :=
  match l with
  | [] => [x]
  | y :: l' =>
      if Engine.Qlt_bool (fst x) (fst y) then y :: insert_reverse x l'
      else x :: l
  end.

Definition sort_reverse (l : list (Q * string)) : list (Q * string) :=
  fold_right insert_reverse [] l.

(** [_check_voltage_violations] *)
Definition _check_voltage_violations (buses : list (string * BusData.t))
    (v_min v_max : Q) : list string :=
  map snd (firstn 10 (sort_reverse (bus_violations v_min v_max buses []))).
End Violations.

(** The default limits of [_check_voltage_violations]. *)
Definition V_MIN : Q := 90 # 100.
Definition V_MAX : Q := 110 # 100.

(** What [opendssdirect] reports for one line. *)
Record RawLine := mkRawLine {
  Lines_Name : string;
  Lines_NormAmps : Q;
  Line_CurrentsMagAng : list Q
}.

Section Overloads.
(** [fmt1 x] renders [x] as [f"{x:.1f}"] does. *)
Variable fmt1 : Q -> string.

Definition overload_message (name : string) (loading : Q) : string :=
  "Line." +:+ name +:+ ": " +:+ fmt1 loading +:+ "%".

(** The body of the [while] for one line. *)
Definition check_line (threshold : Q) (r : RawLine) (overloads : list string)
  : outcome (list string) :=
  let norm_amps := Lines_NormAmps r in
  if Engine.Qlt_bool 0 norm_amps then
    match Line_CurrentsMagAng r with
    | [] => Ok overloads
    | currents =>
        max_current ← py_max_list (firstn 3 (every_other currents));
        let loading := (max_current / norm_amps * 100)%Q in
        if Engine.Qlt_bool threshold loading
        then Ok (overloads ++ [overload_message (Lines_Name r) loading])
        else Ok overloads
    end
  else Ok overloads.

Fixpoint check_overloads_from (threshold : Q) (raw : list RawLine)
    (overloads : list string) : outcome (list string) :=
  match raw with
  | [] => Ok overloads
  | r :: raw' =>
      if String.eqb (Lines_Name r) "" then Ok overloads
      else
        overloads' ← check_line threshold r overloads;
        check_overloads_from threshold raw' overloads'
  end.

(** [_check_overloads]: [raw] lists the lines in the order in which
    [dss.Lines.First()] and [dss.Lines.Next()] visit them. *)
Definition _check_overloads (threshold : Q) (raw : list RawLine)
  : outcome (list string) :=
  check_overloads_from threshold raw [].
End Overloads.

End Adapter.

(** * The entry of one load in a snapshot *)

(** The dictionary entry that [_get_all_loads] makes of one load. *)
Definition scaled_load (mult : Q) (r : OpenDSS.RawLoad) : string * LoadData.t :=
  (OpenDSS.Loads_Name r,
   LoadData.mk (OpenDSS.Loads_Name r) (OpenDSS.Loads_Bus r)
     (OpenDSS.Loads_kW r * mult) (OpenDSS.Loads_kvar r * mult) (OpenDSS.Loads_vpu r)).

(** * The order of the voltage report *)

(** [a] comes before [b] when [b] deviates no more than [a]. *)
Definition worse_first (a b : Q * string) : Prop := (fst b <= fst a)%Q.

(** * The lines that the overload check looks at *)

(** The lines that the [while] of [_check_overloads] visits: those before
    the first empty name. *)
Fixpoint lines_visited (raw : list Adapter.RawLine) : list Adapter.RawLine :=
  match raw with
  | [] => []
  | r :: raw' =>
      if String.eqb (Adapter.Lines_Name r) "" then [] else r :: lines_visited raw'
  end.

(** The current magnitudes that the check reads of a line: the first
    three of [currents[0::2]]. *)
Definition phase_currents (r : Adapter.RawLine) : list Q :=
  take 3 (Adapter.every_other (Adapter.Line_CurrentsMagAng r)).

(** * The layout of [puVmagAngle] *)

(** Magnitudes and angles in turn, as [dss.Bus.puVmagAngle()] lists
    them. *)
Fixpoint interleave (mags angs : list Q) : list Q :=
  match mags, angs with
  | m :: mags', a :: angs' => m :: a :: interleave mags' angs'
  | _, _ => []
  end.

(** * The preparation of a day: [scripts/] *)

(** [int(x)] of a float: towards zero. *)
Definition py_int (x : Q) : Z := if Qle_bool 0 x then Qfloor x else Qceiling x.

(** Rounding to the nearest integer, a tie to the even one. *)
Definition round_half_even (x : Q) : Z :=
  let f := Qfloor x in
  let r := (x - inject_Z f)%Q in
  if Engine.Qlt_bool r (1 # 2) then f
  else if Engine.Qlt_bool (1 # 2) r then (f + 1)%Z
  else if Z.even f then f else (f + 1)%Z.

(** [round(x, 4)] *)
Definition py_round4 (x : Q) : Q :=
  (inject_Z (round_half_even (x * 10000)) / 10000)%Q.

(** [l[i]] *)
Definition py_index (l : list Q) (i : Z) : outcome Q :=
  let n := Z.of_nat (length l) in
  let j := if (i <? 0)%Z then (i + n)%Z else i in
  if (0 <=? j)%Z && (j <? n)%Z
  then match l !! Z.to_nat j with
       | Some x => Ok x
       | None => Raised "list index out of range"
       end
  else Raised "list index out of range".

(** [loadshape_generation/disaggregate.py] *)
Module Disaggregate.

(** An entry of [FEEDER_LOADS]. *)
Record load_info := mkLoad {
  name : string;
  kw : Q;
  synthetic_profile : string
}.

Section Config.
(** [config.SYNTHETIC_PROFILES] *)
Variable SYNTHETIC_PROFILES : gmap string (list Q).

(** [_get_synthetic_weight] *)
Definition _get_synthetic_weight (load : load_info) (hour : Q) : outcome Q :=
  match SYNTHETIC_PROFILES !! synthetic_profile load with
  | None => Raised ("'" +:+ synthetic_profile load +:+ "'")
  | Some profile =>
      let hour_idx := (py_int hour mod 24)%Z in
      let next_idx := ((hour_idx + 1) mod 24)%Z in
      let frac := (hour - inject_Z (py_int hour))%Q in
      a ← py_index profile hour_idx;
      b ← py_index profile next_idx;
      Ok (a * (1 - frac) + b * frac)%Q
  end.

(** The [weights] of one interval. *)
Fixpoint interval_weights (loads : list load_info) (hour : Q) : outcome (list Q) :=
  match loads with
  | [] => Ok []
  | load :: loads' =>
      w ← _get_synthetic_weight load hour;
      ws ← interval_weights loads' hour;
      Ok ((kw load * w)%Q :: ws)
  end.

(** The multiplier of one load in one interval, from its weight. *)
Definition multiplier (gross_load_kw total_weight : Q) (load : load_info) (w : Q) : Q :=
  let fraction := (w / total_weight)%Q in
  let load_kw := (gross_load_kw * fraction)%Q in
  let nominal_kw := kw load in
  let mult := if Engine.Qlt_bool 0 nominal_kw then (load_kw / nominal_kw)%Q else 0%Q in
  let mult := EngineLoop.py_max (1 # 100) (EngineLoop.py_min mult 3) in
  py_round4 mult.

(** One turn of the loop over the intervals of a feeder that has data:
    the name and the multiplier appended for each load. *)
Definition disaggregate_interval (gross_load_kw : Q) (loads : list load_info)
    (hour : Q) : outcome (list (string * Q)) :=
  weights ← interval_weights loads hour;
  let total_weight := py_sum weights in
  let total_weight := if Qeq_bool total_weight 0 then 1%Q else total_weight in
  Ok (zip_with (fun load w => (name load, multiplier gross_load_kw total_weight load w))
        loads weights).
End Config.

End Disaggregate.

(** [loadshape_generation/generate_load_shapes.py] *)
Module LoadShapes.

(** The padding or trimming of a multiplier list to 96 values. *)
Definition fit_96 (mults : list Q) : outcome (list Q) :=
  if (length mults =? 96)%nat then Ok mults
  else if (length mults <? 96)%nat
  then
    last ← py_index mults (-1);
    Ok (mults ++ replicate (96 - length mults) last)
  else Ok (take 96 mults).

End LoadShapes.

(** [dss_date_updater.py] *)
Module DateUpdater.

(** [\d] and [\s] on the code points below 256. *)
Definition is_digit (c : ascii) : bool :=
  let n := nat_of_ascii c in (48 <=? n)%nat && (n <=? 57)%nat.

Definition is_space (c : ascii) : bool :=
  let n := nat_of_ascii c in
  ((9 <=? n)%nat && (n <=? 13)%nat) || ((28 <=? n)%nat && (n <=? 32)%nat)
  || (n =? 133)%nat || (n =? 160)%nat.

(** What is left of [s] after [n] digits, if it starts with that many. *)
Fixpoint digits (n : nat) (s : string) : option string :=
  match n with
  | O => Some s
  | S n' =>
      match s with
      | String c s' => if is_digit c then digits n' s' else None
      | EmptyString => None
      end
  end.

(** [s] starts with a match of [(\d{8})(?=[\s.\n]|$)]. *)
Definition match_here (s : string) : bool :=
  match digits 8 s with
  | Some EmptyString => true
  | Some (String c _) => is_space c || Ascii.eqb c "."
  | None => false
  end.

(** [_DATE_PATTERN.subn(repl, text)], from left to right:
    [after_underscore] tells whether the character before is an
    underscore, [skip] how many characters of a match are still to be
    passed over. *)
Fixpoint subn_from (repl : string) (after_underscore : bool) (skip : nat)
    (s : string) : string * nat :=
  match s with
  | EmptyString => (EmptyString, O)
  | String c s' =>
      match skip with
      | S k => subn_from repl false k s'
      | O =>
          if after_underscore && match_here s
          then let '(out, n) := subn_from repl false 7 s' in (repl +:+ out, S n)
          else let '(out, n) := subn_from repl (Ascii.eqb c "_") 0 s' in
               (String c out, n)
      end
  end.

Definition subn (repl text : string) : string * nat := subn_from repl false 0 text.

(** [new_date_str.replace("-", "")] *)
Fixpoint remove_dashes (s : string) : string :=
  match s with
  | EmptyString => EmptyString
  | String c s' =>
      if Ascii.eqb c "-" then remove_dashes s' else String c (remove_dashes s')
  end.

(** [update_dss_references]: the files are a map from a path to the text
    that [read_text] returns for it. *)
Fixpoint update_files (compact : string) (dss_files : list string)
    (files : gmap string string) (total_replacements : nat)
  : gmap string string * nat :=
  match dss_files with
  | [] => (files, total_replacements)
  | dss_path :: rest =>
      match files !! dss_path with
      | None => update_files compact rest files total_replacements
      | Some text =>
          let '(new_text, count) := subn compact text in
          update_files compact rest
            (if (0 <? count)%nat then <[dss_path := new_text]> files else files)
            (total_replacements + count)
      end
  end.

Definition update_dss_references (dss_files : list string) (new_date_str : string)
    (files : gmap string string) : gmap string string * nat :=
  update_files (remove_dashes new_date_str) dss_files files 0.

End DateUpdater.

(** * Texts that differ in their digits only *)

(** The two texts have the same length and differ only where both have a
    digit. *)
Fixpoint same_shape (s t : string) : Prop :=
  match s, t with
  | EmptyString, EmptyString => True
  | String c s', String d t' =>
      (c = d \/ (DateUpdater.is_digit c = true /\ DateUpdater.is_digit d = true))
      /\ same_shape s' t'
  | _, _ => False
  end.

(** A compact date: eight digits and nothing else. *)
Definition compact_date (s : string) : Prop :=
  DateUpdater.digits 8 s = Some EmptyString.

(** The replacements that a run counts over the listed files. *)
Definition replacements (compact : string) (dss_files : list string)
    (files : gmap string string) : nat :=
  sum_list (map (fun p => match files !! p with
                          | Some text => snd (DateUpdater.subn compact text)
                          | None => 0%nat
                          end) dss_files).

(** Every callback of the table is subscribed to the engine. *)
Definition hub_subscribed (s : Hub.Server) : Prop :=
  forall ws cb, Hub._callbacks (Hub.manager s) !! ws = Some cb ->
                cb ∈ Engine._subscribers (Hub.engine s).

(** * Sample data *)

(** A day on which everything works, a day whose preparation raises, and
    a day whose compile fails. *)
Definition ok_day : Pipeline.DayEnv :=
  {| Pipeline.prepare_exception := None; Pipeline.Error_Description := "";
     Pipeline.Circuit_Name := "grid"; Pipeline.Converged_at := fun _ => true |}.

Definition no_data_day : Pipeline.DayEnv :=
  {| Pipeline.prepare_exception := Some "No data for date";
     Pipeline.Error_Description := "";
     Pipeline.Circuit_Name := ""; Pipeline.Converged_at := fun _ => false |}.

Definition compile_error_day : Pipeline.DayEnv :=
  {| Pipeline.prepare_exception := None;
     Pipeline.Error_Description := "Redirect file not found";
     Pipeline.Circuit_Name := ""; Pipeline.Converged_at := fun _ => false |}.

(** A snapshot with one load, stamped [t]. *)
Definition sample_state (t : Q) : GridState :=
  {| timestamp := t; converged := true;
     total_power_kw := 120; total_power_kvar := 30; total_losses_kw := 2;
     total_generation_kw := 0; total_solar_kw := 0; total_load_kw := 100;
     loads := [("L1", LoadData.mk "L1" "bus1" 100 20 1)];
     generators := [];
     voltage_violations := []; overloaded_elements := [] |}.

(** A solved circuit with one load of 100 kW nominal. *)
Definition sample_circuit : OpenDSS.Circuit :=
  {| OpenDSS.Solution_Converged := true;
     OpenDSS.Circuit_TotalPower := ((-120)%Q, (-30)%Q);
     OpenDSS.Circuit_Losses := (2000%Q, 0%Q);
     OpenDSS.Loads := [OpenDSS.mkRawLoad "L1" "bus1" 100 20 1];
     OpenDSS.Generators := [];
     OpenDSS.PVsystems := [];
     OpenDSS.check_voltage_violations := [];
     OpenDSS.check_overloads := [] |}.

(** A fresh engine whose history holds two entries at most. *)
Definition small_engine : Engine.SimulationService :=
  {| Engine._running := false; Engine._paused := false;
     Engine._current_state := None; Engine._simulation_speed := 1;
     Engine._subscribers := ∅; Engine._simulation_task := None;
     Engine._history := []; Engine._max_history_length := 2;
     Engine._current_hour := 0; Engine._step_minutes := 15;
     Engine._mode := "synthetic" |}.

(** The engine after a successful [start] from its initial state. *)
Definition running_engine : Engine.SimulationService :=
  fst (fst (Engine.start (Some "grid") 24 1 "synthetic" Engine.init OpenDSS.init)).

(** * Properties *)

(** ** The history log *)

Section History.
Implicit Types (h : list HistoryEntry) (x : HistoryEntry) (cap : nat).

Lemma history_append_length cap x h :
  length h <= cap -> length (Engine.history_append cap x h) <= cap.
Proof.
  intros Hle. unfold Engine.history_append.
  destruct (Nat.ltb_spec cap (length (h ++ [x]))) as [Hlt | Hge].
  - rewrite length_drop, length_app. simpl. lia.
  - exact Hge.
Qed.

Lemma history_append_drop cap x h :
  length h <= cap ->
  Engine.history_append cap x h = drop (length (h ++ [x]) - cap) (h ++ [x]).
Proof.
  intros Hle. unfold Engine.history_append.
  destruct (Nat.ltb_spec cap (length (h ++ [x]))) as [Hlt | Hge].
  - rewrite length_app in *. simpl in *.
    replace (length h + 1 - cap) with 1 by lia. reflexivity.
  - replace (length (h ++ [x]) - cap) with 0 by lia. reflexivity.
Qed.

Lemma appends_hist_drop cap xs : forall h,
  length h <= cap ->
  appends_hist cap xs h = drop (length (h ++ xs) - cap) (h ++ xs).
Proof.
  induction xs as [| x xs IH]; intros h Hle; simpl.
  - rewrite app_nil_r. replace (length h - cap) with 0 by lia. reflexivity.
  - fold (appends_hist cap xs (Engine.history_append cap x h)).
    rewrite IH by (apply history_append_length; exact Hle).
    rewrite history_append_drop by exact Hle.
    set (k := length (h ++ [x]) - cap).
    assert (Hk : k <= length (h ++ [x])) by (unfold k; lia).
    rewrite <- (drop_app_le (h ++ [x]) xs k Hk).
    rewrite <- app_assoc. simpl.
    rewrite drop_drop. f_equal.
    rewrite length_drop. unfold k.
    rewrite !length_app in *. simpl in *. lia.
Qed.

Lemma appends_hist_length cap xs : forall h,
  length h <= cap -> length (appends_hist cap xs h) <= cap.
Proof.
  induction xs as [| x xs IH]; intros h Hle; simpl; [exact Hle |].
  apply IH, history_append_length, Hle.
Qed.
End History.

Lemma record_all_history sts : forall e,
  Engine._max_history_length (record_all sts e) = Engine._max_history_length e /\
  Engine._history (record_all sts e) =
    appends_hist (Engine._max_history_length e) (map Engine.summary sts) (Engine._history e).
Proof.
  induction sts as [| st sts IH]; intros e; simpl; [split; reflexivity |].
  destruct (IH (Engine._add_to_history st e)) as [Hcap Hh].
  split; [exact Hcap | exact Hh].
Qed.

(** C5.  From a history within its capacity (the empty history of a fresh
    or restarted engine in particular), any run of appends leaves the
    capacity alone and a history no longer than it, which is the last
    [capacity] entries of everything appended, in append order.  After
    capacity+1 appends to the empty history, the oldest entry is gone,
    the rest is kept in order and the newest entry is the last one.  The
    default capacity is 1000. *)
Theorem history_bounded_fifo (e : Engine.SimulationService) (sts : list GridState) :
  length (Engine._history e) <= Engine._max_history_length e ->
  let cap := Engine._max_history_length e in
  let e' := record_all sts e in
  let all := Engine._history e ++ map Engine.summary sts in
  Engine._max_history_length Engine.init = 1000 /\
  Engine._max_history_length e' = cap /\
  length (Engine._history e') <= cap /\
  Engine._history e' = drop (length all - cap) all /\
  (Engine._history e = [] -> length sts = S cap -> 0 < cap ->
   exists oldest rest,
     map Engine.summary sts = oldest :: rest /\
     Engine._history e' = rest /\
     last rest = last (map Engine.summary sts)).
Proof.
  intros Hle cap e' all.
  destruct (record_all_history sts e) as [Hcap Hh].
  fold e' in Hcap, Hh. fold cap in Hh.
  assert (Hdrop : Engine._history e' = drop (length all - cap) all).
  { rewrite Hh. apply appends_hist_drop. exact Hle. }
  split; [reflexivity |]. split; [exact Hcap |]. split.
  - rewrite Hh. apply appends_hist_length. exact Hle.
  - split; [exact Hdrop |].
    intros Hnil Hlen Hpos.
    subst all. rewrite Hnil in Hdrop. simpl in Hdrop.
    rewrite length_map, Hlen in Hdrop.
    replace (S cap - cap) with 1 in Hdrop by lia.
    destruct (map Engine.summary sts) as [| oldest rest] eqn:Hmap.
    + apply (f_equal length) in Hmap. rewrite length_map in Hmap. simpl in Hmap. lia.
    + exists oldest, rest. split; [reflexivity |]. split; [exact Hdrop |].
      destruct rest as [| y rest'].
      * apply (f_equal length) in Hmap. rewrite length_map in Hmap. simpl in Hmap. lia.
      * reflexivity.
Qed.

Lemma history_bounded_fifo_witness :
  let sts := [sample_state 0; sample_state (1 # 4); sample_state (1 # 2)] in
  length (Engine._history small_engine) <= Engine._max_history_length small_engine /\
  Engine._history small_engine = [] /\
  length sts = S (Engine._max_history_length small_engine) /\
  0 < Engine._max_history_length small_engine /\
  Engine._history (record_all sts small_engine)
    = [Engine.summary (sample_state (1 # 4)); Engine.summary (sample_state (1 # 2))] /\
  exists oldest rest,
    map Engine.summary sts = oldest :: rest /\
    Engine._history (record_all sts small_engine) = rest /\
    last rest = last (map Engine.summary sts).
Proof.
  intros sts.
  pose proof (history_bounded_fifo small_engine sts ltac:(simpl; lia)) as H.
  split; [simpl; lia |]. split; [reflexivity |]. split; [reflexivity |].
  split; [simpl; lia |]. split.
  - exact (proj1 (proj2 (proj2 (proj2 H)))).
  - exact (proj2 (proj2 (proj2 (proj2 H))) eq_refl eq_refl ltac:(simpl; lia)).
Defined.

(** ** Reading the history *)

(** C7.  [get_history(0)] returns the whole history, not zero entries:
    [self._history[-0:]] is [self._history[0:]].  Here on any engine, and
    on an engine that has recorded two snapshots. *)
Theorem get_history_zero_returns_all :
  (forall e : Engine.SimulationService,
     Engine.get_history 0 e = Engine._history e) /\
  (let e := record_all [sample_state 0; sample_state (1 # 4)] Engine.init in
   length (Engine.get_history 0 e) = 2).
Proof.
  split.
  - intros e. unfold Engine.get_history, py_slice_from. simpl.
    rewrite Z.min_l by lia. reflexivity.
  - reflexivity.
Qed.

(** For a positive limit the slice is the last [limit] entries, or the
    whole history when it is shorter. *)
Lemma get_history_positive (limit : Z) (e : Engine.SimulationService) :
  (0 < limit)%Z ->
  Engine.get_history limit e =
    drop (length (Engine._history e) - Z.to_nat limit) (Engine._history e).
Proof.
  intros Hpos. unfold Engine.get_history, py_slice_from.
  destruct (Z.ltb_spec (- limit) 0) as [_ | Hge]; [| lia].
  f_equal. lia.
Qed.

(** ** Pause and resume *)

(** C6, as the claim has it, fails: [resume] on an engine that is running
    and not paused reports success. *)
Lemma resume_succeeds_when_not_paused :
  let e := running_engine in
  Engine._running e = true /\ Engine._paused e = false /\
  success (snd (Engine.resume e)) = true /\
  snd (Engine.resume e) <> failure "Simulation not running".
Proof. repeat split; try reflexivity. discriminate. Qed.

(** C6, amended.  [pause] and [resume] look at the running flag only.  On
    an idle engine both fail with "Simulation not running" and change
    nothing.  On a running engine both succeed, paused or not: [pause]
    leaves it paused, [resume] leaves it not paused; so [resume] on a
    running engine that is not paused succeeds and changes nothing. *)
Theorem pause_resume_guard (e : Engine.SimulationService) :
  (Engine._running e = false ->
     Engine.resume e = (e, failure "Simulation not running") /\
     Engine.pause e = (e, failure "Simulation not running")) /\
  (Engine._running e = true ->
     Engine.resume e = (Engine.set_paused false e, succeeded "Simulation resumed") /\
     Engine.pause e = (Engine.set_paused true e, succeeded "Simulation paused") /\
     (Engine._paused e = false -> fst (Engine.resume e) = e)).
Proof.
  split; intros Hrun; unfold Engine.resume, Engine.pause; rewrite Hrun; simpl.
  - split; reflexivity.
  - repeat split. intros Hp. destruct e; simpl in *. subst. reflexivity.
Qed.

Lemma pause_resume_guard_witness :
  Engine._running running_engine = true /\
  Engine._paused running_engine = false /\
  fst (Engine.resume running_engine) = running_engine /\
  Engine._running Engine.init = false /\
  Engine.resume Engine.init = (Engine.init, failure "Simulation not running").
Proof.
  split; [reflexivity |]. split; [reflexivity |]. split.
  - exact (proj2 (proj2 (proj2 (pause_resume_guard running_engine) eq_refl)) eq_refl).
  - split; [reflexivity |].
    exact (proj1 (proj1 (pause_resume_guard Engine.init) eq_refl)).
Defined.

(** ** Snapshot totals *)

(** The state-read path and the data-driven loop take the total load as
    the sum of the entries. *)
Lemma read_current_state_total (d : OpenDSS.OpenDSSService) (c : OpenDSS.Circuit)
    (st : GridState) :
  OpenDSS.read_current_state d c = Ok st ->
  total_load_kw st = OpenDSS.sum_load_kw (loads st).
Proof.
  unfold OpenDSS.read_current_state.
  destruct (negb (OpenDSS._model_loaded d)); [discriminate |].
  intros [= <-]. reflexivity.
Qed.

Lemma real_data_state_total (c : OpenDSS.Circuit) (e : Engine.SimulationService)
    (d : OpenDSS.OpenDSSService) :
  total_load_kw (Engine.real_data_state c e d) =
  OpenDSS.sum_load_kw (loads (Engine.real_data_state c e d)).
Proof. reflexivity. Qed.

(** [get_grid_state] multiplies that sum by the load multiplier once
    more, although [_get_all_loads] has scaled every entry already. *)
Lemma get_grid_state_total (d : OpenDSS.OpenDSSService) (c : OpenDSS.Circuit)
    (st : GridState) :
  OpenDSS.get_grid_state d c = Ok st ->
  total_load_kw st =
    (OpenDSS.sum_load_kw (loads st) * OpenDSS._current_load_mult d)%Q /\
  loads st = OpenDSS.get_all_loads_from (OpenDSS._current_load_mult d) (OpenDSS.Loads c) [].
Proof.
  unfold OpenDSS.get_grid_state.
  destruct (negb (OpenDSS._model_loaded d)); [discriminate |].
  intros [= <-]. split; reflexivity.
Qed.

(** C4.  One manual [step] of a fresh engine at clock 0 (off-peak, load
    multiplier 0.5 * 1.01) on a circuit with a single 100 kW load: the
    snapshot it returns lists the load at 50.5 kW, and gives a total load
    of 25.5025 kW, which is not within a hundredth of the sum of the
    entries. *)
Theorem synthetic_step_total_load_mismatch :
  exists e d log st l,
    Engine.step System.no_observer (Some "grid") (1 # 100) sample_circuit
      Engine.init OpenDSS.init
    = Ok (e, d, log,
          {| success := true; error := None; message := None;
             speed := None; state := Some st |}) /\
    loads st = [("L1", l)] /\
    (LoadData.kw l == 101 # 2)%Q /\
    (OpenDSS.sum_load_kw (loads st) == 101 # 2)%Q /\
    (total_load_kw st == 10201 # 400)%Q /\
    ~ (Qabs (total_load_kw st - OpenDSS.sum_load_kw (loads st)) <= 1 # 100)%Q.
Proof.
  do 5 eexists. split; [vm_compute; reflexivity |].
  split; [vm_compute; reflexivity |].
  split; [vm_compute; reflexivity |].
  split; [vm_compute; reflexivity |].
  split; [vm_compute; reflexivity |].
  vm_compute. intros H. apply H. reflexivity.
Qed.

(** ** The engine and the orchestrator on one adapter *)




(** ** The life of a batch task *)

Lemma run_one_day_record (date : Z) (env : Pipeline.DayEnv) (d : OpenDSS.OpenDSSService) :
  snd (Pipeline._run_one_day date env d) = Ok (day_record date env).
Proof.
  unfold Pipeline._run_one_day, Pipeline._sync_work, Pipeline._prepare_date,
    Pipeline._run_simulation, day_record, error_record.
  destruct (Pipeline.prepare_exception env) as [e |]; [reflexivity |].
  destruct (String.eqb (Pipeline.Error_Description env) ""); reflexivity.
Qed.

(** The [except] branch of [_run_task] is never entered from a day. *)
Lemma run_one_day_never_raises (date : Z) (env : Pipeline.DayEnv)
    (d : OpenDSS.OpenDSSService) (e : string) :
  snd (Pipeline._run_one_day date env d) <> Raised e.
Proof. rewrite run_one_day_record. discriminate. Qed.

(** At a day boundary a cancelled task is marked completed. *)
Lemma cancelled_overwritten_at_boundary (env : Pipeline.DayEnv)
    (obj : Pipeline.TaskObj) (d : OpenDSS.OpenDSSService) :
  SimulationTask.status (Pipeline.task obj) = cancelled ->
  Pipeline.at_pc obj = Pipeline.AwaitSleep ->
  SimulationTask.status (Pipeline.task (fst (Pipeline.run_task_step env obj d)))
    = completed /\
  Pipeline.at_pc (fst (Pipeline.run_task_step env obj d)) = Pipeline.Finished.
Proof.
  intros Hst Hpc. unfold Pipeline.run_task_step. rewrite Hpc. simpl.
  unfold Pipeline.loop_head.
  destruct (Pipeline.current obj <=? SimulationTask.end_date (Pipeline.task obj))%Z;
    [| split; reflexivity].
  destruct (decide (SimulationTask.status (Pipeline.task obj) = cancelled));
    [split; reflexivity | contradiction].
Qed.

(** C2.  A two-day task is started, its first day runs and the task
    sleeps between the days; it is running.  [cancel_task] succeeds and
    marks it cancelled.  At its next resumption the coroutine sees the
    mark, leaves the loop, and sets the status to completed: the task
    does not stay cancelled.  The results hold the first day only. *)
Theorem cancelled_task_ends_completed :
  let s3 := System.run [System.BatchStart "a1b2c3d4" 0 (Some 1%Z);
                        System.BatchResume 0 ok_day;
                        System.BatchResume 0 ok_day] System.init in
  SimulationTask.status <$> Pipeline.get_task "a1b2c3d4" (System.orchestrator s3)
    = Some running /\
  exists o4,
    Pipeline.cancel_task "a1b2c3d4" (System.orchestrator s3) = (o4, true) /\
    SimulationTask.status <$> Pipeline.get_task "a1b2c3d4" o4 = Some cancelled /\
    let o5 := fst (Pipeline.resume_task 0 ok_day o4 (System.adapter s3)) in
    SimulationTask.status <$> Pipeline.get_task "a1b2c3d4" o5 = Some completed /\
    (map DayResult.date ∘ SimulationTask.completed_days)
      <$> Pipeline.get_task "a1b2c3d4" o5 = Some [0%Z].
Proof.
  split; [vm_compute; reflexivity |].
  eexists. split; [vm_compute; reflexivity |].
  split; vm_compute; [reflexivity | split; reflexivity].
Qed.

(** C3, as the claim has it, fails.  A three-day task whose first day
    meets a compile error: the error becomes the record of that day, the
    two remaining days run, and the task ends completed, without an error
    message of its own. *)
Lemma compile_error_does_not_end_task :
  let envs := fun date : Z => if (date =? 0)%Z then compile_error_day else ok_day in
  let obj := fst (drive 8 envs (Pipeline.new_task "a1b2c3d4" 0 (Some 2%Z)) OpenDSS.init) in
  Pipeline.at_pc obj = Pipeline.Finished /\
  SimulationTask.status (Pipeline.task obj) = completed /\
  SimulationTask.error (Pipeline.task obj) = None /\
  map (fun r => (DayResult.date r, DayResult.status r, DayResult.error r))
      (SimulationTask.completed_days (Pipeline.task obj))
  = [(0%Z, "error", Some "DSS compile error: Redirect file not found");
     (1%Z, "success", None); (2%Z, "success", None)].
Proof. vm_compute. repeat split. Qed.

Section RunToEnd.
Variable envs : Z -> Pipeline.DayEnv.

(** Past the last day, the resumption at a day boundary ends the task. *)
Lemma drive_last (obj : Pipeline.TaskObj) (d : OpenDSS.OpenDSSService) :
  Pipeline.at_pc obj = Pipeline.AwaitSleep ->
  (SimulationTask.end_date (Pipeline.task obj) < Pipeline.current obj)%Z ->
  drive 1 envs obj d =
  ({| Pipeline.task := SimulationTask.with_status completed (Pipeline.task obj);
      Pipeline.at_pc := Pipeline.Finished;
      Pipeline.current := Pipeline.current obj;
      Pipeline.day_num := Pipeline.day_num obj |}, d).
Proof.
  intros Hpc Hgt. cbn [drive].
  destruct (decide (Pipeline.at_pc obj = Pipeline.Finished)) as [Hf | _];
    [congruence |].
  unfold Pipeline.run_task_step. rewrite Hpc. unfold Pipeline.loop_head.
  destruct (Z.leb_spec (Pipeline.current obj)
              (SimulationTask.end_date (Pipeline.task obj))) as [Hle | _]; [lia |].
  reflexivity.
Qed.

(** Before it, two resumptions run one day and reach the next boundary. *)
Lemma drive_one_day (fuel : nat) (obj : Pipeline.TaskObj) (d : OpenDSS.OpenDSSService) :
  Pipeline.at_pc obj = Pipeline.AwaitSleep ->
  SimulationTask.status (Pipeline.task obj) = running ->
  (Pipeline.current obj <= SimulationTask.end_date (Pipeline.task obj))%Z ->
  (Pipeline.current obj < DATE_MAX)%Z ->
  drive (S (S fuel)) envs obj d =
  drive fuel envs
    {| Pipeline.task :=
         SimulationTask.append_day
         (day_record (Pipeline.current obj) (envs (Pipeline.current obj)))
           (SimulationTask.with_current (Pipeline.day_num obj + 1)
              (Pipeline.current obj) (Pipeline.task obj));
       Pipeline.at_pc := Pipeline.AwaitSleep;
       Pipeline.current := Pipeline.current obj + 1;
       Pipeline.day_num := Pipeline.day_num obj + 1 |}
    (fst (Pipeline._run_one_day (Pipeline.current obj)
            (envs (Pipeline.current obj)) d)).
Proof.
  intros Hpc Hst Hle Hmax. cbn [drive].
  destruct (decide (Pipeline.at_pc obj = Pipeline.Finished)) as [Hf | _];
    [congruence |].
  unfold Pipeline.run_task_step at 1. rewrite Hpc. unfold Pipeline.loop_head.
  destruct (Z.leb_spec (Pipeline.current obj)
              (SimulationTask.end_date (Pipeline.task obj))) as [_ | Hgt]; [| lia].
  destruct (decide (SimulationTask.status (Pipeline.task obj) = cancelled))
    as [Hc | _]; [congruence |].
  cbn [Pipeline.at_pc].
  destruct (decide (Pipeline.AwaitDay = Pipeline.Finished)) as [Hf | _];
    [discriminate |].
  unfold Pipeline.run_task_step. cbn [Pipeline.at_pc Pipeline.current].
  pose proof (run_one_day_record (Pipeline.current obj)
                (envs (Pipeline.current obj)) d) as Hrec.
  destruct (Pipeline._run_one_day (Pipeline.current obj)
              (envs (Pipeline.current obj)) d) as [d' r].
  cbn [snd] in Hrec. subst r.
  destruct (Z.ltb_spec DATE_MAX (Pipeline.current obj + 1)) as [Hov | _]; [lia |].
  reflexivity.
Qed.

(** On the last date that [datetime] has, two resumptions run the day,
    record it, and end the task on the [OverflowError] of the next
    date. *)
Lemma drive_last_date (fuel : nat) (obj : Pipeline.TaskObj) (d : OpenDSS.OpenDSSService) :
  Pipeline.at_pc obj = Pipeline.AwaitSleep ->
  SimulationTask.status (Pipeline.task obj) = running ->
  (Pipeline.current obj <= SimulationTask.end_date (Pipeline.task obj))%Z ->
  (DATE_MAX <= Pipeline.current obj)%Z ->
  drive (S (S fuel)) envs obj d =
  ({| Pipeline.task :=
        SimulationTask.with_error failed "date value out of range"
          (SimulationTask.append_day
             (day_record (Pipeline.current obj) (envs (Pipeline.current obj)))
             (SimulationTask.with_current (Pipeline.day_num obj + 1)
                (Pipeline.current obj) (Pipeline.task obj)));
      Pipeline.at_pc := Pipeline.Finished;
      Pipeline.current := Pipeline.current obj;
      Pipeline.day_num := Pipeline.day_num obj + 1 |},
   fst (Pipeline._run_one_day (Pipeline.current obj)
          (envs (Pipeline.current obj)) d)).
Proof.
  intros Hpc Hst Hle Hmax. cbn [drive].
  destruct (decide (Pipeline.at_pc obj = Pipeline.Finished)) as [Hf | _];
    [congruence |].
  unfold Pipeline.run_task_step at 1. rewrite Hpc. unfold Pipeline.loop_head.
  destruct (Z.leb_spec (Pipeline.current obj)
              (SimulationTask.end_date (Pipeline.task obj))) as [_ | Hgt]; [| lia].
  destruct (decide (SimulationTask.status (Pipeline.task obj) = cancelled))
    as [Hc | _]; [congruence |].
  cbn [Pipeline.at_pc].
  destruct (decide (Pipeline.AwaitDay = Pipeline.Finished)) as [Hf | _];
    [discriminate |].
  unfold Pipeline.run_task_step. cbn [Pipeline.at_pc Pipeline.current].
  pose proof (run_one_day_record (Pipeline.current obj)
                (envs (Pipeline.current obj)) d) as Hrec.
  destruct (Pipeline._run_one_day (Pipeline.current obj)
              (envs (Pipeline.current obj)) d) as [d' r].
  cbn [snd] in Hrec. subst r.
  destruct (Z.ltb_spec DATE_MAX (Pipeline.current obj + 1)) as [_ | Hno]; [| lia].
  destruct fuel; cbn [drive Pipeline.at_pc fst]; [reflexivity |].
  destruct (decide (Pipeline.Finished = Pipeline.Finished)) as [_ | Hn];
    [reflexivity | contradiction].
Qed.

(** From a day boundary, a task that nobody cancels and that ends
    before the last date runs each of its remaining days and ends
    completed. *)
Lemma drive_from_boundary (k : nat) : forall obj d,
  Pipeline.at_pc obj = Pipeline.AwaitSleep ->
  SimulationTask.status (Pipeline.task obj) = running ->
  (SimulationTask.end_date (Pipeline.task obj) < DATE_MAX)%Z ->
  Z.to_nat (SimulationTask.end_date (Pipeline.task obj) - Pipeline.current obj + 1) = k ->
  Pipeline.at_pc (fst (drive (2 * k + 1) envs obj d)) = Pipeline.Finished /\
  SimulationTask.status (Pipeline.task (fst (drive (2 * k + 1) envs obj d)))
    = completed /\
  SimulationTask.error (Pipeline.task (fst (drive (2 * k + 1) envs obj d)))
    = SimulationTask.error (Pipeline.task obj) /\
  SimulationTask.completed_days (Pipeline.task (fst (drive (2 * k + 1) envs obj d))) =
    SimulationTask.completed_days (Pipeline.task obj)
    ++ map (fun date => day_record date (envs date)) (dates (Pipeline.current obj) k).
Proof.
  induction k as [| k IH]; intros obj d Hpc Hst Hend Hk.
  - change (2 * 0 + 1) with 1.
    rewrite (drive_last obj d Hpc) by lia. cbn. rewrite app_nil_r. repeat split.
  - replace (2 * S k + 1) with (S (S (2 * k + 1))) by lia.
    rewrite (drive_one_day _ obj d Hpc Hst) by lia.
    match goal with
    | |- context [drive _ envs ?o ?d'] => specialize (IH o d')
    end.
    destruct IH as (Hpc' & Hst' & Herr' & Hdays');
      [reflexivity | exact Hst | exact Hend | cbn; lia |].
    split; [exact Hpc' |]. split; [exact Hst' |]. split; [exact Herr' |].
    rewrite Hdays'. cbn. rewrite <- app_assoc. reflexivity.
Qed.

(** A task that nobody cancels and whose last day is the last date runs
    each of its remaining days, records them, and ends in error on the
    step past that date. *)
Lemma drive_to_last_date (k : nat) : forall obj d,
  Pipeline.at_pc obj = Pipeline.AwaitSleep ->
  SimulationTask.status (Pipeline.task obj) = running ->
  SimulationTask.end_date (Pipeline.task obj) = DATE_MAX ->
  Z.to_nat (DATE_MAX - Pipeline.current obj) = k ->
  (Pipeline.current obj <= DATE_MAX)%Z ->
  Pipeline.at_pc (fst (drive (2 * k + 3) envs obj d)) = Pipeline.Finished /\
  SimulationTask.status (Pipeline.task (fst (drive (2 * k + 3) envs obj d)))
    = failed /\
  SimulationTask.error (Pipeline.task (fst (drive (2 * k + 3) envs obj d)))
    = Some "date value out of range" /\
  SimulationTask.completed_days (Pipeline.task (fst (drive (2 * k + 3) envs obj d))) =
    SimulationTask.completed_days (Pipeline.task obj)
    ++ map (fun date => day_record date (envs date)) (dates (Pipeline.current obj) (S k)).
Proof.
  induction k as [| k IH]; intros obj d Hpc Hst Hend Hk Hle.
  - change (2 * 0 + 3) with (S (S 1)).
    rewrite (drive_last_date _ obj d Hpc Hst) by lia. cbn. repeat split.
  - replace (2 * S k + 3) with (S (S (2 * k + 3))) by lia.
    rewrite (drive_one_day _ obj d Hpc Hst) by lia.
    match goal with
    | |- context [drive _ envs ?o ?d'] => specialize (IH o d')
    end.
    destruct IH as (Hpc' & Hst' & Herr' & Hdays');
      [reflexivity | exact Hst | exact Hend | cbn; lia | cbn; lia |].
    split; [exact Hpc' |]. split; [exact Hst' |]. split; [exact Herr' |].
    rewrite Hdays'. cbn. rewrite <- app_assoc. reflexivity.
Qed.

(** The first resumption of the coroutine does what a resumption at a
    day boundary does for the task marked running. *)
Lemma drive_created (fuel : nat) (obj : Pipeline.TaskObj) (d : OpenDSS.OpenDSSService) :
  Pipeline.at_pc obj = Pipeline.Created ->
  drive (S fuel) envs obj d =
  drive (S fuel) envs
    {| Pipeline.task := SimulationTask.with_status running (Pipeline.task obj);
       Pipeline.at_pc := Pipeline.AwaitSleep;
       Pipeline.current := SimulationTask.start_date (Pipeline.task obj);
       Pipeline.day_num := 0 |} d.
Proof.
  intros Hpc. cbn [drive Pipeline.at_pc].
  destruct (decide (Pipeline.at_pc obj = Pipeline.Finished)) as [Hf | _];
    [congruence |].
  destruct (decide (Pipeline.AwaitSleep = Pipeline.Finished)) as [Hf | _];
    [discriminate |].
  unfold Pipeline.run_task_step. rewrite Hpc. reflexivity.
Qed.
End RunToEnd.

(** C3, amended.  A batch task that nobody cancels runs every one of its
    days, whatever the days meet.  Its results are the records of its
    days in date order: the summary of a day that worked, and for a day
    whose preparation raised or whose compile failed an error record
    with the message, after which the remaining days still run.  When
    its last day is before 9999-12-31 it ends completed with no error
    message.  When its last day is 9999-12-31 it ends, after the record
    of that day, with the status error: the step to the next date
    raises "date value out of range". *)
Theorem day_failures_are_recorded_and_days_go_on
    (envs : Z -> Pipeline.DayEnv) (task_id : string) (start_date : Z)
    (end_date : option Z) (d : OpenDSS.OpenDSSService) :
  let obj0 := Pipeline.new_task task_id start_date end_date in
  let last := SimulationTask.end_date (Pipeline.task obj0) in
  let n := Z.to_nat (SimulationTask.total_days (Pipeline.task obj0)) in
  let obj := fst (drive (2 * n + 1) envs obj0 d) in
  ((last < DATE_MAX)%Z ->
   Pipeline.at_pc obj = Pipeline.Finished /\
   SimulationTask.status (Pipeline.task obj) = completed /\
   SimulationTask.error (Pipeline.task obj) = None /\
   SimulationTask.completed_days (Pipeline.task obj)
     = map (fun date => day_record date (envs date)) (dates start_date n)) /\
  ((start_date <= last)%Z -> last = DATE_MAX ->
   Pipeline.at_pc obj = Pipeline.Finished /\
   SimulationTask.status (Pipeline.task obj) = failed /\
   SimulationTask.error (Pipeline.task obj) = Some "date value out of range" /\
   SimulationTask.completed_days (Pipeline.task obj)
     = map (fun date => day_record date (envs date)) (dates start_date n)) /\
  (forall date,
     Pipeline.prepare_exception (envs date) = None ->
     Pipeline.Error_Description (envs date) <> "" ->
     day_record date (envs date)
       = error_record date
           ("DSS compile error: " +:+ Pipeline.Error_Description (envs date))) /\
  (forall date e,
     Pipeline.prepare_exception (envs date) = Some e ->
     day_record date (envs date) = error_record date e).
Proof.
  intros obj0 last n obj.
  assert (Hlast : last = default start_date end_date) by reflexivity.
  assert (Hn : n = Z.to_nat (last - start_date + 1)) by reflexivity.
  split; [| split; [| split]].
  - intros Hend. subst obj. replace (2 * n + 1) with (S (2 * n)) by lia.
    rewrite drive_created by reflexivity.
    replace (S (2 * n)) with (2 * n + 1) by lia.
    change (map (fun date => day_record date (envs date)) (dates start_date n))
      with ([] ++ map (fun date => day_record date (envs date)) (dates start_date n)).
    apply (drive_from_boundary envs n); [reflexivity | reflexivity | exact Hend |].
    reflexivity.
  - intros Hle Hend. subst obj.
    assert (Hk : n = S (Z.to_nat (DATE_MAX - start_date))) by lia.
    rewrite Hk.
    replace (2 * S (Z.to_nat (DATE_MAX - start_date)) + 1)
      with (S (2 * Z.to_nat (DATE_MAX - start_date) + 2)) by lia.
    rewrite drive_created by reflexivity.
    replace (S (2 * Z.to_nat (DATE_MAX - start_date) + 2))
      with (2 * Z.to_nat (DATE_MAX - start_date) + 3) by lia.
    change (map (fun date => day_record date (envs date))
              (dates start_date (S (Z.to_nat (DATE_MAX - start_date)))))
      with ([] ++ map (fun date => day_record date (envs date))
                    (dates start_date (S (Z.to_nat (DATE_MAX - start_date))))).
    apply (drive_to_last_date envs (Z.to_nat (DATE_MAX - start_date)));
      [reflexivity | reflexivity | exact Hend | reflexivity | cbn; lia].
  - intros date Hprep Hdesc. unfold day_record. rewrite Hprep.
    destruct (String.eqb_spec (Pipeline.Error_Description (envs date)) "");
      [contradiction | reflexivity].
  - intros date e Hprep. unfold day_record. rewrite Hprep. reflexivity.
Qed.

Lemma day_failures_are_recorded_and_days_go_on_witness :
  let envs := fun date : Z =>
    if (date =? 0)%Z then compile_error_day
    else if (date =? 1)%Z then no_data_day else ok_day in
  let obj := fst (drive 7 envs (Pipeline.new_task "a1b2c3d4" 0 (Some 2%Z)) OpenDSS.init) in
  let obj' := fst (drive 5 envs
                     (Pipeline.new_task "e5f6a7b8" (DATE_MAX - 1) (Some DATE_MAX))
                     OpenDSS.init) in
  Pipeline.prepare_exception (envs 0%Z) = None /\
  Pipeline.Error_Description (envs 0%Z) <> "" /\
  day_record 0 (envs 0%Z)
    = error_record 0 "DSS compile error: Redirect file not found" /\
  Pipeline.prepare_exception (envs 1%Z) = Some "No data for date" /\
  day_record 1 (envs 1%Z) = error_record 1 "No data for date" /\
  map DayResult.status (SimulationTask.completed_days (Pipeline.task obj))
    = ["error"; "error"; "success"] /\
  SimulationTask.status (Pipeline.task obj) = completed /\
  SimulationTask.status (Pipeline.task obj') = failed /\
  map DayResult.date (SimulationTask.completed_days (Pipeline.task obj'))
    = [(DATE_MAX - 1)%Z; DATE_MAX].
Proof.
  intros envs obj obj'.
  pose proof (day_failures_are_recorded_and_days_go_on envs "a1b2c3d4" 0 (Some 2%Z)
                OpenDSS.init) as H.
  pose proof (day_failures_are_recorded_and_days_go_on envs "e5f6a7b8"
                (DATE_MAX - 1) (Some DATE_MAX) OpenDSS.init) as H'.
  cbn zeta in H, H'.
  destruct H as (Hdone & _ & Hcompile & Hprep).
  destruct H' as (_ & Hover & _).
  destruct (Hdone ltac:(reflexivity)) as (_ & Hst & _ & Hdays).
  destruct (Hover ltac:(discriminate) eq_refl) as (_ & Hst' & _ & Hdays').
  split; [reflexivity |]. split; [discriminate |]. split.
  - exact (Hcompile 0%Z eq_refl ltac:(discriminate)).
  - split; [reflexivity |]. split.
    + exact (Hprep 1%Z "No data for date" eq_refl).
    + split; [exact (f_equal (map DayResult.status) Hdays) |].
      split; [exact Hst |]. split; [exact Hst' |].
      exact (f_equal (map DayResult.date) Hdays').
Defined.

(** ** Cancelling *)

Lemma coherent_loop_head (obj : Pipeline.TaskObj) :
  SimulationTask.status (Pipeline.task obj) = running \/
  SimulationTask.status (Pipeline.task obj) = cancelled ->
  coherent (Pipeline.loop_head obj).
Proof.
  intros Hst. unfold Pipeline.loop_head.
  destruct (Pipeline.current obj <=? SimulationTask.end_date (Pipeline.task obj))%Z;
    [| reflexivity].
  destruct (decide (SimulationTask.status (Pipeline.task obj) = cancelled)) as [Hc | Hc];
    [reflexivity |].
  destruct Hst as [Hr | Hr]; [| contradiction].
  unfold coherent. cbn. rewrite Hr. left. reflexivity.
Qed.

Lemma coherent_step (env : Pipeline.DayEnv) (obj : Pipeline.TaskObj)
    (d : OpenDSS.OpenDSSService) :
  coherent obj -> coherent (fst (Pipeline.run_task_step env obj d)).
Proof.
  intros Hc. unfold Pipeline.run_task_step.
  destruct (Pipeline.at_pc obj) eqn:Hpc.
  - cbn [fst]. apply coherent_loop_head. left. reflexivity.
  - pose proof (run_one_day_record (Pipeline.current obj) env d) as Hrec.
    destruct (Pipeline._run_one_day (Pipeline.current obj) env d) as [d' r].
    cbn [snd] in Hrec. subst r.
    destruct (DATE_MAX <? Pipeline.current obj + 1)%Z; cbn [fst];
      [reflexivity |].
    unfold coherent in *. cbn. rewrite Hpc in Hc.
    destruct (SimulationTask.status (Pipeline.task obj));
      first [discriminate Hc | right; reflexivity].
  - cbn [fst]. apply coherent_loop_head.
    unfold coherent in Hc. rewrite Hpc in Hc.
    destruct (SimulationTask.status (Pipeline.task obj));
      first [discriminate Hc | left; reflexivity | right; reflexivity
            | destruct Hc; discriminate].
  - exact Hc.
Qed.

(** A pass of the engine's loop leaves the orchestrator alone. *)
Lemma engine_loop_orchestrator (sl : sleep_result) (jitter : Q)
    (c : OpenDSS.Circuit) (s : System.t) :
  System.orchestrator (System.engine_loop sl jitter c s) = System.orchestrator s.
Proof.
  unfold System.engine_loop.
  destruct (Engine._simulation_task (System.engine s)) as [lt |]; [| reflexivity].
  destruct (Engine.real_data lt).
  - destruct (Engine.real_data_loop_iteration System.no_observer sl c
                (System.engine s) (System.adapter s)) as [[e l] b]. reflexivity.
  - destruct (Engine.simulation_loop_iteration System.no_observer sl
                (Engine.total_hours lt) jitter c (System.engine s)
                (System.adapter s)) as [[[e d] l] b]. reflexivity.
Qed.

Lemma heap_coherent_exec (a : System.action) (s : System.t) :
  heap_coherent s -> heap_coherent (System.exec a s).
Proof.
  unfold heap_coherent. intros Hinv.
  destruct a as [compiled hours speed mode | | | | jitter c | sl jitter c
                | task_id start_date end_date | task_id | r env]; cbn [System.exec].
  - unfold System.engine_start.
    destruct (Engine.start compiled hours speed mode (System.engine s)
                (System.adapter s)) as [[e d] resp]. exact Hinv.
  - exact Hinv.
  - exact Hinv.
  - exact Hinv.
  - rewrite engine_loop_orchestrator. exact Hinv.
  - rewrite engine_loop_orchestrator. exact Hinv.
  - unfold System.batch_start, Pipeline.start_simulation.
    destruct (Pipeline.is_busy (System.orchestrator s)); [exact Hinv |].
    cbn. apply Forall_app. split; [exact Hinv |].
    apply Forall_cons. split; [reflexivity | apply Forall_nil; exact I].
  - unfold Pipeline.cancel_task.
    destruct (Pipeline._tasks (Pipeline.service (System.orchestrator s)) !! task_id)
      as [r |]; [| exact Hinv].
    destruct (Pipeline.heap (System.orchestrator s) !! r) as [obj |] eqn:Hobj;
      [| exact Hinv].
    destruct (decide (SimulationTask.status (Pipeline.task obj) = running))
      as [Hrun | _]; [| exact Hinv].
    cbn. apply Forall_insert; [exact Hinv |].
    pose proof (Forall_lookup_1 _ _ _ _ Hinv Hobj) as Hc.
    unfold coherent in *. cbn. rewrite Hrun in Hc. exact Hc.
  - unfold Pipeline.resume_task.
    destruct (Pipeline.heap (System.orchestrator s) !! r) as [obj |] eqn:Hobj;
      [| exact Hinv].
    pose proof (coherent_step env obj (System.adapter s)
                  (Forall_lookup_1 _ _ _ _ Hinv Hobj)) as Hc.
    destruct (Pipeline.run_task_step env obj (System.adapter s)) as [obj' d'].
    cbn. apply Forall_insert; [exact Hinv | exact Hc].
Qed.

Lemma heap_coherent_run (acts : list System.action) : forall s,
  heap_coherent s -> heap_coherent (System.run acts s).
Proof.
  induction acts as [| a acts IH]; intros s Hinv; [exact Hinv |].
  cbn. apply IH, heap_coherent_exec, Hinv.
Qed.

Lemma reachable_heap_coherent (s : System.t) :
  System.reachable s -> heap_coherent s.
Proof.
  intros [acts ->]. apply heap_coherent_run. apply Forall_nil. exact I.
Qed.



(** ** Fan-out *)

(** C8, as the claim has it, fails.  One observer is connected and every
    send to it raises.  The engine fans a snapshot out: the send fails
    inside the callback of the observer, which returns normally, so the
    observer stays subscribed and registered, and the next snapshot is
    sent to it again. *)
Lemma failed_snapshot_delivery_keeps_observer :
  let broken := fun _ : websocket => true in
  let raises := fun _ : nat => false in
  let s0 := Hub.connect 1 Hub.init in
  let s1 := fst (Hub.engine_broadcast broken raises (sample_state 0) s0) in
  let log1 := snd (Hub.engine_broadcast broken raises (sample_state 0) s0) in
  let log2 := snd (Hub.engine_broadcast broken raises (sample_state (1 # 4)) s1) in
  map (fun d => (dl_to d, dl_ok d)) log1 = [(1, false)] /\
  elements (Engine._subscribers (Hub.engine s1)) = [WsCallback 1] /\
  elements (Hub.active_connections (Hub.manager s1)) = [1] /\
  map (fun d => (dl_to d, dl_ok d)) log2 = [(1, false)].
Proof. vm_compute. repeat split. Qed.

Section FanOut.
Variable broken : websocket -> bool.

Lemma hub_broadcast_loop_spec (msg : event) (conns : list websocket) :
  forall (disc : gset websocket) (log : list delivery),
    (forall x, x ∈ fst (Hub.broadcast_loop broken conns msg disc log)
               <-> x ∈ disc \/ (x ∈ conns /\ broken x = true)) /\
    snd (Hub.broadcast_loop broken conns msg disc log)
      = log ++ map (fun c => Hub.send_json broken c msg) conns.
Proof.
  induction conns as [| c conns IH]; intros disc log; cbn [Hub.broadcast_loop].
  - split.
    + intros x. cbn. rewrite elem_of_nil. tauto.
    + cbn. rewrite app_nil_r. reflexivity.
  - destruct (IH (if broken c then {[c]} ∪ disc else disc)
                 (log ++ [Hub.send_json broken c msg])) as [Hmem Hlog].
    split.
    + intros x. rewrite Hmem, elem_of_cons.
      destruct (broken c) eqn:Hc.
      * rewrite elem_of_union, elem_of_singleton.
        intuition (subst; auto).
      * intuition (subst; auto; congruence).
    + rewrite Hlog, <- app_assoc. reflexivity.
Qed.

Lemma hub_broadcast_spec (msg : event) (m : Hub.ConnectionManager) :
  (forall ws, ws ∈ Hub.active_connections (fst (Hub.broadcast broken msg m))
              <-> ws ∈ Hub.active_connections m /\ broken ws = false) /\
  snd (Hub.broadcast broken msg m)
    = map (fun c => Hub.send_json broken c msg) (elements (Hub.active_connections m)) /\
  Hub._callbacks (fst (Hub.broadcast broken msg m)) = Hub._callbacks m.
Proof.
  unfold Hub.broadcast.
  destruct (decide (Hub.active_connections m = ∅)) as [Hempty | Hne].
  - cbn. rewrite Hempty. rewrite elements_empty.
    split; [| split; reflexivity].
    intros ws. split.
    + intros Hin. exfalso. revert Hin. apply not_elem_of_empty.
    + intros [Hin _]. exact Hin.
  - destruct (hub_broadcast_loop_spec msg (elements (Hub.active_connections m)) ∅ [])
      as [Hmem Hlog].
    destruct (Hub.broadcast_loop broken (elements (Hub.active_connections m)) msg ∅ [])
      as [disc log].
    cbn in *. split; [| split; [exact Hlog | reflexivity]].
    intros ws. rewrite elem_of_difference, Hmem, elem_of_elements.
    destruct (broken ws); split.
    + intros [Hin Hn]. exfalso. apply Hn. right. split; [exact Hin | reflexivity].
    + intros [_ Hf]. discriminate.
    + intros [Hin _]. split; [exact Hin | reflexivity].
    + intros [Hin _]. split; [exact Hin |].
      intros [Hd | [_ Hd]]; [| discriminate].
      revert Hd. apply not_elem_of_empty.
Qed.

Lemma engine_broadcast_loop_spec (invoke : callback -> GridState -> bool * list delivery)
    (st : GridState) (cbs : list callback) :
  forall (subs : gset callback) (log : list delivery) (x : callback),
    x ∈ fst (Engine.broadcast_loop invoke cbs st subs log)
    <-> x ∈ subs /\ ~ (x ∈ cbs /\ fst (invoke x st) = true).
Proof.
  induction cbs as [| cb cbs IH]; intros subs log x; cbn [Engine.broadcast_loop].
  - cbn. rewrite elem_of_nil. tauto.
  - destruct (invoke cb st) as [raised sent] eqn:Hcb.
    rewrite IH, elem_of_cons. destruct raised.
    + rewrite elem_of_difference, elem_of_singleton. split.
      * intros [[Hin Hne] Hn]. split; [exact Hin |].
        intros [[-> | Hc] Hr]; [contradiction | tauto].
      * intros [Hin Hn]. split; [split; [exact Hin |] |].
        -- intros ->. apply Hn. split; [left; reflexivity |]. rewrite Hcb. reflexivity.
        -- intros [Hc Hr]. apply Hn. split; [right; exact Hc | exact Hr].
    + split.
      * intros [Hin Hn]. split; [exact Hin |].
        intros [[-> | Hc] Hr]; [rewrite Hcb in Hr; discriminate | tauto].
      * intros [Hin Hn]. split; [exact Hin |].
        intros [Hc Hr]. apply Hn. split; [right; exact Hc | exact Hr].
Qed.

End FanOut.

(** C8, amended.  A hub broadcast sends to every active connection,
    failures or not, and only then removes from the active connections
    those whose send raised; a later hub broadcast sends to none of
    them, whatever the network does by then.  The engine discards from
    its subscribers a callable that raises while a snapshot is fanned
    out.  The callback that the hub installs for an observer never
    raises, its send failing or not, so the engine keeps it. *)
Theorem failed_observers_are_dropped_where_failure_shows
    (broken broken' : websocket -> bool) (raises : nat -> bool)
    (msg msg' : event) (m : Hub.ConnectionManager)
    (st : GridState) (e : Engine.SimulationService) :
  let m' := fst (Hub.broadcast broken msg m) in
  let e' := fst (Engine._broadcast_state (Hub.invoke broken raises) st e) in
  map dl_to (snd (Hub.broadcast broken msg m)) = elements (Hub.active_connections m) /\
  (forall ws, ws ∈ Hub.active_connections m' <->
              ws ∈ Hub.active_connections m /\ broken ws = false) /\
  (forall d, d ∈ snd (Hub.broadcast broken' msg' m') ->
             dl_to d ∈ Hub.active_connections m /\ broken (dl_to d) = false) /\
  (forall i, PlainCallback i ∈ Engine._subscribers e' <->
             PlainCallback i ∈ Engine._subscribers e /\ raises i = false) /\
  (forall ws, WsCallback ws ∈ Engine._subscribers e' <->
              WsCallback ws ∈ Engine._subscribers e).
Proof.
  intros m' e'.
  destruct (hub_broadcast_spec broken msg m) as (Hmem & Hlog & _).
  destruct (hub_broadcast_spec broken' msg' m') as (_ & Hlog' & _).
  fold m' in Hmem.
  assert (He : forall x, x ∈ Engine._subscribers e' <->
               x ∈ Engine._subscribers e /\ fst (Hub.invoke broken raises x st) = false).
  { intros x. subst e'. unfold Engine._broadcast_state.
    pose proof (engine_broadcast_loop_spec (Hub.invoke broken raises) st
                  (elements (Engine._subscribers e)) (Engine._subscribers e) [] x) as H.
    destruct (Engine.broadcast_loop (Hub.invoke broken raises)
                (elements (Engine._subscribers e)) st (Engine._subscribers e) [])
      as [subs log].
    cbn in *. rewrite H, elem_of_elements.
    destruct (Hub.invoke broken raises x st).1; split.
    - intros [Hin Hn]. exfalso. apply Hn. split; [exact Hin | reflexivity].
    - intros [_ Hf]. discriminate.
    - intros [Hin _]. split; [exact Hin | reflexivity].
    - intros [Hin _]. split; [exact Hin |]. intros [_ Hf]. discriminate. }
  split; [| split; [exact Hmem | split; [| split]]].
  - rewrite Hlog, map_map. cbn. apply map_id.
  - intros d Hd. rewrite Hlog' in Hd.
    apply list_elem_of_fmap in Hd as (c & -> & Hc).
    apply elem_of_elements in Hc. cbn. apply Hmem. exact Hc.
  - intros i. rewrite He. cbn. reflexivity.
  - intros ws. rewrite He. cbn. tauto.
Qed.


Lemma failed_observers_are_dropped_where_failure_shows_witness :
  let broken := fun ws : websocket => Nat.eqb ws 2 in
  let raises := fun _ : nat => false in
  let m := Hub.manager (Hub.connect 2 (Hub.connect 1 Hub.init)) in
  let m' := fst (Hub.broadcast broken pong m) in
  let d := {| dl_to := 1; dl_event := pong; dl_ok := true |} in
  d ∈ snd (Hub.broadcast broken pong m') /\
  dl_to d ∈ Hub.active_connections m /\ broken (dl_to d) = false.
Proof.
  intros broken raises m m' d.
  assert (Hd : d ∈ snd (Hub.broadcast broken pong m')).
  { vm_compute. constructor. }
  split; [exact Hd |].
  exact (proj1 (proj2 (proj2
           (failed_observers_are_dropped_where_failure_shows broken broken raises
              pong pong m (sample_state 0) Engine.init))) d Hd).
Defined.

(** The removal made by a hub broadcast touches the active connections
    only: the callback of the observer stays subscribed to the engine, and
    the next snapshot is still sent to it. *)
Lemma hub_removal_leaves_engine_subscription :
  let broken := fun _ : websocket => true in
  let raises := fun _ : nat => false in
  let s0 := Hub.connect 1 Hub.init in
  let s1 := fst (Hub._broadcast_status broken s0) in
  elements (Hub.active_connections (Hub.manager s1)) = [] /\
  elements (Engine._subscribers (Hub.engine s1)) = [WsCallback 1] /\
  map dl_to (snd (Hub.engine_broadcast broken raises (sample_state 0) s1)) = [1].
Proof. vm_compute. repeat split. Qed.

(** ** The duplex channel *)

Section Channel.
Variable broken : websocket -> bool.
Variable engine_action :
  websocket -> string -> json -> Hub.Server -> Hub.Server * list delivery.

(** C9, amended.  The action is matched after [lower()].  For a message
    that is a JSON object whose action is a string, or is absent, and
    whose lower-cased action is not one of the known ones, the server
    sends back an error event that names the lower-cased action; for a
    text frame that [json.loads] rejects with [JSONDecodeError] it sends
    back "Invalid JSON message".  In both cases nothing else is sent, no
    state changes (so a registered connection stays registered with its
    callback), and the receive loop goes on.  A frame on which
    [receive_json] raises anything else (a binary frame, a text nested
    too deep, an integer literal of more than 4300 digits) gets no
    reply: the observer is disconnected and the receive loop ends. *)
Theorem unknown_or_malformed_message_gets_error_reply
    (ws : websocket) (s : Hub.Server) (fields : list (string * json)) (a : string) :
  default (JString "") (fields_get "action" fields) = JString a ->
  lower a ∉ Hub.known_actions ->
  Hub.endpoint_iteration broken engine_action ws (Hub.Json (JObject fields)) s
    = (s, [Hub.send_json broken ws (error_event ("Unknown action: " +:+ lower a))],
       true) /\
  Hub.endpoint_iteration broken engine_action ws Hub.Malformed s
    = (s, [Hub.send_json broken ws (error_event "Invalid JSON message")], true) /\
  (forall exc,
     Hub.endpoint_iteration broken engine_action ws (Hub.Failed exc) s
     = (Hub.disconnect ws s, [], false)).
Proof.
  intros Ha Hunknown. split; [| split; [reflexivity | intros exc; reflexivity]].
  unfold Hub.endpoint_iteration, Hub.handle_client_message.
  cbn [json_get mbind outcome_bind]. rewrite Ha.
  cbn [json_lower mbind outcome_bind].
  destruct (String.eqb_spec (lower a) "ping") as [Hping | _].
  - exfalso. apply Hunknown. rewrite Hping. unfold Hub.known_actions. left.
  - rewrite bool_decide_eq_false_2 by exact Hunknown. reflexivity.
Qed.
End Channel.

(** C9, as the claim has it, fails.  "PING" is not one of the known
    action names, and the server answers it with pong, not with an error
    event. *)
Lemma uppercase_ping_is_answered_with_pong :
  let broken := fun _ : websocket => false in
  let engine_action :=
    fun (_ : websocket) (_ : string) (_ : json) (s : Hub.Server) => (s, []) in
  let s := Hub.connect 1 Hub.init in
  ("PING" ∉ Hub.known_actions) /\
  Hub.endpoint_iteration broken engine_action 1
    (Hub.Json (JObject [("action", JString "PING")])) s
  = (s, [{| dl_to := 1; dl_event := pong; dl_ok := true |}], true).
Proof.
  intros broken engine_action s. split; [| reflexivity].
  apply (bool_decide_unpack _). vm_compute. exact I.
Qed.

(** A frame that is not a text frame is not answered with a parse-error
    event either: [receive_json] raises [KeyError], which is no
    [JSONDecodeError]; the endpoint disconnects the observer and leaves
    its loop. *)
Lemma binary_frame_ends_the_connection :
  let broken := fun _ : websocket => false in
  let engine_action :=
    fun (_ : websocket) (_ : string) (_ : json) (s : Hub.Server) => (s, []) in
  let s := Hub.connect 1 Hub.init in
  Hub.endpoint_iteration broken engine_action 1 (Hub.Failed "'text'") s
  = (Hub.disconnect 1 s, [], false) /\
  elements (Hub.active_connections (Hub.manager s)) = [1] /\
  elements (Hub.active_connections (Hub.manager (Hub.disconnect 1 s))) = [].
Proof. split; [reflexivity | split; vm_compute; reflexivity]. Qed.

(** The action is lower-cased as [str.lower] does it, accented capitals
    included. *)
Lemma accented_action_is_named_in_lower_case :
  let broken := fun _ : websocket => false in
  let engine_action :=
    fun (_ : websocket) (_ : string) (_ : json) (s : Hub.Server) => (s, []) in
  let s := Hub.connect 1 Hub.init in
  let a := String (ascii_of_nat 192) "B" in
  lower a = String (ascii_of_nat 224) "b" /\
  Hub.endpoint_iteration broken engine_action 1
    (Hub.Json (JObject [("action", JString a)])) s
  = (s, [{| dl_to := 1;
            dl_event := error_event ("Unknown action: " +:+ String (ascii_of_nat 224) "b");
            dl_ok := true |}], true).
Proof. split; reflexivity. Qed.

(** A message whose action is not a string raises before the [try] of
    [handle_client_message]; the endpoint then disconnects the observer
    and leaves its loop. *)
Lemma non_string_action_ends_the_connection :
  let broken := fun _ : websocket => false in
  let engine_action :=
    fun (_ : websocket) (_ : string) (_ : json) (s : Hub.Server) => (s, []) in
  let s := Hub.connect 1 Hub.init in
  Hub.endpoint_iteration broken engine_action 1
    (Hub.Json (JObject [("action", JNumber 5)])) s
  = (Hub.disconnect 1 s, [], false) /\
  elements (Hub.active_connections (Hub.manager (Hub.disconnect 1 s))) = [].
Proof. split; [reflexivity | vm_compute; reflexivity]. Qed.

Lemma unknown_or_malformed_message_gets_error_reply_witness :
  let broken := fun _ : websocket => false in
  let engine_action :=
    fun (_ : websocket) (_ : string) (_ : json) (s : Hub.Server) => (s, []) in
  let s := Hub.connect 1 Hub.init in
  default (JString "") (fields_get "action" [("action", JString "Reboot")])
    = JString "Reboot" /\
  (lower "Reboot" ∉ Hub.known_actions) /\
  Hub.endpoint_iteration broken engine_action 1
    (Hub.Json (JObject [("action", JString "Reboot")])) s
  = (s, [{| dl_to := 1; dl_event := error_event "Unknown action: reboot";
            dl_ok := true |}], true).
Proof.
  intros broken engine_action s.
  assert (Hu : lower "Reboot" ∉ Hub.known_actions).
  { apply (bool_decide_unpack _). vm_compute. exact I. }
  split; [reflexivity |]. split; [exact Hu |].
  exact (proj1 (unknown_or_malformed_message_gets_error_reply broken engine_action
                  1 s [("action", JString "Reboot")] "Reboot" eq_refl Hu)).
Defined.

(** * Further properties *)

(** ** The engine: stepping *)

Section EngineStepping.
Variable invoke : callback -> GridState -> bool * list delivery.

Lemma engine_broadcast_log (st : GridState) (cbs : list callback) :
  forall (subs : gset callback) (log : list delivery),
    snd (Engine.broadcast_loop invoke cbs st subs log)
    = log ++ concat (map (fun cb => snd (invoke cb st)) cbs).
Proof.
  induction cbs as [| cb cbs IH]; intros subs log; cbn [Engine.broadcast_loop].
  - cbn. rewrite app_nil_r. reflexivity.
  - destruct (invoke cb st) as [raised sent] eqn:Hcb.
    rewrite IH. cbn. rewrite Hcb. cbn. rewrite <- app_assoc. reflexivity.
Qed.

(** A fan-out changes the subscriber set only. *)
Lemma broadcast_state_frame (st : GridState) (e : Engine.SimulationService) :
  let e' := fst (Engine._broadcast_state invoke st e) in
  Engine._running e' = Engine._running e /\
  Engine._paused e' = Engine._paused e /\
  Engine._current_state e' = Engine._current_state e /\
  Engine._history e' = Engine._history e /\
  Engine._max_history_length e' = Engine._max_history_length e /\
  Engine._current_hour e' = Engine._current_hour e /\
  Engine._step_minutes e' = Engine._step_minutes e /\
  Engine._simulation_speed e' = Engine._simulation_speed e /\
  Engine._simulation_task e' = Engine._simulation_task e /\
  Engine._mode e' = Engine._mode e /\
  snd (Engine._broadcast_state invoke st e)
    = concat (map (fun cb => snd (invoke cb st)) (elements (Engine._subscribers e))).
Proof.
  unfold Engine._broadcast_state.
  pose proof (engine_broadcast_log st (elements (Engine._subscribers e))
                (Engine._subscribers e) []) as Hlog.
  destruct (Engine.broadcast_loop invoke (elements (Engine._subscribers e)) st
              (Engine._subscribers e) []) as [subs log].
  cbn in *. repeat split. exact Hlog.
Qed.

(** The body of the profile-driven step on a loaded adapter. *)
Lemma synthetic_body_ok (jitter : Q) (c : OpenDSS.Circuit)
    (e : Engine.SimulationService) (d : OpenDSS.OpenDSSService) :
  OpenDSS._model_loaded d = true ->
  exists e' d' log st,
    Engine.synthetic_body invoke jitter c e d = Ok (e', d', log, st) /\
    OpenDSS._model_loaded d' = true /\
    Engine._running e' = Engine._running e /\
    Engine._paused e' = Engine._paused e /\
    Engine._step_minutes e' = Engine._step_minutes e /\
    Engine._max_history_length e' = Engine._max_history_length e /\
    Engine._simulation_speed e' = Engine._simulation_speed e /\
    Engine._current_hour e' = Engine._current_hour e /\
    Engine._current_state e' = Some st /\
    timestamp st = Engine._current_hour e /\
    Engine._history e'
      = Engine.history_append (Engine._max_history_length e) (Engine.summary st)
          (Engine._history e) /\
    log = concat (map (fun cb => snd (invoke cb st)) (elements (Engine._subscribers e))).
Proof.
  intros Hl. unfold Engine.synthetic_body, OpenDSS.set_load_multiplier,
    OpenDSS.set_generation_multiplier, OpenDSS.get_grid_state.
  rewrite Hl. cbn [negb mbind outcome_bind OpenDSS._model_loaded].
  match goal with
  | |- context [Engine._broadcast_state invoke ?st ?e1] =>
      pose proof (broadcast_state_frame st e1) as Hb;
      destruct (Engine._broadcast_state invoke st e1) as [e2 log]
  end.
  cbn in Hb.
  destruct Hb as (H1 & H2 & H3 & H4 & H5 & H6 & H7 & H8 & H9 & H10 & H11).
  do 4 eexists. split; [reflexivity |]. cbn.
  repeat split; assumption.
Qed.

(** The profile-driven step on a loaded adapter. *)
Lemma synthetic_step_ok (jitter : Q) (c : OpenDSS.Circuit)
    (e : Engine.SimulationService) (d : OpenDSS.OpenDSSService) :
  OpenDSS._model_loaded d = true ->
  exists e' d' log st,
    Engine.synthetic_step invoke jitter c e d = Ok (e', d', log, st) /\
    OpenDSS._model_loaded d' = true /\
    Engine._running e' = Engine._running e /\
    Engine._paused e' = Engine._paused e /\
    Engine._step_minutes e' = Engine._step_minutes e /\
    Engine._max_history_length e' = Engine._max_history_length e /\
    Engine._simulation_speed e' = Engine._simulation_speed e /\
    Engine._current_hour e' = Engine.next_hour e /\
    Engine._current_state e' = Some st /\
    timestamp st = Engine._current_hour e /\
    Engine._history e'
      = Engine.history_append (Engine._max_history_length e) (Engine.summary st)
          (Engine._history e) /\
    log = concat (map (fun cb => snd (invoke cb st)) (elements (Engine._subscribers e))).
Proof.
  intros Hl.
  destruct (synthetic_body_ok jitter c e d Hl)
    as (e2 & d' & log & st & Hbody & Hl' & Hr & Hp & Hm & Hcap & Hsp & Hh & Hcs & Hts
        & Hhist & Hlog).
  unfold Engine.synthetic_step. rewrite Hbody. cbn [mbind outcome_bind].
  do 4 eexists. split; [reflexivity |].
  unfold Engine.advance, Engine.next_hour. cbn. rewrite Hh, Hm.
  repeat split; assumption.
Qed.
End EngineStepping.

(** X1.  A manual [step] works whatever the run state.  When the grid
    model is loaded, or loads, it returns the snapshot stamped with the
    clock, records that snapshot's summary in the history (as a new last
    entry while the history is below its capacity), sends it to every
    subscriber once, advances the clock by one step and leaves the running
    and paused flags alone.  When the model is not loaded and does not
    load, it fails with "Failed to load model" and changes nothing in the
    engine. *)
Theorem step_records_and_advances
    (invoke : callback -> GridState -> bool * list delivery)
    (compiled : option string) (jitter : Q) (c : OpenDSS.Circuit)
    (e : Engine.SimulationService) (d : OpenDSS.OpenDSSService) :
  (OpenDSS._model_loaded d = true \/ is_Some compiled ->
   exists e' d' st,
     Engine.step invoke compiled jitter c e d
       = Ok (e', d',
             concat (map (fun cb => snd (invoke cb st))
                       (elements (Engine._subscribers e))),
             {| success := true; error := None; message := None;
                speed := None; state := Some st |}) /\
     timestamp st = Engine._current_hour e /\
     Engine._current_state e' = Some st /\
     Engine._running e' = Engine._running e /\
     Engine._paused e' = Engine._paused e /\
     Engine._current_hour e' = Engine.next_hour e /\
     Engine._history e'
       = Engine.history_append (Engine._max_history_length e) (Engine.summary st)
           (Engine._history e) /\
     (length (Engine._history e) < Engine._max_history_length e ->
      Engine._history e' = Engine._history e ++ [Engine.summary st])) /\
  (OpenDSS._model_loaded d = false -> compiled = None ->
   Engine.step invoke compiled jitter c e d
     = Ok (e, d, [], failure "Failed to load model")).
Proof.
  split.
  - intros Hload. unfold Engine.step, OpenDSS.is_loaded.
    assert (Hd : exists d1,
      (if negb (OpenDSS._model_loaded d)
       then let '(d', ok) := OpenDSS.load_model compiled d in (d', negb ok)
       else (d, false)) = (d1, false) /\ OpenDSS._model_loaded d1 = true).
    { destruct (OpenDSS._model_loaded d) eqn:Hl; cbn.
      - exists d. split; [reflexivity | exact Hl].
      - destruct Hload as [Hf | [name ->]]; [discriminate |].
        cbn. eexists. split; reflexivity. }
    destruct Hd as (d1 & -> & Hl1).
    destruct (synthetic_step_ok invoke jitter c e d1 Hl1)
      as (e' & d' & log & st & Hstep & _ & Hr & Hp & _ & _ & _ & Hh & Hcs & Hts & Hhist & Hlog).
    rewrite Hstep. cbn [mbind outcome_bind]. subst log.
    exists e', d', st. split; [reflexivity |].
    repeat split; try assumption.
    intros Hlt. rewrite Hhist. unfold Engine.history_append.
    destruct (Nat.ltb_spec (Engine._max_history_length e)
                (length (Engine._history e ++ [Engine.summary st]))) as [Hgt | _];
      [| reflexivity].
    rewrite length_app in Hgt. cbn in Hgt. lia.
  - intros Hl ->. unfold Engine.step, OpenDSS.is_loaded. rewrite Hl. cbn.
    destruct d as [l n m]. cbn in Hl. subst l. reflexivity.
Qed.

Lemma step_records_and_advances_witness :
  let e := running_engine in
  let d := snd (fst (Engine.start (Some "grid") 24 1 "synthetic"
                       Engine.init OpenDSS.init)) in
  OpenDSS._model_loaded d = true /\
  length (Engine._history e) < Engine._max_history_length e /\
  (exists e' d' st,
     Engine.step System.no_observer None (1 # 100) sample_circuit e d
       = Ok (e', d', [],
             {| success := true; error := None; message := None;
                speed := None; state := Some st |}) /\
     Engine._history e' = [Engine.summary st] /\
     Engine._running e' = true) /\
  Engine.step System.no_observer None (1 # 100) sample_circuit Engine.init OpenDSS.init
    = Ok (Engine.init, OpenDSS.init, [], failure "Failed to load model").
Proof.
  intros e d.
  pose proof (step_records_and_advances System.no_observer None (1 # 100)
                sample_circuit e d) as [Hok _].
  pose proof (step_records_and_advances System.no_observer None (1 # 100)
                sample_circuit Engine.init OpenDSS.init) as [_ Hfail].
  split; [reflexivity |]. split; [cbn; lia |]. split.
  - destruct (Hok (or_introl eq_refl))
      as (e' & d' & st & Hstep & _ & _ & Hr & _ & _ & _ & Happ).
    exists e', d', st. split; [exact Hstep |]. split.
    + exact (Happ ltac:(cbn; lia)).
    + rewrite Hr. reflexivity.
  - exact (Hfail eq_refl eq_refl).
Defined.

(** ** The engine: the loop *)

Section EngineLoopRun.
Variable invoke : callback -> GridState -> bool * list delivery.
Variable hours : Z.
Variable jitter_at : nat -> Q.
Variable circuit_at : nat -> OpenDSS.Circuit.
Variable nan_sleep_at : nat -> sleep_result.







End EngineLoopRun.




(** ** The engine: the daily profiles *)

Lemma Qlt_bool_spec (a b : Q) :
  BoolSpec (a < b)%Q (b <= a)%Q (Engine.Qlt_bool a b).
Proof.
  unfold Engine.Qlt_bool.
  destruct (Qle_bool b a) eqn:H; cbn; constructor.
  - apply Qle_bool_iff. exact H.
  - apply Qnot_le_lt. intros Hle. apply Qle_bool_iff in Hle. congruence.
Qed.

Lemma Qle_bool_spec (a b : Q) :
  BoolSpec (a <= b)%Q (b < a)%Q (Qle_bool a b).
Proof.
  destruct (Qle_bool a b) eqn:H; constructor.
  - apply Qle_bool_iff. exact H.
  - apply Qnot_le_lt. intros Hle. apply Qle_bool_iff in Hle. congruence.
Qed.

Lemma hour_of_day_range (x : Q) :
  (0 <= Engine.hour_of_day x)%Q /\ (Engine.hour_of_day x < 24)%Q.
Proof.
  unfold Engine.hour_of_day.
  pose proof (Qfloor_le (x / 24)) as Hlo.
  pose proof (Qlt_floor (x / 24)) as Hhi.
  rewrite inject_Z_plus in Hhi. change (inject_Z 1) with 1%Q in Hhi.
  assert (Hx : (x == 24 * (x / 24))%Q) by (field).
  set (q := (x / 24)%Q) in *. set (f := inject_Z (Qfloor q)) in *.
  split; lra.
Qed.

Lemma product_bounds (b v lo hi : Q) :
  (0 <= lo)%Q -> (lo <= b)%Q -> (b <= hi)%Q ->
  (97 # 100 <= v)%Q -> (v <= 103 # 100)%Q ->
  (lo * (97 # 100) <= b * v)%Q /\ (b * v <= hi * (103 # 100))%Q.
Proof. intros. split; nra. Qed.

(** X3.  The clock is reduced to an hour of the day in [0, 24).  For a
    jitter within 3 percent, the load multiplier of any hour of the day
    lies between 0.485 and 1.03; it is within 3 percent of 1 in the peak
    hours 18:00 to 22:00 and within 3 percent of 0.5 before 06:00 and
    from 22:00 on. *)
Theorem load_profile_bounds (clock jitter : Q) :
  (- (3 # 100) <= jitter)%Q -> (jitter <= 3 # 100)%Q ->
  let hour := Engine.hour_of_day clock in
  let mult := Engine._get_load_profile hour jitter in
  (0 <= hour)%Q /\ (hour < 24)%Q /\
  (485 # 1000 <= mult)%Q /\ (mult <= 103 # 100)%Q /\
  ((18 <= hour)%Q -> (hour < 22)%Q ->
   (97 # 100 <= mult)%Q /\ (mult <= 103 # 100)%Q) /\
  ((hour < 6)%Q \/ (22 <= hour)%Q ->
   (485 # 1000 <= mult)%Q /\ (mult <= 515 # 1000)%Q).
Proof.
  intros Hlo Hhi hour mult.
  destruct (hour_of_day_range clock) as [H0 H24]. fold hour in H0, H24.
  split; [exact H0 |]. split; [exact H24 |].
  subst mult. unfold Engine._get_load_profile.
  set (v := (1 + jitter)%Q).
  assert (Hv1 : (97 # 100 <= v)%Q) by (unfold v; lra).
  assert (Hv2 : (v <= 103 # 100)%Q) by (unfold v; lra).
  clearbody v.
  set (ramp := ((7 # 10) + (2 # 10) * (hour - 6) / 12)%Q).
  assert (Hramp : (6 <= hour)%Q -> (hour < 18)%Q ->
                  (7 # 10 <= ramp)%Q /\ (ramp <= 9 # 10)%Q).
  { intros H6 H18.
    assert (Hr : (ramp == (7 # 10) + (hour - 6) * (1 # 60))%Q)
      by (unfold ramp; field).
    rewrite Hr. split; lra. }
  clearbody ramp.
  destruct (Qle_bool_spec 18 hour) as [H18 | H18];
    destruct (Qlt_bool_spec hour 22) as [H22 | H22]; cbn [andb orb].
  - repeat split; intros; nra.
  - destruct (Qle_bool_spec 6 hour) as [H6 | H6];
      destruct (Qlt_bool_spec hour 18) as [H18' | H18']; cbn [andb orb];
      try lra.
    destruct (Qle_bool_spec 22 hour) as [H22' | H22']; cbn [andb orb]; [| lra].
    repeat split; intros; nra.
  - destruct (Qle_bool_spec 6 hour) as [H6 | H6];
      destruct (Qlt_bool_spec hour 18) as [H18' | H18']; cbn [andb orb];
      try lra.
    + destruct (Hramp H6 H18') as [Hr1 Hr2].
      repeat split; intros; try nra; lra.
    + destruct (Qle_bool_spec 22 hour) as [H22' | H22'];
        destruct (Qlt_bool_spec hour 6) as [H6' | H6']; cbn [andb orb]; try lra;
        repeat split; intros; nra.
  - lra.
Qed.

Lemma load_profile_bounds_witness :
  let clock := (77 # 4)%Q in
  let jitter := (1 # 100)%Q in
  (- (3 # 100) <= jitter)%Q /\ (jitter <= 3 # 100)%Q /\
  (18 <= Engine.hour_of_day clock)%Q /\ (Engine.hour_of_day clock < 22)%Q /\
  (97 # 100 <= Engine._get_load_profile (Engine.hour_of_day clock) jitter)%Q /\
  (Engine._get_load_profile (Engine.hour_of_day clock) jitter <= 103 # 100)%Q.
Proof.
  intros clock jitter.
  assert (H1 : (- (3 # 100) <= jitter)%Q) by (vm_compute; discriminate).
  assert (H2 : (jitter <= 3 # 100)%Q) by (vm_compute; discriminate).
  assert (H3 : (18 <= Engine.hour_of_day clock)%Q) by (vm_compute; discriminate).
  assert (H4 : (Engine.hour_of_day clock < 22)%Q) by (vm_compute; reflexivity).
  split; [exact H1 |]. split; [exact H2 |]. split; [exact H3 |]. split; [exact H4 |].
  exact (proj1 (proj2 (proj2 (proj2 (proj2
           (load_profile_bounds clock jitter H1 H2))))) H3 H4).
Defined.

Lemma py_max_spec (a b : Q) :
  (a <= EngineLoop.py_max a b)%Q /\ (b <= EngineLoop.py_max a b)%Q /\
  (EngineLoop.py_max a b = a \/ EngineLoop.py_max a b = b).
Proof.
  unfold EngineLoop.py_max. destruct (Qlt_bool_spec a b); repeat split; auto; lra.
Qed.

Lemma py_min_spec (a b : Q) :
  (EngineLoop.py_min a b <= a)%Q /\ (EngineLoop.py_min a b <= b)%Q /\
  (EngineLoop.py_min a b = a \/ EngineLoop.py_min a b = b).
Proof.
  unfold EngineLoop.py_min. destruct (Qlt_bool_spec b a); repeat split; auto; lra.
Qed.

(** X4.  Whatever the sine and for a jitter within 5 percent, the solar
    multiplier lies between 0 and 0.105; it is 0 before 06:00, after
    18:00 and whenever the sine is not positive; and while the sine is at
    least 0.1 it is 0.1 times the variation: the cap, not the bell curve,
    sets it. *)
Theorem solar_profile_bounds (hour sine jitter : Q) :
  (- (5 # 100) <= jitter)%Q -> (jitter <= 5 # 100)%Q ->
  let mult := EngineLoop._get_solar_profile hour sine jitter in
  (0 <= mult)%Q /\ (mult <= 105 # 1000)%Q /\
  ((hour < 6)%Q \/ (18 < hour)%Q \/ (sine <= 0)%Q -> mult = 0%Q) /\
  ((6 <= hour)%Q -> (hour <= 18)%Q -> (1 # 10 <= sine)%Q ->
   (mult == (1 # 10) * (1 + jitter))%Q).
Proof.
  intros Hlo Hhi mult. subst mult. unfold EngineLoop._get_solar_profile.
  destruct (Qle_bool_spec 6 hour) as [H6 | H6];
    destruct (Qle_bool_spec hour 18) as [H18 | H18]; cbn [andb];
    try (repeat split; intros; try reflexivity; lra).
  unfold EngineLoop.MAX_SOLAR_FACTOR.
  destruct (py_max_spec 0 sine) as (Hm1 & Hm2 & Hm3).
  set (raw := EngineLoop.py_max 0 sine) in *.
  destruct (py_min_spec raw (1 # 10)) as (Hn1 & Hn2 & Hn3).
  set (base := EngineLoop.py_min raw (1 # 10)) in *.
  destruct (Qlt_bool_spec 0 base) as [Hpos | Hnpos].
  - destruct (py_max_spec 0 (base * (1 + jitter))) as (Hr1 & Hr2 & Hr3).
    set (res := EngineLoop.py_max 0 (base * (1 + jitter))) in *.
    split; [exact Hr1 |]. split; [| split].
    + destruct Hr3 as [-> | ->]; [lra | nra].
    + intros [H | [H | H]]; try lra.
      exfalso. destruct Hm3 as [Hm3 | Hm3]; rewrite Hm3 in *;
        destruct Hn3 as [Hn3 | Hn3]; rewrite Hn3 in *; lra.
    + intros _ _ Hs.
      assert (Hb : (base == 1 # 10)%Q).
      { destruct Hn3 as [Hn3 | Hn3]; [| rewrite Hn3; reflexivity].
        rewrite Hn3 in *. lra. }
      destruct Hr3 as [Hr3 | Hr3]; rewrite Hr3.
      * exfalso. rewrite Hr3 in Hr2. nra.
      * rewrite Hb. reflexivity.
  - repeat split; intros; try reflexivity; try lra.
    exfalso. destruct Hn3 as [Hn3 | Hn3]; rewrite Hn3 in *; lra.
Qed.

Lemma solar_profile_bounds_witness :
  let hour := 12%Q in
  let sine := 1%Q in
  let jitter := (2 # 100)%Q in
  (- (5 # 100) <= jitter)%Q /\ (jitter <= 5 # 100)%Q /\
  (6 <= hour)%Q /\ (hour <= 18)%Q /\ (1 # 10 <= sine)%Q /\
  (EngineLoop._get_solar_profile hour sine jitter == (1 # 10) * (1 + jitter))%Q /\
  EngineLoop._get_solar_profile 20 sine jitter = 0%Q.
Proof.
  intros hour sine jitter.
  assert (H1 : (- (5 # 100) <= jitter)%Q) by (vm_compute; discriminate).
  assert (H2 : (jitter <= 5 # 100)%Q) by (vm_compute; discriminate).
  assert (H3 : (6 <= hour)%Q) by (vm_compute; discriminate).
  assert (H4 : (hour <= 18)%Q) by (vm_compute; discriminate).
  assert (H5 : (1 # 10 <= sine)%Q) by (vm_compute; discriminate).
  assert (H6 : (18 < 20)%Q) by (vm_compute; reflexivity).
  split; [exact H1 |]. split; [exact H2 |]. split; [exact H3 |].
  split; [exact H4 |]. split; [exact H5 |]. split.
  - exact (proj2 (proj2 (proj2 (solar_profile_bounds hour sine jitter H1 H2))) H3 H4 H5).
  - exact (proj1 (proj2 (proj2 (solar_profile_bounds 20 sine jitter H1 H2)))
             (or_intror (or_introl H6))).
Defined.


(** ** The engine: controls *)

(** X5.  [get_history] always returns a block of the most recent
    entries, never anything else: for a positive limit the last [limit]
    entries (all of them when there are fewer), and for a negative limit
    [-k] everything but the first [k] entries. *)
Theorem get_history_by_sign (limit : Z) (e : Engine.SimulationService) :
  let h := Engine._history e in
  Engine.get_history limit e `suffix_of` h /\
  ((0 < limit)%Z ->
   Engine.get_history limit e = drop (length h - Z.to_nat limit) h /\
   length (Engine.get_history limit e) = Nat.min (Z.to_nat limit) (length h)) /\
  ((limit < 0)%Z ->
   Engine.get_history limit e = drop (Z.to_nat (- limit)) h /\
   length (Engine.get_history limit e) = length h - Z.to_nat (- limit)).
Proof.
  intros h. split; [| split].
  - unfold Engine.get_history, py_slice_from. apply suffix_drop.
  - intros Hpos. rewrite get_history_positive by exact Hpos. fold h.
    split; [reflexivity |]. rewrite length_drop. lia.
  - intros Hneg. unfold Engine.get_history, py_slice_from. fold h.
    destruct (Z.ltb_spec (- limit) 0) as [Hlt | _]; [lia |].
    destruct (Z.le_ge_cases (- limit) (Z.of_nat (length h))) as [Hle | Hge].
    + rewrite Z.min_l by exact Hle. split; [reflexivity |]. apply length_drop.
    + rewrite Z.min_r by exact Hge. rewrite Nat2Z.id.
      rewrite drop_all. rewrite drop_ge by lia. cbn. split; [reflexivity | lia].
Qed.

Lemma get_history_by_sign_witness :
  let e := record_all [sample_state 0; sample_state (1 # 4); sample_state (1 # 2)]
             Engine.init in
  (0 < 2)%Z /\ (-1 < 0)%Z /\
  Engine.get_history 2 e
    = [Engine.summary (sample_state (1 # 4)); Engine.summary (sample_state (1 # 2))] /\
  Engine.get_history (-1) e
    = [Engine.summary (sample_state (1 # 4)); Engine.summary (sample_state (1 # 2))].
Proof.
  intros e.
  split; [lia |]. split; [lia |]. split.
  - exact (proj1 (proj1 (proj2 (get_history_by_sign 2 e)) ltac:(lia))).
  - exact (proj1 (proj2 (proj2 (get_history_by_sign (-1) e)) ltac:(lia))).
Defined.

(** X6.  [stop] always succeeds and leaves the engine idle with its
    history, clock and subscribers as they were; stopping twice is the
    same as stopping once.  From a stopped engine a [start] on a loaded
    model always succeeds: it clears the history, resets the clock to 0,
    takes the given speed and mode, and keeps the subscribers. *)
Theorem stop_then_start (e : Engine.SimulationService) (d : OpenDSS.OpenDSSService)
    (compiled : option string) (hours : Z) (v : pyfloat) (mode : string) :
  let e1 := fst (Engine.stop e) in
  snd (Engine.stop e) = succeeded "Simulation stopped" /\
  Engine._running e1 = false /\ Engine._paused e1 = false /\
  Engine._simulation_task e1 = None /\
  Engine._history e1 = Engine._history e /\
  Engine._current_hour e1 = Engine._current_hour e /\
  Engine._subscribers e1 = Engine._subscribers e /\
  Engine.stop e1 = Engine.stop e /\
  (OpenDSS._model_loaded d = true ->
   exists e2 m,
     Engine.start compiled hours v mode e1 d
       = (e2, d, {| success := true; error := None; message := Some m;
                    speed := Some v; state := None |}) /\
     Engine._running e2 = true /\ Engine._paused e2 = false /\
     Engine._history e2 = [] /\ Engine._current_hour e2 = 0%Q /\
     Engine._simulation_speed e2 = v /\ Engine._mode e2 = mode /\
     Engine._subscribers e2 = Engine._subscribers e /\
     Engine._max_history_length e2 = Engine._max_history_length e).
Proof.
  intros e1. repeat split.
  intros Hl. unfold Engine.start, OpenDSS.is_loaded. rewrite Hl. cbn.
  do 2 eexists. split; [reflexivity |]. repeat split.
Qed.

Lemma stop_then_start_witness :
  let d := snd (fst (Engine.start (Some "grid") 24 1 "synthetic"
                       Engine.init OpenDSS.init)) in
  let e1 := fst (Engine.stop running_engine) in
  OpenDSS._model_loaded d = true /\
  exists e2 m,
    Engine.start None 12 2 "real_data" e1 d
      = (e2, d, {| success := true; error := None; message := Some m;
                   speed := Some (Finite 2); state := None |}) /\
    Engine._running e2 = true /\ Engine._history e2 = [].
Proof.
  intros d e1. split; [reflexivity |].
  destruct (proj2 (proj2 (proj2 (proj2 (proj2 (proj2 (proj2 (proj2
             (stop_then_start running_engine d None 12 2 "real_data"))))))))
             eq_refl) as (e2 & m & Hs & Hr & _ & Hh & _).
  exists e2, m. split; [exact Hs |]. split; [exact Hr | exact Hh].
Defined.




(** ** The orchestrator: cancelling *)

(** X8.  [cancel_task] succeeds exactly when the id is registered and its
    task is running.  When it fails, nothing changes.  When it succeeds,
    the task is marked cancelled with all its other fields as they were,
    and no other task object is touched. *)
Theorem cancel_task_effect (task_id : string) (o : Pipeline.Orchestrator) :
  let o' := fst (Pipeline.cancel_task task_id o) in
  (snd (Pipeline.cancel_task task_id o) = true <->
   exists t, Pipeline.get_task task_id o = Some t /\
             SimulationTask.status t = running) /\
  (snd (Pipeline.cancel_task task_id o) = false -> o' = o) /\
  (forall t,
     Pipeline.get_task task_id o = Some t ->
     SimulationTask.status t = running ->
     Pipeline.get_task task_id o' = Some (SimulationTask.with_status cancelled t) /\
     Pipeline._tasks (Pipeline.service o') = Pipeline._tasks (Pipeline.service o) /\
     forall r r',
       Pipeline._tasks (Pipeline.service o) !! task_id = Some r ->
       r' <> r -> Pipeline.heap o' !! r' = Pipeline.heap o !! r').
Proof.
  intros o'. subst o'. unfold Pipeline.cancel_task, Pipeline.get_task.
  destruct (Pipeline._tasks (Pipeline.service o) !! task_id) as [r |] eqn:Hr; cbn.
  2: { split; [| split]; [split; [discriminate | intros (t & Ht & _); discriminate]
                         | reflexivity | intros t Ht; discriminate]. }
  destruct (Pipeline.heap o !! r) as [obj |] eqn:Hobj; cbn.
  2: { split; [| split]; [split; [discriminate | intros (t & Ht & _); discriminate]
                         | reflexivity | intros t Ht; discriminate]. }
  destruct (decide (SimulationTask.status (Pipeline.task obj) = running))
    as [Hrun | Hnrun]; cbn.
  - split; [| split].
    + split; [intros _; exists (Pipeline.task obj); split; [reflexivity | exact Hrun]
             | reflexivity].
    + discriminate.
    + intros t [= <-] _. rewrite Hr. cbn.
      rewrite list_lookup_insert_eq by (eapply lookup_lt_Some, Hobj). cbn.
      split; [reflexivity |]. split; [reflexivity |].
      intros r0 r' [= <-] Hne. apply list_lookup_insert_ne. congruence.
  - split; [| split].
    + split; [discriminate | intros (t & [= <-] & Hst); contradiction].
    + reflexivity.
    + intros t [= <-] Hst. contradiction.
Qed.

Lemma cancel_task_effect_witness :
  let s := System.run [System.BatchStart "a1b2c3d4" 0 (Some 2%Z);
                       System.BatchResume 0 ok_day] System.init in
  let o := System.orchestrator s in
  SimulationTask.status <$> Pipeline.get_task "a1b2c3d4" o = Some running /\
  SimulationTask.status
    <$> Pipeline.get_task "a1b2c3d4" (fst (Pipeline.cancel_task "a1b2c3d4" o))
    = Some cancelled /\
  snd (Pipeline.cancel_task "nosuchid" o) = false /\
  fst (Pipeline.cancel_task "nosuchid" o) = o.
Proof.
  intros s o.
  eassert (Ht : Pipeline.get_task "a1b2c3d4" o = Some _) by (vm_compute; reflexivity).
  assert (Hf : snd (Pipeline.cancel_task "nosuchid" o) = false) by reflexivity.
  split; [rewrite Ht; reflexivity |]. split; [| split; [exact Hf |]].
  - rewrite (proj1 (proj2 (proj2 (cancel_task_effect "a1b2c3d4" o)) _ Ht eq_refl)).
    reflexivity.
  - exact (proj1 (proj2 (cancel_task_effect "nosuchid" o)) Hf).
Defined.

(** ** The orchestrator: invariants of all reachable states *)

Lemma dates_snoc (n : nat) : forall start,
  dates start (S n) = dates start n ++ [(start + Z.of_nat n)%Z].
Proof.
  induction n as [| n IH]; intros start.
  - cbn. rewrite Z.add_0_r. reflexivity.
  - change (dates start (S (S n))) with (start :: dates (start + 1) (S n)).
    rewrite IH. cbn [dates app]. do 2 f_equal. f_equal. lia.
Qed.

Lemma day_record_date (date : Z) (env : Pipeline.DayEnv) :
  DayResult.date (day_record date env) = date.
Proof.
  unfold day_record.
  destruct (Pipeline.prepare_exception env); [reflexivity |].
  destruct (String.eqb (Pipeline.Error_Description env) ""); reflexivity.
Qed.

Lemma progress_new_task (task_id : string) (start_date : Z) (end_date : option Z) :
  progress_ok (Pipeline.new_task task_id start_date end_date).
Proof.
  unfold progress_ok. cbn.
  split; [reflexivity |]. split; [discriminate |]. split; [reflexivity |].
  split; [reflexivity |]. split; [lia |]. split; reflexivity.
Qed.

(** The head of the loop, entered with the facts of a day boundary. *)
Lemma progress_loop_head (obj : Pipeline.TaskObj) :
  let t := Pipeline.task obj in
  let n := length (SimulationTask.completed_days t) in
  map DayResult.date (SimulationTask.completed_days t)
    = dates (SimulationTask.start_date t) n ->
  SimulationTask.status t <> failed ->
  SimulationTask.error t = None ->
  SimulationTask.total_days t
    = (SimulationTask.end_date t - SimulationTask.start_date t + 1)%Z ->
  (Z.of_nat n <= Z.max 0 (SimulationTask.total_days t))%Z ->
  Pipeline.current obj = (SimulationTask.start_date t + Z.of_nat n)%Z ->
  Pipeline.day_num obj = Z.of_nat n ->
  SimulationTask.current_day t = Z.of_nat n ->
  progress_ok (Pipeline.loop_head obj).
Proof.
  intros t n Hd Hs He Ht Hn Hc Hdn Hcd. unfold Pipeline.loop_head.
  destruct (Z.leb_spec (Pipeline.current obj)
              (SimulationTask.end_date (Pipeline.task obj))) as [Hle | Hgt].
  - destruct (decide (SimulationTask.status (Pipeline.task obj) = cancelled)).
    + unfold progress_ok. cbn.
      split; [exact Hd |]. split; [discriminate |].
      split; [intros _; exact He |]. repeat split; try assumption.
    + unfold progress_ok. cbn. fold t n. rewrite Hdn.
      split; [exact Hd |]. split; [intros Hf; contradiction |].
      split; [intros _; exact He |]. repeat split; try assumption.
  - unfold progress_ok. cbn.
    split; [exact Hd |]. split; [discriminate |].
    split; [intros _; exact He |]. repeat split; try assumption.
Qed.

(** Before its coroutine has ended a task has no status error and no
    error message. *)
Lemma progress_live (obj : Pipeline.TaskObj) :
  progress_ok obj ->
  Pipeline.at_pc obj <> Pipeline.Finished ->
  SimulationTask.status (Pipeline.task obj) <> failed /\
  SimulationTask.error (Pipeline.task obj) = None.
Proof.
  intros (_ & Hf & He & _) Hpc.
  assert (Hs : SimulationTask.status (Pipeline.task obj) <> failed).
  { intros Hst. destruct (Hf Hst) as [Hfin _]. contradiction. }
  split; [exact Hs | exact (He Hs)].
Qed.

Lemma progress_step (env : Pipeline.DayEnv) (obj : Pipeline.TaskObj)
    (d : OpenDSS.OpenDSSService) :
  progress_ok obj -> progress_ok (fst (Pipeline.run_task_step env obj d)).
Proof.
  intros Hok. pose proof (progress_live obj Hok) as Hlive.
  destruct Hok as (Hd & Hf & He & Ht & Hn & Hpc). unfold Pipeline.run_task_step.
  destruct (Pipeline.at_pc obj) eqn:Hat.
  - destruct Hpc as [Hz Hcd]. destruct Hlive as [Hs Hnone]; [discriminate |].
    cbn [fst].
    apply progress_loop_head; cbn; rewrite ?Hz; cbn; try assumption;
      try discriminate; try lia.
    + rewrite Hz in Hd. exact Hd.
  - destruct Hpc as (Hc & Hle & Hdn & Hcd & Hdate).
    destruct Hlive as [Hs Hnone]; [discriminate |].
    pose proof (run_one_day_record (Pipeline.current obj) env d) as Hrec.
    destruct (Pipeline._run_one_day (Pipeline.current obj) env d) as [d' res].
    cbn [snd] in Hrec. subst res.
    assert (Hdates :
      map DayResult.date
        (SimulationTask.completed_days (Pipeline.task obj)
           ++ [day_record (Pipeline.current obj) env])
      = dates (SimulationTask.start_date (Pipeline.task obj))
          (length (SimulationTask.completed_days (Pipeline.task obj)
                     ++ [day_record (Pipeline.current obj) env]))).
    { rewrite length_app, map_app. cbn.
      rewrite Nat.add_1_r, dates_snoc, Hd, day_record_date, Hc. reflexivity. }
    assert (Hlen :
      length (SimulationTask.completed_days (Pipeline.task obj)
                ++ [day_record (Pipeline.current obj) env])
      = S (length (SimulationTask.completed_days (Pipeline.task obj)))).
    { rewrite length_app. cbn. lia. }
    destruct (Z.ltb_spec DATE_MAX (Pipeline.current obj + 1)) as [Hov | Hno];
      cbn [fst]; unfold progress_ok; cbn.
    + split; [exact Hdates |]. rewrite Hlen.
      split.
      { intros _. split; [reflexivity |]. split; [reflexivity |].
        eexists. split; [reflexivity | lia]. }
      split; [intros Hne; contradiction |].
      split; [exact Ht |]. split; lia.
    + split; [exact Hdates |]. rewrite Hlen.
      split; [intros Hst; contradiction |].
      split; [intros _; exact Hnone |].
      split; [exact Ht |]. split; [lia |].
      split; [lia |]. split; lia.
  - destruct Hpc as (Hc & Hdn & Hcd).
    destruct Hlive as [Hs Hnone]; [discriminate |]. cbn [fst].
    apply progress_loop_head; assumption.
  - cbn [fst]. unfold progress_ok. rewrite Hat.
    split; [exact Hd |]. split; [exact Hf |]. split; [exact He |].
    split; [exact Ht |]. split; [exact Hn | exact Hpc].
Qed.

Lemma task_id_step (env : Pipeline.DayEnv) (obj : Pipeline.TaskObj)
    (d : OpenDSS.OpenDSSService) :
  SimulationTask.task_id (Pipeline.task (fst (Pipeline.run_task_step env obj d)))
  = SimulationTask.task_id (Pipeline.task obj).
Proof.
  unfold Pipeline.run_task_step, Pipeline.loop_head.
  destruct (Pipeline.at_pc obj); cbn.
  - destruct (_ <=? _)%Z; [| reflexivity]. destruct (decide _); reflexivity.
  - destruct (Pipeline._run_one_day (Pipeline.current obj) env d) as [d' [res | e]];
      [destruct (_ <? _)%Z |]; reflexivity.
  - destruct (_ <=? _)%Z; [| reflexivity]. destruct (decide _); reflexivity.
  - reflexivity.
Qed.

(** A resumption that does not end the coroutine leaves a pending or
    running task pending or running. *)
Lemma live_step (env : Pipeline.DayEnv) (obj : Pipeline.TaskObj)
    (d : OpenDSS.OpenDSSService) :
  SimulationTask.status (Pipeline.task obj) = pending \/
  SimulationTask.status (Pipeline.task obj) = running ->
  Pipeline.at_pc obj = Pipeline.Finished \/
  Pipeline.at_pc (fst (Pipeline.run_task_step env obj d)) <> Pipeline.Finished ->
  SimulationTask.status (Pipeline.task (fst (Pipeline.run_task_step env obj d))) = pending \/
  SimulationTask.status (Pipeline.task (fst (Pipeline.run_task_step env obj d))) = running.
Proof.
  intros Hst Hpc. unfold Pipeline.run_task_step, Pipeline.loop_head in *.
  destruct (Pipeline.at_pc obj) eqn:Hat.
  - cbn in *. destruct (_ <=? _)%Z; cbn in *.
    + right. reflexivity.
    + destruct Hpc as [Hpc | Hpc]; [discriminate | contradiction].
  - destruct (Pipeline._run_one_day (Pipeline.current obj) env d) as [d' [res | e]];
      [destruct (_ <? _)%Z |]; cbn in *.
    + destruct Hpc as [Hpc | Hpc]; [discriminate | contradiction].
    + exact Hst.
    + destruct Hpc as [Hpc | Hpc]; [discriminate | contradiction].
  - cbn in *. destruct (_ <=? _)%Z; cbn in *.
    + destruct (decide _) as [Hc | Hc]; cbn in *.
      * destruct Hpc as [Hpc | Hpc]; [discriminate | contradiction].
      * exact Hst.
    + destruct Hpc as [Hpc | Hpc]; [discriminate | contradiction].
  - cbn. exact Hst.
Qed.

Lemma heap_progress_exec (a : System.action) (s : System.t) :
  heap_progress s -> heap_progress (System.exec a s).
Proof.
  unfold heap_progress. intros Hinv.
  destruct a as [compiled hours speed mode | | | | jitter c | sl jitter c
                | task_id start_date end_date | task_id | r env]; cbn [System.exec].
  - unfold System.engine_start.
    destruct (Engine.start compiled hours speed mode (System.engine s)
                (System.adapter s)) as [[e d] resp]. exact Hinv.
  - exact Hinv.
  - exact Hinv.
  - exact Hinv.
  - rewrite engine_loop_orchestrator. exact Hinv.
  - rewrite engine_loop_orchestrator. exact Hinv.
  - unfold System.batch_start, Pipeline.start_simulation.
    destruct (Pipeline.is_busy (System.orchestrator s)); [exact Hinv |].
    cbn. apply Forall_app. split; [exact Hinv |].
    apply Forall_cons. split; [apply progress_new_task | apply Forall_nil; exact I].
  - unfold Pipeline.cancel_task.
    destruct (Pipeline._tasks (Pipeline.service (System.orchestrator s)) !! task_id)
      as [r |]; [| exact Hinv].
    destruct (Pipeline.heap (System.orchestrator s) !! r) as [obj |] eqn:Hobj;
      [| exact Hinv].
    destruct (decide (SimulationTask.status (Pipeline.task obj) = running))
      as [Hrun | _]; [| exact Hinv].
    cbn. apply Forall_insert; [exact Hinv |].
    pose proof (Forall_lookup_1 _ _ _ _ Hinv Hobj) as (Hd & Hf & He & Ht & Hn & Hpc).
    unfold progress_ok. cbn.
    split; [exact Hd |]. split; [discriminate |].
    split; [intros _; apply He; rewrite Hrun; discriminate |].
    split; [exact Ht |]. split; [exact Hn | exact Hpc].
  - unfold Pipeline.resume_task.
    destruct (Pipeline.heap (System.orchestrator s) !! r) as [obj |] eqn:Hobj;
      [| exact Hinv].
    pose proof (progress_step env obj (System.adapter s)
                  (Forall_lookup_1 _ _ _ _ Hinv Hobj)) as Hc.
    destruct (Pipeline.run_task_step env obj (System.adapter s)) as [obj' d'].
    cbn. apply Forall_insert; [exact Hinv | exact Hc].
Qed.

Lemma registry_start (task_id : string) (start_date : Z) (end_date : option Z)
    (o o' : Pipeline.Orchestrator) (i : string) :
  registry_ok o ->
  Pipeline.start_simulation task_id start_date end_date o = Ok (o', i) ->
  registry_ok o'.
Proof.
  intros [Hreg Hbusy]. unfold Pipeline.start_simulation.
  destruct (Pipeline.is_busy o); [discriminate |]. intros [= <- <-].
  split; cbn.
  - intros id r Hid.
    destruct (decide (task_id = id)) as [-> | Hne].
    + rewrite lookup_insert_eq in Hid. injection Hid as <-.
      exists (Pipeline.new_task id start_date end_date). split; [| reflexivity].
      rewrite lookup_app_r by lia. rewrite Nat.sub_diag. reflexivity.
    + rewrite lookup_insert_ne in Hid by exact Hne.
      destruct (Hreg id r Hid) as (obj & Hobj & Htid).
      exists obj. split; [| exact Htid].
      apply lookup_app_l_Some. exact Hobj.
  - intros id [= <-]. do 2 eexists. rewrite lookup_insert_eq.
    split; [reflexivity |]. split.
    + rewrite lookup_app_r by lia. rewrite Nat.sub_diag. reflexivity.
    + left. reflexivity.
Qed.

Lemma registry_cancel (task_id : string) (o : Pipeline.Orchestrator) :
  registry_ok o -> registry_ok (fst (Pipeline.cancel_task task_id o)).
Proof.
  intros [Hreg Hbusy]. unfold Pipeline.cancel_task.
  destruct (Pipeline._tasks (Pipeline.service o) !! task_id) as [r |] eqn:Hr;
    [| split; assumption].
  destruct (Pipeline.heap o !! r) as [obj |] eqn:Hobj; [| split; assumption].
  destruct (decide (SimulationTask.status (Pipeline.task obj) = running))
    as [Hrun | _]; [| split; assumption].
  split; cbn; [| discriminate].
  intros id r' Hid. destruct (Hreg id r' Hid) as (obj' & Hobj' & Htid).
  destruct (decide (r = r')) as [<- | Hne].
  - rewrite Hobj in Hobj'. injection Hobj' as <-.
    eexists. split; [apply list_lookup_insert_eq; eapply lookup_lt_Some, Hobj |].
    exact Htid.
  - exists obj'. split; [| exact Htid].
    rewrite list_lookup_insert_ne by exact Hne. exact Hobj'.
Qed.

Lemma registry_resume (r : nat) (env : Pipeline.DayEnv) (o : Pipeline.Orchestrator)
    (d : OpenDSS.OpenDSSService) :
  registry_ok o -> registry_ok (fst (Pipeline.resume_task r env o d)).
Proof.
  intros [Hreg Hbusy]. unfold Pipeline.resume_task.
  destruct (Pipeline.heap o !! r) as [obj |] eqn:Hobj; [| split; assumption].
  pose proof (task_id_step env obj d) as Htid.
  pose proof (live_step env obj d) as Hlive.
  destruct (Pipeline.run_task_step env obj d) as [obj' d']. cbn [fst] in *.
  assert (Hreg' : forall id r0,
    Pipeline._tasks (Pipeline.service o) !! id = Some r0 ->
    exists obj0, <[r := obj']> (Pipeline.heap o) !! r0 = Some obj0 /\
                 SimulationTask.task_id (Pipeline.task obj0) = id).
  { intros id r0 Hid. destruct (Hreg id r0 Hid) as (obj0 & Hobj0 & Hid0).
    destruct (decide (r = r0)) as [<- | Hne].
    - rewrite Hobj in Hobj0. injection Hobj0 as <-.
      exists obj'. split; [apply list_lookup_insert_eq; eapply lookup_lt_Some, Hobj |].
      rewrite Htid. exact Hid0.
    - exists obj0. split; [| exact Hid0].
      rewrite list_lookup_insert_ne by exact Hne. exact Hobj0. }
  destruct (decide (Pipeline.at_pc obj <> Pipeline.Finished /\
                    Pipeline.at_pc obj' = Pipeline.Finished)) as [Hfin | Hnfin];
    split; cbn; try exact Hreg'; [discriminate |].
  intros id Hid. destruct (Hbusy id Hid) as (r0 & obj0 & Hr0 & Hobj0 & Hst).
  destruct (decide (r = r0)) as [<- | Hne].
  - rewrite Hobj in Hobj0. injection Hobj0 as <-.
    exists r, obj'. split; [exact Hr0 |].
    split; [apply list_lookup_insert_eq; eapply lookup_lt_Some, Hobj |].
    apply Hlive; [exact Hst |].
    destruct (decide (Pipeline.at_pc obj = Pipeline.Finished)) as [Hf | Hf];
      [left; exact Hf | right].
    intros Hf'. apply Hnfin. split; assumption.
  - exists r0, obj0. split; [exact Hr0 |]. split; [| exact Hst].
    rewrite list_lookup_insert_ne by exact Hne. exact Hobj0.
Qed.

Lemma registry_exec (a : System.action) (s : System.t) :
  registry_ok (System.orchestrator s) ->
  registry_ok (System.orchestrator (System.exec a s)).
Proof.
  intros Hinv.
  destruct a as [compiled hours speed mode | | | | jitter c | sl jitter c
                | task_id start_date end_date | task_id | r env]; cbn [System.exec].
  - unfold System.engine_start.
    destruct (Engine.start compiled hours speed mode (System.engine s)
                (System.adapter s)) as [[e d] resp]. exact Hinv.
  - exact Hinv.
  - exact Hinv.
  - exact Hinv.
  - rewrite engine_loop_orchestrator. exact Hinv.
  - rewrite engine_loop_orchestrator. exact Hinv.
  - unfold System.batch_start.
    destruct (Pipeline.start_simulation task_id start_date end_date
                (System.orchestrator s)) as [[o' i] | exc] eqn:Hstart; cbn.
    + eapply registry_start; [exact Hinv | exact Hstart].
    + exact Hinv.
  - cbn. apply registry_cancel. exact Hinv.
  - pose proof (registry_resume r env (System.orchestrator s) (System.adapter s) Hinv)
      as Hres.
    destruct (Pipeline.resume_task r env (System.orchestrator s) (System.adapter s))
      as [o' d']. exact Hres.
Qed.

Lemma reachable_invariants (s : System.t) :
  System.reachable s -> registry_ok (System.orchestrator s) /\ heap_progress s.
Proof.
  intros [acts ->].
  assert (H0 : registry_ok (System.orchestrator System.init) /\
               heap_progress System.init).
  { split; [split |].
    - intros id r Hid. cbn in Hid. rewrite lookup_empty in Hid. discriminate.
    - intros id Hid. discriminate.
    - apply Forall_nil. exact I. }
  revert H0. generalize System.init.
  induction acts as [| a acts IH]; intros s0 H0; [exact H0 |].
  cbn. apply IH. destruct H0 as [Hr Hp].
  split; [apply registry_exec, Hr | apply heap_progress_exec, Hp].
Qed.

Lemma tasks_dom_exec (a : System.action) (s : System.t) (id : string) :
  is_Some (Pipeline._tasks (Pipeline.service (System.orchestrator s)) !! id) ->
  is_Some (Pipeline._tasks (Pipeline.service (System.orchestrator (System.exec a s))) !! id).
Proof.
  intros Hin.
  destruct a as [compiled hours speed mode | | | | jitter c | sl jitter c
                | task_id start_date end_date | task_id | r env]; cbn [System.exec].
  - unfold System.engine_start.
    destruct (Engine.start compiled hours speed mode (System.engine s)
                (System.adapter s)) as [[e d] resp]. exact Hin.
  - exact Hin.
  - exact Hin.
  - exact Hin.
  - rewrite engine_loop_orchestrator. exact Hin.
  - rewrite engine_loop_orchestrator. exact Hin.
  - unfold System.batch_start, Pipeline.start_simulation.
    destruct (Pipeline.is_busy (System.orchestrator s)); [exact Hin |].
    cbn. rewrite lookup_insert_is_Some. destruct (decide (task_id = id)); auto.
  - unfold Pipeline.cancel_task.
    destruct (Pipeline._tasks (Pipeline.service (System.orchestrator s)) !! task_id)
      as [r |]; [| exact Hin].
    destruct (Pipeline.heap (System.orchestrator s) !! r) as [obj |]; [| exact Hin].
    destruct (decide (SimulationTask.status (Pipeline.task obj) = running));
      exact Hin.
  - unfold Pipeline.resume_task.
    destruct (Pipeline.heap (System.orchestrator s) !! r) as [obj |]; [| exact Hin].
    destruct (Pipeline.run_task_step env obj (System.adapter s)) as [obj' d'].
    cbn. destruct (decide _); exact Hin.
Qed.

Lemma get_task_registered (id : string) (o : Pipeline.Orchestrator) :
  registry_ok o ->
  is_Some (Pipeline._tasks (Pipeline.service o) !! id) ->
  exists t, Pipeline.get_task id o = Some t /\ SimulationTask.task_id t = id.
Proof.
  intros [Hreg _] [r Hr]. destruct (Hreg id r Hr) as (obj & Hobj & Hid).
  exists (Pipeline.task obj). unfold Pipeline.get_task.
  rewrite Hr. cbn. rewrite Hobj. split; [reflexivity | exact Hid].
Qed.

(** X9.  In every reachable state of the process, every registered task
    id resolves through [get_task] to a task that carries that id, and a
    busy orchestrator names a task that is pending or running.  No action
    ever removes a task: an id that resolves keeps resolving. *)
Theorem registered_tasks_resolve (s : System.t) :
  System.reachable s ->
  let o := System.orchestrator s in
  (forall id,
     is_Some (Pipeline._tasks (Pipeline.service o) !! id) ->
     exists t, Pipeline.get_task id o = Some t /\ SimulationTask.task_id t = id) /\
  (forall id,
     Pipeline._running_task_id (Pipeline.service o) = Some id ->
     exists t, Pipeline.get_task id o = Some t /\
               (SimulationTask.status t = pending \/ SimulationTask.status t = running)) /\
  (forall a id,
     is_Some (Pipeline.get_task id o) ->
     is_Some (Pipeline.get_task id (System.orchestrator (System.exec a s)))).
Proof.
  intros Hreach o. subst o.
  destruct (reachable_invariants s Hreach) as [Hreg _].
  split; [| split].
  - intros id Hin. apply get_task_registered; assumption.
  - intros id Hbusy. destruct Hreg as [_ Hb].
    destruct (Hb id Hbusy) as (r & obj & Hr & Hobj & Hst).
    exists (Pipeline.task obj). unfold Pipeline.get_task.
    rewrite Hr. cbn. rewrite Hobj. split; [reflexivity | exact Hst].
  - intros a id [t Ht].
    assert (Hin : is_Some (Pipeline._tasks
                             (Pipeline.service (System.orchestrator s)) !! id)).
    { unfold Pipeline.get_task in Ht.
      destruct (Pipeline._tasks (Pipeline.service (System.orchestrator s)) !! id)
        as [r |];
        [eexists; reflexivity | discriminate]. }
    apply (tasks_dom_exec a s id) in Hin.
    destruct (get_task_registered id (System.orchestrator (System.exec a s))
                (registry_exec a s Hreg) Hin) as (t' & Ht' & _).
    exists t'. exact Ht'.
Qed.

Lemma registered_tasks_resolve_witness :
  let acts := [System.BatchStart "a1b2c3d4" 0 (Some 2%Z);
               System.BatchResume 0 ok_day] in
  let s := System.run acts System.init in
  System.reachable s /\
  Pipeline._running_task_id (Pipeline.service (System.orchestrator s)) = Some "a1b2c3d4" /\
  (exists t, Pipeline.get_task "a1b2c3d4" (System.orchestrator s) = Some t /\
             (SimulationTask.status t = pending \/ SimulationTask.status t = running)) /\
  is_Some (Pipeline.get_task "a1b2c3d4"
             (System.orchestrator (System.exec (System.BatchCancel "a1b2c3d4") s))).
Proof.
  intros acts s.
  assert (Hreach : System.reachable s) by (exists acts; reflexivity).
  destruct (registered_tasks_resolve s Hreach) as (_ & Hbusy & Hkeep).
  split; [exact Hreach |]. split; [reflexivity |]. split.
  - exact (Hbusy "a1b2c3d4" eq_refl).
  - destruct (Hbusy "a1b2c3d4" eq_refl) as (t & Ht & _).
    exact (Hkeep (System.BatchCancel "a1b2c3d4") "a1b2c3d4" (ex_intro _ t Ht)).
Defined.

(** X10.  In every reachable state of the process, whatever was
    cancelled or interleaved, the results of a task are the records of
    consecutive dates from its start date, in order; the completed count
    is [current_day] or one less, and equals it once the task is
    completed; neither exceeds the total day count.  A task has the
    status error only when its last record is that of a day from which
    the date cannot be advanced (9999-12-31, the last date that
    [datetime] has): its message is then "date value out of range" and
    its completed count equals [current_day]; a task with any other
    status has no error message. *)
Theorem task_progress_is_consistent (s : System.t) (id : string)
    (t : SimulationTask.t) :
  System.reachable s ->
  Pipeline.get_task id (System.orchestrator s) = Some t ->
  let n := length (SimulationTask.completed_days t) in
  map DayResult.date (SimulationTask.completed_days t)
    = dates (SimulationTask.start_date t) n /\
  (Z.of_nat n <= SimulationTask.current_day t)%Z /\
  (SimulationTask.current_day t <= Z.of_nat n + 1)%Z /\
  (SimulationTask.current_day t <= Z.max 0 (SimulationTask.total_days t))%Z /\
  (SimulationTask.status t = completed -> SimulationTask.current_day t = Z.of_nat n) /\
  (SimulationTask.status t = failed ->
   SimulationTask.error t = Some "date value out of range" /\
   SimulationTask.current_day t = Z.of_nat n /\
   exists k, n = S k /\ (DATE_MAX <= SimulationTask.start_date t + Z.of_nat k)%Z) /\
  (SimulationTask.status t <> failed -> SimulationTask.error t = None).
Proof.
  intros Hreach Hget n.
  destruct (reachable_invariants s Hreach) as [_ Hprog].
  pose proof (reachable_heap_coherent s Hreach) as Hcoh.
  unfold Pipeline.get_task in Hget.
  destruct (Pipeline._tasks (Pipeline.service (System.orchestrator s)) !! id)
    as [r |]; [| discriminate].
  cbn in Hget.
  destruct (Pipeline.heap (System.orchestrator s) !! r) as [obj |] eqn:Hobj;
    [| discriminate].
  injection Hget as <-.
  pose proof (Forall_lookup_1 _ _ _ _ Hprog Hobj) as (Hd & Hf & He & Ht & Hn & Hpc).
  pose proof (Forall_lookup_1 _ _ _ _ Hcoh Hobj) as Hc. unfold coherent in Hc.
  fold n in Hd, Hf, Hn, Hpc.
  split; [exact Hd |].
  assert (Hcur :
    (Z.of_nat n <= SimulationTask.current_day (Pipeline.task obj))%Z /\
    (SimulationTask.current_day (Pipeline.task obj) <= Z.of_nat n + 1)%Z /\
    (SimulationTask.current_day (Pipeline.task obj)
       <= Z.max 0 (SimulationTask.total_days (Pipeline.task obj)))%Z /\
    (Pipeline.at_pc obj <> Pipeline.AwaitDay ->
     SimulationTask.current_day (Pipeline.task obj) = Z.of_nat n)).
  { destruct (Pipeline.at_pc obj) eqn:Hat.
    - destruct Hpc as [Hz Hcd]. rewrite Hcd. repeat split; lia.
    - destruct Hpc as (Hcur & Hle & Hdn & Hcd & Hdate). rewrite Hcd.
      repeat split; try lia. intros Hne. contradiction.
    - destruct Hpc as (Hcur & Hdn & Hcd). rewrite Hcd. repeat split; lia.
    - rewrite Hpc. repeat split; lia. }
  destruct Hcur as (H1 & H2 & H3 & H4).
  split; [exact H1 |]. split; [exact H2 |]. split; [exact H3 |].
  split; [| split; [| exact He]].
  - intros Hst. apply H4. intros Hat. rewrite Hat, Hst in Hc. discriminate.
  - intros Hst. destruct (Hf Hst) as (Hfin & Herr & Hk).
    split; [exact Herr |]. split; [| exact Hk].
    apply H4. rewrite Hfin. discriminate.
Qed.

Lemma task_progress_is_consistent_witness :
  let acts := [System.BatchStart "a1b2c3d4" 0 (Some 2%Z);
               System.BatchResume 0 ok_day; System.BatchResume 0 ok_day;
               System.BatchCancel "a1b2c3d4"; System.BatchResume 0 ok_day;
               System.BatchStart "c9d0e1f2" DATE_MAX None;
               System.BatchResume 1 ok_day; System.BatchResume 1 ok_day] in
  let s := System.run acts System.init in
  exists t u,
    System.reachable s /\
    Pipeline.get_task "a1b2c3d4" (System.orchestrator s) = Some t /\
    SimulationTask.status t = completed /\
    SimulationTask.current_day t = Z.of_nat (length (SimulationTask.completed_days t)) /\
    SimulationTask.error t = None /\
    Pipeline.get_task "c9d0e1f2" (System.orchestrator s) = Some u /\
    SimulationTask.status u = failed /\
    SimulationTask.error u = Some "date value out of range" /\
    SimulationTask.current_day u = Z.of_nat (length (SimulationTask.completed_days u)).
Proof.
  intros acts s.
  assert (Hreach : System.reachable s) by (exists acts; reflexivity).
  eassert (Ht : Pipeline.get_task "a1b2c3d4" (System.orchestrator s) = Some _)
    by (vm_compute; reflexivity).
  eassert (Hu : Pipeline.get_task "c9d0e1f2" (System.orchestrator s) = Some _)
    by (vm_compute; reflexivity).
  do 2 eexists. split; [exact Hreach |]. split; [exact Ht |]. split; [reflexivity |].
  destruct (task_progress_is_consistent s "a1b2c3d4" _ Hreach Ht)
    as (_ & _ & _ & _ & Hdone & _ & Herr).
  destruct (task_progress_is_consistent s "c9d0e1f2" _ Hreach Hu)
    as (_ & _ & _ & _ & _ & Hfail & _).
  split; [exact (Hdone eq_refl) |].
  split; [apply Herr; discriminate |].
  split; [exact Hu |]. split; [reflexivity |].
  destruct (Hfail eq_refl) as (Hmsg & Hcd & _).
  split; [exact Hmsg | exact Hcd].
Defined.


(** ** The orchestrator: one day *)

Lemma filter_id_length (l : list bool) :
  length (List.filter id l) <= length l /\
  (length (List.filter id l) = length l <-> forall b, In b l -> b = true).
Proof.
  induction l as [| b l [IHle IHeq]]; cbn.
  - split; [lia |]. split; [intros _ b [] | reflexivity].
  - destruct b; cbn.
    + split; [lia |]. split.
      * intros H b [<- | Hin]; [reflexivity |]. apply IHeq; [lia | exact Hin].
      * intros H. f_equal. apply IHeq. intros b Hin. apply H. right. exact Hin.
    + split; [lia |]. split; [lia |].
      intros H. specialize (H false (or_introl eq_refl)). discriminate.
Qed.

(** X11.  [_run_one_day] never raises: it returns a record for its date.
    When the preparation raises or the compile reports an error, the
    record has status error with the message, no step counts, and the
    shared adapter is left as it was.  Otherwise the record has status
    success, 96 total steps and a converged count that is at most 96 and
    equals 96 exactly when every step converged; and the shared adapter
    is marked loaded with the compiled circuit's name. *)
Theorem run_one_day_outcome (date : Z) (env : Pipeline.DayEnv)
    (d : OpenDSS.OpenDSSService) :
  let d' := fst (Pipeline._run_one_day date env d) in
  exists r,
    snd (Pipeline._run_one_day date env d) = Ok r /\
    DayResult.date r = date /\
    (Pipeline.prepare_exception env = None ->
     Pipeline.Error_Description env = "" ->
     DayResult.status r = "success" /\
     DayResult.error r = None /\
     DayResult.total_steps r = Some 96 /\
     (exists k,
        DayResult.converged_steps r = Some k /\ k <= 96 /\
        (k = 96 <-> forall i, i < 96 -> Pipeline.Converged_at env i = true)) /\
     OpenDSS._model_loaded d' = true /\
     OpenDSS._circuit_name d' = Pipeline.Circuit_Name env /\
     OpenDSS._current_load_mult d' = OpenDSS._current_load_mult d) /\
    (is_Some (Pipeline.prepare_exception env) \/
     Pipeline.Error_Description env <> "" ->
     DayResult.status r = "error" /\
     is_Some (DayResult.error r) /\
     DayResult.converged_steps r = None /\
     DayResult.total_steps r = None /\
     d' = d).
Proof.
  intros d'. subst d'.
  exists (day_record date env).
  split; [apply run_one_day_record |]. split; [apply day_record_date |].
  unfold Pipeline._run_one_day, Pipeline._sync_work, Pipeline._prepare_date,
    Pipeline._run_simulation, day_record, error_record.
  destruct (Pipeline.prepare_exception env) as [e |] eqn:Hprep.
  - split; [discriminate |]. intros _. cbn. repeat split. eexists. reflexivity.
  - destruct (String.eqb_spec (Pipeline.Error_Description env) "") as [Hdesc | Hdesc].
    + split.
      * intros _ _. unfold Pipeline._summarize_day.
        cbn [fst snd mbind outcome_bind DayResult.status DayResult.error
             DayResult.total_steps DayResult.converged_steps
             OpenDSS._model_loaded OpenDSS._circuit_name OpenDSS._current_load_mult].
        split; [reflexivity |]. split; [reflexivity |]. split; [reflexivity |].
        split; [| split; [reflexivity | split; reflexivity]].
        destruct (filter_id_length (map (Pipeline.Converged_at env) (seq 0 96)))
          as [Hle Heq].
        rewrite length_map, length_seq in Hle, Heq.
        eexists. split; [reflexivity |]. split; [exact Hle |].
        rewrite Heq. split.
        -- intros H i Hi. apply H. apply in_map. apply in_seq. lia.
        -- intros H b Hin. apply in_map_iff in Hin as (i & <- & Hi).
           apply in_seq in Hi. apply H. lia.
      * intros [[e He] | Hne]; [discriminate | contradiction].
    + split; [intros _ Hd; contradiction |].
      intros _. cbn. repeat split. eexists. reflexivity.
Qed.

Lemma run_one_day_outcome_witness :
  Pipeline.prepare_exception ok_day = None /\
  Pipeline.Error_Description ok_day = "" /\
  Pipeline.Error_Description compile_error_day <> "" /\
  (exists r,
     snd (Pipeline._run_one_day 3 ok_day OpenDSS.init) = Ok r /\
     DayResult.status r = "success" /\ DayResult.total_steps r = Some 96) /\
  (exists r,
     snd (Pipeline._run_one_day 3 compile_error_day OpenDSS.init) = Ok r /\
     DayResult.status r = "error" /\
     fst (Pipeline._run_one_day 3 compile_error_day OpenDSS.init) = OpenDSS.init).
Proof.
  assert (Hne : Pipeline.Error_Description compile_error_day <> "") by discriminate.
  split; [reflexivity |]. split; [reflexivity |]. split; [exact Hne |]. split.
  - destruct (run_one_day_outcome 3 ok_day OpenDSS.init) as (r & Hr & _ & Hok & _).
    exists r. split; [exact Hr |].
    destruct (Hok eq_refl eq_refl) as (Hs & _ & Ht & _). split; assumption.
  - destruct (run_one_day_outcome 3 compile_error_day OpenDSS.init)
      as (r & Hr & _ & _ & Herr).
    exists r. split; [exact Hr |].
    destruct (Herr (or_intror Hne)) as (Hs & _ & _ & _ & Hd). split; assumption.
Defined.

(** ** The hub: the two registrations of an observer *)

Lemma hub_ok_init : hub_ok Hub.init.
Proof.
  split; [| split]; cbn.
  - intros cb Hin. exfalso. revert Hin. apply not_elem_of_empty.
  - intros ws cb Hl. rewrite lookup_empty in Hl. discriminate.
  - intros ws Hin. exfalso. revert Hin. apply not_elem_of_empty.
Qed.

Lemma hub_ok_connect (ws : websocket) (s : Hub.Server) :
  hub_ok s -> Hub._callbacks (Hub.manager s) !! ws = None ->
  hub_ok (Hub.connect ws s).
Proof.
  intros (Hsub & Hcb & Hact) Hfresh. split; [| split]; cbn.
  - intros cb Hin. apply elem_of_union in Hin as [Hin | Hin].
    + apply elem_of_singleton in Hin as ->. exists ws.
      split; [reflexivity |]. apply lookup_insert_eq.
    + destruct (Hsub cb Hin) as (ws' & -> & Hl). exists ws'.
      split; [reflexivity |].
      rewrite lookup_insert_ne; [exact Hl |].
      intros <-. rewrite Hfresh in Hl. discriminate.
  - intros ws' cb Hl. destruct (decide (ws = ws')) as [<- | Hne].
    + rewrite lookup_insert_eq in Hl. congruence.
    + rewrite lookup_insert_ne in Hl by exact Hne. apply Hcb. exact Hl.
  - intros ws' Hin. destruct (decide (ws = ws')) as [<- | Hne].
    + rewrite lookup_insert_eq. eexists. reflexivity.
    + rewrite lookup_insert_ne by exact Hne. apply Hact.
      apply elem_of_union in Hin as [Hin | Hin]; [| exact Hin].
      apply elem_of_singleton in Hin. congruence.
Qed.

Lemma hub_ok_disconnect (ws : websocket) (s : Hub.Server) :
  hub_ok s -> hub_ok (Hub.disconnect ws s).
Proof.
  intros (Hsub & Hcb & Hact). unfold Hub.disconnect.
  destruct (Hub._callbacks (Hub.manager s) !! ws) as [cb |] eqn:Hws.
  - pose proof (Hcb ws cb Hws) as ->.
    split; [| split]; cbn.
    + intros cb' Hin. apply elem_of_difference in Hin as [Hin Hne].
      destruct (Hsub cb' Hin) as (ws' & -> & Hl). exists ws'.
      split; [reflexivity |].
      rewrite lookup_delete_ne; [exact Hl |].
      intros <-. apply Hne. apply elem_of_singleton. reflexivity.
    + intros ws' cb' Hl. apply lookup_delete_Some in Hl as [_ Hl].
      apply Hcb. exact Hl.
    + intros ws' Hin. apply elem_of_difference in Hin as [Hin Hne].
      rewrite lookup_delete_ne; [apply Hact; exact Hin |].
      intros <-. apply Hne. apply elem_of_singleton. reflexivity.
  - split; [| split]; cbn.
    + exact Hsub.
    + exact Hcb.
    + intros ws' Hin. apply elem_of_difference in Hin as [Hin _].
      apply Hact. exact Hin.
Qed.

Lemma hub_status_frame (broken : websocket -> bool) (s : Hub.Server) :
  let r := Hub._broadcast_status broken s in
  Hub.engine (fst r) = Hub.engine s /\
  Hub.adapter (fst r) = Hub.adapter s /\
  Hub._callbacks (Hub.manager (fst r)) = Hub._callbacks (Hub.manager s) /\
  (forall ws, ws ∈ Hub.active_connections (Hub.manager (fst r))
              <-> ws ∈ Hub.active_connections (Hub.manager s) /\ broken ws = false) /\
  snd r = map (fun c => Hub.send_json broken c
                           (status (Engine.get_status (Hub.engine s) (Hub.adapter s))))
              (elements (Hub.active_connections (Hub.manager s))).
Proof.
  unfold Hub._broadcast_status.
  destruct (hub_broadcast_spec broken
              (status (Engine.get_status (Hub.engine s) (Hub.adapter s)))
              (Hub.manager s)) as (Hmem & Hlog & Hcbs).
  destruct (Hub.broadcast broken _ (Hub.manager s)) as [m' log].
  cbn in *. repeat split; try assumption; apply Hmem; assumption.
Qed.

Lemma hub_snapshot_frame (broken : websocket -> bool) (raises : nat -> bool)
    (st : GridState) (s : Hub.Server) :
  let r := Hub.engine_broadcast broken raises st s in
  Hub.manager (fst r) = Hub.manager s /\
  Hub.adapter (fst r) = Hub.adapter s /\
  (forall cb, cb ∈ Engine._subscribers (Hub.engine (fst r))
              <-> cb ∈ Engine._subscribers (Hub.engine s) /\
                  fst (Hub.invoke broken raises cb st) = false) /\
  snd r = concat (map (fun cb => snd (Hub.invoke broken raises cb st))
                      (elements (Engine._subscribers (Hub.engine s)))).
Proof.
  unfold Hub.engine_broadcast.
  pose proof (broadcast_state_frame (Hub.invoke broken raises) st (Hub.engine s)) as Hf.
  cbn zeta in Hf. destruct Hf as (_ & _ & _ & _ & _ & _ & _ & _ & _ & _ & Hlog).
  pose proof (engine_broadcast_loop_spec (Hub.invoke broken raises) st
                (elements (Engine._subscribers (Hub.engine s)))
                (Engine._subscribers (Hub.engine s)) []) as Hmem.
  unfold Engine._broadcast_state in *.
  destruct (Engine.broadcast_loop (Hub.invoke broken raises)
              (elements (Engine._subscribers (Hub.engine s))) st
              (Engine._subscribers (Hub.engine s)) []) as [subs log].
  cbn in *. split; [reflexivity |]. split; [reflexivity |].
  split; [| exact Hlog].
  intros cb. rewrite Hmem, elem_of_elements.
  destruct (fst (Hub.invoke broken raises cb st)); split.
  - intros [Hin Hn]. exfalso. apply Hn. split; [exact Hin | reflexivity].
  - intros [_ Hd]. discriminate.
  - intros [Hin _]. split; [exact Hin | reflexivity].
  - intros [Hin _]. split; [exact Hin |]. intros [_ Hd]. discriminate.
Qed.

Lemma hub_reachable_ok (s : Hub.Server) : hub_reachable s -> hub_ok s.
Proof.
  induction 1 as [| ws s _ IH Hfresh | ws s _ IH | broken s _ IH
                 | broken raises st s _ IH].
  - exact hub_ok_init.
  - apply hub_ok_connect; assumption.
  - apply hub_ok_disconnect; assumption.
  - destruct IH as (Hsub & Hcb & Hact).
    destruct (hub_status_frame broken s) as (He & _ & Hcbs & Hmem & _).
    split; [| split].
    + intros cb Hin. rewrite He in Hin. rewrite Hcbs. apply Hsub. exact Hin.
    + intros ws cb Hl. rewrite Hcbs in Hl. apply Hcb. exact Hl.
    + intros ws Hin. rewrite Hcbs. apply Hact. apply Hmem in Hin as [Hin _].
      exact Hin.
  - destruct IH as (Hsub & Hcb & Hact).
    destruct (hub_snapshot_frame broken raises st s) as (Hm & _ & Hmem & _).
    split; [| split].
    + intros cb Hin. rewrite Hm. apply Hsub. apply Hmem in Hin as [Hin _].
      exact Hin.
    + intros ws cb Hl. rewrite Hm in Hl. apply Hcb. exact Hl.
    + intros ws Hin. rewrite Hm in Hin |- *. apply Hact. exact Hin.
Qed.

(** The sends of a fan-out that go to one observer. *)
Lemma fan_out_to (broken : websocket -> bool) (raises : nat -> bool)
    (st : GridState) (ws : websocket) (cbs : list callback) :
  NoDup cbs ->
  filter (fun d => dl_to d = ws)
         (concat (map (fun cb => snd (Hub.invoke broken raises cb st)) cbs))
  = if decide (WsCallback ws ∈ cbs)
    then [Hub.send_json broken ws (state_update st)] else [].
Proof.
  induction cbs as [| cb cbs IH]; intros Hnd.
  - cbn. destruct (decide (WsCallback ws ∈ [])) as [Hin | _]; [| reflexivity].
    exfalso. revert Hin. apply not_elem_of_nil.
  - apply NoDup_cons in Hnd as [Hnotin Hnd]. specialize (IH Hnd).
    cbn [map concat]. rewrite filter_app, IH.
    destruct cb as [ws' | i]; cbn [Hub.invoke Hub.ws_callback snd].
    + destruct (decide (ws' = ws)) as [-> | Hne].
      * rewrite filter_cons_True by reflexivity. rewrite filter_nil.
        destruct (decide (WsCallback ws ∈ cbs)) as [Hin | _]; [contradiction |].
        destruct (decide (WsCallback ws ∈ WsCallback ws :: cbs)) as [_ | Hn];
          [reflexivity |].
        exfalso. apply Hn. apply elem_of_cons. left. reflexivity.
      * rewrite filter_cons_False by exact Hne. rewrite filter_nil. cbn.
        destruct (decide (WsCallback ws ∈ cbs)) as [Hin | Hn];
          destruct (decide (WsCallback ws ∈ WsCallback ws' :: cbs)) as [Hin' | Hn'];
          try reflexivity.
        -- exfalso. apply Hn'. apply elem_of_cons. right. exact Hin.
        -- exfalso. apply elem_of_cons in Hin' as [Heq | Hin']; [| contradiction].
           apply Hne. congruence.
    + rewrite filter_nil. cbn.
      destruct (decide (WsCallback ws ∈ cbs)) as [Hin | Hn];
        destruct (decide (WsCallback ws ∈ PlainCallback i :: cbs)) as [Hin' | Hn'];
        try reflexivity.
      * exfalso. apply Hn'. apply elem_of_cons. right. exact Hin.
      * exfalso. apply elem_of_cons in Hin' as [Heq | Hin']; [discriminate | contradiction].
Qed.

(** X12 ([ConnectionManager.connect], [ConnectionManager.disconnect],
    [_create_broadcast_callback]): in a state that the hub reaches, an
    observer that connects is registered in both places, receives every
    snapshot that the engine fans out exactly once, and its disconnect
    puts the hub and the engine back where they were. *)
Theorem connect_then_disconnect (ws : websocket) (s : Hub.Server) :
  hub_reachable s ->
  Hub._callbacks (Hub.manager s) !! ws = None ->
  let s1 := Hub.connect ws s in
  ws ∈ Hub.active_connections (Hub.manager s1) /\
  Hub._callbacks (Hub.manager s1) !! ws = Some (WsCallback ws) /\
  WsCallback ws ∈ Engine._subscribers (Hub.engine s1) /\
  (forall broken raises st,
     filter (fun d => dl_to d = ws)
            (snd (Hub.engine_broadcast broken raises st s1))
     = [Hub.send_json broken ws (state_update st)]) /\
  (forall broken raises st,
     filter (fun d => dl_to d = ws)
            (snd (Hub.engine_broadcast broken raises st s)) = []) /\
  Hub.disconnect ws s1 = s.
Proof.
  intros Hreach Hfresh s1.
  pose proof (hub_reachable_ok s Hreach) as (Hsub & Hcb & Hact).
  assert (Hnot : WsCallback ws ∉ Engine._subscribers (Hub.engine s)).
  { intros Hin. destruct (Hsub _ Hin) as (ws' & Heq & Hl).
    injection Heq as <-. rewrite Hfresh in Hl. discriminate. }
  split; [| split; [| split; [| split; [| split]]]].
  - cbn. apply elem_of_union. left. apply elem_of_singleton. reflexivity.
  - cbn. apply lookup_insert_eq.
  - cbn. apply elem_of_union. left. apply elem_of_singleton. reflexivity.
  - intros broken raises st.
    destruct (hub_snapshot_frame broken raises st s1) as (_ & _ & _ & ->).
    rewrite fan_out_to by apply NoDup_elements.
    destruct (decide (WsCallback ws ∈ elements (Engine._subscribers (Hub.engine s1))))
      as [_ | Hn]; [reflexivity |].
    exfalso. apply Hn. apply elem_of_elements. cbn.
    apply elem_of_union. left. apply elem_of_singleton. reflexivity.
  - intros broken raises st.
    destruct (hub_snapshot_frame broken raises st s) as (_ & _ & _ & ->).
    rewrite fan_out_to by apply NoDup_elements.
    destruct (decide (WsCallback ws ∈ elements (Engine._subscribers (Hub.engine s))))
      as [Hin | _]; [| reflexivity].
    exfalso. apply Hnot. apply elem_of_elements. exact Hin.
  - assert (Hnact : ws ∉ Hub.active_connections (Hub.manager s)).
    { intros Hin. destruct (Hact ws Hin) as [cb Hl].
      rewrite Hfresh in Hl. discriminate. }
    unfold Hub.disconnect. subst s1. cbn.
    rewrite lookup_insert_eq. cbn.
    destruct s as [[act cbs] e d]. cbn in *.
    f_equal.
    + f_equal.
      * apply set_eq. intros x.
        rewrite elem_of_difference, elem_of_union, elem_of_singleton.
        split; [tauto |]. intros Hx. split; [right; exact Hx |].
        intros ->. contradiction.
      * rewrite delete_insert_eq. apply delete_id. exact Hfresh.
    + destruct e. cbn in *. unfold Engine.unsubscribe, Engine.subscribe,
        Engine.set_subscribers. cbn. f_equal.
      apply set_eq. intros x.
      rewrite elem_of_difference, elem_of_union, elem_of_singleton.
      split; [tauto |]. intros Hx. split; [right; exact Hx |].
      intros ->. contradiction.
Qed.

Lemma connect_then_disconnect_witness :
  Hub.disconnect 7 (Hub.connect 7 Hub.init) = Hub.init /\
  filter (fun d => dl_to d = 7)
         (snd (Hub.engine_broadcast (fun _ => false) (fun _ => false) (sample_state 1)
                 (Hub.connect 7 Hub.init)))
  = [Hub.send_json (fun _ => false) 7 (state_update (sample_state 1))].
Proof.
  pose proof (connect_then_disconnect 7 Hub.init hub_reach_init eq_refl) as H.
  cbn zeta in H. destruct H as (_ & _ & _ & Hone & _ & Hback).
  split; [exact Hback | apply Hone].
Defined.

(** X13 ([ConnectionManager.disconnect], [ConnectionManager.broadcast],
    [_broadcast_state]): in a state that the hub reaches, a disconnect
    removes the observer from the connections, from the callback table
    and from the engine's subscribers, so that neither a snapshot nor a
    status is sent to it afterwards; the other observers keep their
    registrations, and a second disconnect changes nothing. *)
Theorem disconnect_removes_observer (ws : websocket) (s : Hub.Server) :
  hub_reachable s ->
  let s' := Hub.disconnect ws s in
  (ws ∉ Hub.active_connections (Hub.manager s')) /\
  Hub._callbacks (Hub.manager s') !! ws = None /\
  (WsCallback ws ∉ Engine._subscribers (Hub.engine s')) /\
  (forall broken raises st d,
     d ∈ snd (Hub.engine_broadcast broken raises st s') -> dl_to d <> ws) /\
  (forall broken d,
     d ∈ snd (Hub._broadcast_status broken s') -> dl_to d <> ws) /\
  (forall ws', ws' <> ws ->
     (ws' ∈ Hub.active_connections (Hub.manager s')
      <-> ws' ∈ Hub.active_connections (Hub.manager s)) /\
     Hub._callbacks (Hub.manager s') !! ws' = Hub._callbacks (Hub.manager s) !! ws' /\
     (WsCallback ws' ∈ Engine._subscribers (Hub.engine s')
      <-> WsCallback ws' ∈ Engine._subscribers (Hub.engine s))) /\
  Hub.disconnect ws s' = s'.
Proof.
  intros Hreach s'.
  pose proof (hub_reachable_ok s Hreach) as (Hsub & Hcb & Hact).
  pose proof (hub_reachable_ok s' (hub_reach_disconnect ws s Hreach))
    as (Hsub' & Hcb' & Hact').
  assert (Hnact : ws ∉ Hub.active_connections (Hub.manager s')).
  { subst s'. unfold Hub.disconnect.
    destruct (Hub._callbacks (Hub.manager s) !! ws); cbn;
      rewrite elem_of_difference, elem_of_singleton; tauto. }
  assert (Hnone : Hub._callbacks (Hub.manager s') !! ws = None).
  { subst s'. unfold Hub.disconnect.
    destruct (Hub._callbacks (Hub.manager s) !! ws) eqn:Hws; cbn.
    - apply lookup_delete_eq.
    - exact Hws. }
  assert (Hnsub : WsCallback ws ∉ Engine._subscribers (Hub.engine s')).
  { intros Hin. destruct (Hsub' _ Hin) as (ws' & Heq & Hl).
    injection Heq as <-. rewrite Hnone in Hl. discriminate. }
  split; [exact Hnact |]. split; [exact Hnone |]. split; [exact Hnsub |].
  split; [| split; [| split]].
  - intros broken raises st d Hd Hto.
    assert (Hf : d ∈ filter (fun d => dl_to d = ws)
                       (snd (Hub.engine_broadcast broken raises st s'))).
    { apply list_elem_of_filter. split; assumption. }
    destruct (hub_snapshot_frame broken raises st s') as (_ & _ & _ & Hlog).
    rewrite Hlog, fan_out_to in Hf by apply NoDup_elements.
    destruct (decide (WsCallback ws ∈ elements (Engine._subscribers (Hub.engine s'))))
      as [Hin | _].
    + apply Hnsub. apply elem_of_elements. exact Hin.
    + revert Hf. apply not_elem_of_nil.
  - intros broken d Hd Hto.
    destruct (hub_status_frame broken s') as (_ & _ & _ & _ & Hlog).
    rewrite Hlog in Hd. apply list_elem_of_fmap in Hd as (c & -> & Hc).
    cbn in Hto. subst c. apply Hnact. apply elem_of_elements. exact Hc.
  - intros ws' Hne. subst s'. unfold Hub.disconnect.
    destruct (Hub._callbacks (Hub.manager s) !! ws) as [cb |] eqn:Hws; cbn.
    + pose proof (Hcb ws cb Hws) as ->.
      rewrite elem_of_difference, !elem_of_singleton.
      rewrite lookup_delete_ne by congruence.
      split; [tauto |]. split; [reflexivity |].
      rewrite elem_of_difference, elem_of_singleton.
      split; [tauto |]. intros Hin. split; [exact Hin | congruence].
    + rewrite elem_of_difference, elem_of_singleton. tauto.
  - unfold Hub.disconnect at 1. rewrite Hnone.
    destruct s' as [[act cbs] e d]. cbn in *. f_equal. f_equal.
    apply set_eq. intros x. rewrite elem_of_difference, elem_of_singleton.
    split; [tauto |]. intros Hx. split; [exact Hx |]. intros ->. contradiction.
Qed.

Lemma disconnect_removes_observer_witness :
  let s := Hub.connect 8 (Hub.connect 7 Hub.init) in
  (7 ∉ Hub.active_connections (Hub.manager (Hub.disconnect 7 s))) /\
  (8 ∈ Hub.active_connections (Hub.manager (Hub.disconnect 7 s))
   <-> 8 ∈ Hub.active_connections (Hub.manager s)).
Proof.
  assert (Hr : hub_reachable (Hub.connect 8 (Hub.connect 7 Hub.init))).
  { apply hub_reach_connect; [apply hub_reach_connect; [apply hub_reach_init |] |];
      vm_compute; reflexivity. }
  pose proof (disconnect_removes_observer 7 _ Hr) as H.
  cbn zeta in H. destruct H as (Hn & _ & _ & _ & _ & Hother & _).
  split; [exact Hn |]. apply (Hother 8). discriminate.
Defined.

Section ChannelLoop.
Variable broken : websocket -> bool.
Variable engine_action :
  websocket -> string -> json -> Hub.Server -> Hub.Server * list delivery.

Lemma handle_client_message_raises (ws : websocket) (data : json) (s : Hub.Server) :
  (exists e, Hub.handle_client_message broken engine_action ws data s = Raised e)
  <-> ~ dispatchable data.
Proof.
  unfold Hub.handle_client_message, dispatchable. split.
  - intros [e He] (fields & a & -> & Ha).
    cbn [json_get mbind outcome_bind] in He. rewrite Ha in He.
    cbn [json_lower mbind outcome_bind] in He.
    destruct (String.eqb (lower a) "ping"); [discriminate |].
    destruct (bool_decide (lower a ∈ Hub.known_actions)); discriminate.
  - intros Hn. destruct data as [| b | q | str | items | fields];
      try (eexists; reflexivity).
    cbn [json_get mbind outcome_bind].
    destruct (default (JString "") (fields_get "action" fields)) as [| b | q | a | items | fs] eqn:Ha;
      try (eexists; reflexivity).
    exfalso. apply Hn. exists fields, a. split; [reflexivity | exact Ha].
Qed.

(** X14 ([websocket_endpoint], [handle_client_message]): the receive loop
    of an observer ends exactly when [receive_json] raises something
    other than [JSONDecodeError] (the peer has gone, or the frame is one
    that it cannot take: binary, nested too deep, and the like), or a
    frame decodes to something that is not a dict with a string (or
    absent) action; it then disconnects the observer and sends nothing.
    A ping in any letter case is answered with one pong to the sender
    and changes no state. *)
Theorem receive_loop_ends_exactly_on (ws : websocket) (f : Hub.frame) (s : Hub.Server) :
  let r := Hub.endpoint_iteration broken engine_action ws f s in
  (snd r = false
   <-> f = Hub.Disconnected \/ (exists exc, f = Hub.Failed exc) \/
       exists data, f = Hub.Json data /\ ~ dispatchable data) /\
  (snd r = false -> fst r = (Hub.disconnect ws s, [])) /\
  (forall fields a,
     f = Hub.Json (JObject fields) ->
     default (JString "") (fields_get "action" fields) = JString a ->
     lower a = "ping" ->
     r = (s, [Hub.send_json broken ws pong], true)).
Proof.
  intros r. subst r. split; [| split].
  - destruct f as [data | | | exc]; cbn [Hub.endpoint_iteration].
    + destruct (Hub.handle_client_message broken engine_action ws data s)
        as [[s' log] | e] eqn:Hh; cbn.
      * split; [discriminate |].
        intros [Hd | [[exc Hx] | (data' & Heq & Hn)]]; [discriminate .. |].
        injection Heq as <-.
        apply (handle_client_message_raises ws data s) in Hn as [e He].
        rewrite Hh in He. discriminate.
      * split; [| reflexivity]. intros _. right. right. exists data.
        split; [reflexivity |]. apply (handle_client_message_raises ws data s).
        exists e. exact Hh.
    + cbn. split; [discriminate |].
      intros [Hd | [[exc Hx] | (data & Heq & _)]]; discriminate.
    + cbn. split; [| reflexivity]. intros _. left. reflexivity.
    + cbn. split; [| reflexivity]. intros _. right. left. exists exc. reflexivity.
  - destruct f as [data | | | exc]; cbn [Hub.endpoint_iteration].
    + destruct (Hub.handle_client_message broken engine_action ws data s)
        as [[s' log] | e]; cbn; [discriminate | reflexivity].
    + cbn. discriminate.
    + reflexivity.
    + reflexivity.
  - intros fields a -> Ha Hping.
    unfold Hub.endpoint_iteration, Hub.handle_client_message.
    cbn [json_get mbind outcome_bind]. rewrite Ha.
    cbn [json_lower mbind outcome_bind]. rewrite Hping. reflexivity.
Qed.
End ChannelLoop.

Lemma receive_loop_ends_exactly_on_witness :
  let broken := fun _ : websocket => false in
  let engine_action :=
    fun (_ : websocket) (_ : string) (_ : json) (s : Hub.Server) => (s, []) in
  let s := Hub.connect 1 Hub.init in
  Hub.endpoint_iteration broken engine_action 1
    (Hub.Json (JObject [("action", JString "Ping")])) s
  = (s, [Hub.send_json broken 1 pong], true) /\
  Hub.endpoint_iteration broken engine_action 1 (Hub.Failed "'text'") s
  = (Hub.disconnect 1 s, [], false).
Proof.
  intros broken engine_action s. split.
  - exact (proj2 (proj2 (receive_loop_ends_exactly_on broken engine_action 1
                           (Hub.Json (JObject [("action", JString "Ping")])) s))
             [("action", JString "Ping")] "Ping" eq_refl eq_refl eq_refl).
  - pose proof (receive_loop_ends_exactly_on broken engine_action 1
                  (Hub.Failed "'text'") s) as (Hiff & Hend & _).
    pose proof (Hend (proj2 Hiff (or_intror (or_introl (ex_intro _ _ eq_refl)))))
      as Hfst.
    rewrite (surjective_pairing (Hub.endpoint_iteration _ _ _ _ _)), Hfst.
    reflexivity.
Defined.

(** ** The adapter: [solve] and its fall-backs *)

Section SolveChain.
Variable Dss : Type.
Variable Solve : Solver.Settings -> Dss -> Dss.
Variable Converged : Dss -> bool.

(** X15.  [solve] raises exactly when no model is loaded.  Otherwise it
    runs the solver between one and four times, each time in snapshot
    mode with static controls and a tolerance of at most 0.01, goes on
    exactly as long as the last run did not converge, and returns the
    convergence flag of the last run; it reports a failure only after
    the fourth run, the one at tolerance 0.01 and 1000 iterations. *)
Theorem solve_runs_until_convergence (svc : OpenDSS.OpenDSSService) (c : Dss) :
  (OpenDSS._model_loaded svc = false ->
   Solver.solve Dss Solve Converged svc c
   = Raised "Model not loaded. Call load_model() first.") /\
  (OpenDSS._model_loaded svc = true ->
   exists (b : bool) (o : Solver.Settings) (c' : Dss) (runs : list Solver.Settings),
     Solver.solve Dss Solve Converged svc c = Ok (b, o, c') /\
     b = Converged c' /\
     c' = fold_left (fun c o => Solve o c) runs c /\
     last runs = Some o /\
     (1 <= length runs <= 4)%nat /\
     Forall (fun o => Solver.mode o = "snapshot" /\
                      Solver.controlmode o = "static" /\
                      (Solver.tolerance o <= 1 # 100)%Q) runs /\
     (forall k, (0 < k < length runs)%nat ->
        Converged (fold_left (fun c o => Solve o c) (take k runs) c) = false) /\
     (b = false ->
        length runs = 4%nat /\ (Solver.tolerance o == 1 # 100)%Q /\
        Solver.maxiterations o = 1000%Z)).
Proof.
  split; intros Hl; unfold Solver.solve; rewrite Hl; cbn [negb]; [reflexivity |].
  set (o1 := {| Solver.mode := "snapshot"; Solver.controlmode := "static";
                Solver.algorithm := "newton"; Solver.maxiterations := 300;
                Solver.tolerance := 1 # 10000 |}).
  set (o2 := Solver.set_maxiterations 500 (Solver.set_algorithm "normal" o1)).
  set (o3 := Solver.set_maxiterations 500
               (Solver.set_tolerance (1 # 1000) (Solver.set_algorithm "newton" o2))).
  set (o4 := Solver.set_maxiterations 1000 (Solver.set_tolerance (1 # 100) o3)).
  assert (Hall : Forall (fun o => Solver.mode o = "snapshot" /\
                                  Solver.controlmode o = "static" /\
                                  (Solver.tolerance o <= 1 # 100)%Q) [o1; o2; o3; o4]).
  { repeat constructor; cbn; discriminate. }
  destruct (Converged (Solve o1 c)) eqn:H1.
  - exists true, o1, (Solve o1 c), [o1].
    split; [reflexivity |]. split; [symmetry; exact H1 |].
    split; [reflexivity |]. split; [reflexivity |]. split; [cbn; lia |].
    split; [constructor; [apply (Forall_inv Hall) | constructor] |].
    split; [intros k Hk; cbn in Hk; lia | discriminate].
  - destruct (Converged (Solve o2 (Solve o1 c))) eqn:H2.
    + exists true, o2, (Solve o2 (Solve o1 c)), [o1; o2].
      split; [reflexivity |]. split; [symmetry; exact H2 |].
      split; [reflexivity |]. split; [reflexivity |]. split; [cbn; lia |].
      split.
      { inversion Hall as [| ? ? Ha1 Hall1]; subst.
        inversion Hall1 as [| ? ? Ha2 _]; subst. repeat constructor; tauto. }
      split; [| discriminate].
      intros k Hk. cbn in Hk. assert (k = 1%nat) as -> by lia. exact H1.
    + destruct (Converged (Solve o3 (Solve o2 (Solve o1 c)))) eqn:H3.
      * exists true, o3, (Solve o3 (Solve o2 (Solve o1 c))), [o1; o2; o3].
        split; [reflexivity |]. split; [symmetry; exact H3 |].
        split; [reflexivity |]. split; [reflexivity |]. split; [cbn; lia |].
        split.
        { inversion Hall as [| ? ? Ha1 Hall1]; subst.
          inversion Hall1 as [| ? ? Ha2 Hall2]; subst.
          inversion Hall2 as [| ? ? Ha3 _]; subst. repeat constructor; tauto. }
        split; [| discriminate].
        intros k Hk. cbn in Hk.
        assert (k = 1 \/ k = 2)%nat as [-> | ->] by lia; assumption.
      * exists (Converged (Solve o4 (Solve o3 (Solve o2 (Solve o1 c))))), o4,
          (Solve o4 (Solve o3 (Solve o2 (Solve o1 c)))), [o1; o2; o3; o4].
        split; [reflexivity |]. split; [reflexivity |].
        split; [reflexivity |]. split; [reflexivity |]. split; [cbn; lia |].
        split; [exact Hall |].
        split.
        -- intros k Hk. cbn in Hk.
           assert (k = 1 \/ k = 2 \/ k = 3)%nat as [-> | [-> | ->]] by lia; assumption.
        -- intros _. split; [reflexivity |]. split; reflexivity.
Qed.
End SolveChain.

(* On a solver that converges from a tolerance of 0.001 on. *)
Lemma solve_runs_until_convergence_witness :
  let loaded := fst (OpenDSS.load_model (Some "grid") OpenDSS.init) in
  let Solve := fun (o : Solver.Settings) (_ : bool) =>
                 Qle_bool (1 # 1000) (Solver.tolerance o) in
  OpenDSS._model_loaded loaded = true /\
  exists b o c' runs,
    Solver.solve bool Solve id loaded false = Ok (b, o, c') /\
    b = c' /\ last runs = Some o /\ (1 <= length runs <= 4)%nat.
Proof.
  intros loaded Solve. split; [reflexivity |].
  destruct (proj2 (solve_runs_until_convergence bool Solve id loaded false) eq_refl)
    as (b & o & c' & runs & Hs & Hb & _ & Hlast & Hlen & _).
  exists b, o, c', runs. repeat split; try assumption; apply Hlen.
Defined.

(** ** The adapter: the loads of a snapshot and their total *)

Lemma dict_set_fresh {V : Type} (k : string) (v : V) (d : list (string * V)) :
  k ∉ map fst d -> dict_set k v d = d ++ [(k, v)].
Proof.
  induction d as [| [k' v'] d IH]; intros Hk; cbn [dict_set].
  - reflexivity.
  - cbn in Hk. apply not_elem_of_cons in Hk as [Hne Hk].
    destruct (String.eqb_spec k k') as [-> | _]; [contradiction |].
    rewrite IH by exact Hk. reflexivity.
Qed.

Lemma fold_left_Qplus_from (xs : list Q) (a : Q) :
  (fold_left Qplus xs a == a + fold_left Qplus xs 0)%Q.
Proof.
  revert a. induction xs as [| x xs IH]; intros a; cbn [fold_left].
  - lra.
  - rewrite (IH (a + x)%Q), (IH (0 + x)%Q). lra.
Qed.

Lemma py_sum_cons (x : Q) (xs : list Q) : (py_sum (x :: xs) == x + py_sum xs)%Q.
Proof.
  unfold py_sum. cbn [fold_left]. rewrite fold_left_Qplus_from. lra.
Qed.

Lemma py_sum_scale {A : Type} (f : A -> Q) (m : Q) (l : list A) :
  (py_sum (map (fun a => f a * m) l) == py_sum (map f l) * m)%Q.
Proof.
  induction l as [| a l IH]; cbn [map].
  - unfold py_sum. cbn. lra.
  - rewrite !py_sum_cons, IH. lra.
Qed.

Lemma get_all_loads_from_distinct (mult : Q) (raw : list OpenDSS.RawLoad) :
  forall acc : list (string * LoadData.t),
    NoDup (map fst acc ++ map OpenDSS.Loads_Name raw) ->
    Forall (fun r => OpenDSS.Loads_Name r <> "") raw ->
    OpenDSS.get_all_loads_from mult raw acc = acc ++ map (scaled_load mult) raw.
Proof.
  induction raw as [| r raw IH]; intros acc Hnd Hne; cbn [OpenDSS.get_all_loads_from map].
  - rewrite app_nil_r. reflexivity.
  - apply Forall_cons in Hne as [Hr Hne].
    destruct (String.eqb_spec (OpenDSS.Loads_Name r) "") as [He | _]; [contradiction |].
    assert (Hfresh : OpenDSS.Loads_Name r ∉ map fst acc).
    { apply NoDup_app in Hnd as (_ & Hdisj & _). intros Hin.
      apply (Hdisj _ Hin). cbn. left. }
    rewrite dict_set_fresh by exact Hfresh.
    rewrite IH.
    + rewrite <- app_assoc. reflexivity.
    + rewrite map_app. cbn [map fst]. rewrite <- app_assoc. exact Hnd.
    + exact Hne.
Qed.

(** X16.  When the solver lists its loads under distinct names, the
    snapshot has one entry for each in the solver's order, with the
    nominal kW and kvar times the load multiplier.  [read_current_state]
    totals these entries; [get_grid_state] multiplies that total by the
    load multiplier once more, so that its total is the nominal total
    times the square of the multiplier, and is the total of its entries
    exactly when the multiplier is 1 or the entries add up to 0. *)
Theorem snapshot_loads_and_total (svc : OpenDSS.OpenDSSService) (c : OpenDSS.Circuit) :
  OpenDSS._model_loaded svc = true ->
  NoDup (map OpenDSS.Loads_Name (OpenDSS.Loads c)) ->
  Forall (fun r => OpenDSS.Loads_Name r <> "") (OpenDSS.Loads c) ->
  let mult := OpenDSS._current_load_mult svc in
  let nominal := py_sum (map OpenDSS.Loads_kW (OpenDSS.Loads c)) in
  exists solved read,
    OpenDSS.get_grid_state svc c = Ok solved /\
    OpenDSS.read_current_state svc c = Ok read /\
    loads solved = map (scaled_load mult) (OpenDSS.Loads c) /\
    loads read = loads solved /\
    (OpenDSS.sum_load_kw (loads solved) == nominal * mult)%Q /\
    (total_load_kw read == OpenDSS.sum_load_kw (loads read))%Q /\
    (total_load_kw solved == nominal * mult * mult)%Q /\
    ((total_load_kw solved == OpenDSS.sum_load_kw (loads solved))%Q
     <-> (mult == 1)%Q \/ (OpenDSS.sum_load_kw (loads solved) == 0)%Q).
Proof.
  intros Hl Hnd Hne mult nominal.
  unfold OpenDSS.get_grid_state, OpenDSS.read_current_state. rewrite Hl. cbn [negb].
  eexists. eexists. split; [reflexivity |]. split; [reflexivity |].
  cbn [loads total_load_kw].
  assert (Hloads : OpenDSS._get_all_loads svc c = map (scaled_load mult) (OpenDSS.Loads c)).
  { unfold OpenDSS._get_all_loads.
    rewrite get_all_loads_from_distinct; [reflexivity | exact Hnd | exact Hne]. }
  assert (Hsum : (OpenDSS.sum_load_kw (OpenDSS._get_all_loads svc c) == nominal * mult)%Q).
  { rewrite Hloads. unfold OpenDSS.sum_load_kw, dict_values.
    rewrite !map_map. cbn [scaled_load snd LoadData.kw].
    apply (py_sum_scale OpenDSS.Loads_kW mult). }
  split; [exact Hloads |]. split; [reflexivity |]. split; [exact Hsum |].
  split; [reflexivity |]. fold mult. split; [rewrite Hsum; reflexivity |].
  set (s := OpenDSS.sum_load_kw (OpenDSS._get_all_loads svc c)) in *.
  split.
  - intros Heq. destruct (Qeq_dec s 0) as [Hz | Hnz]; [right; exact Hz | left].
    assert (H : (s * (mult - 1) == 0)%Q) by lra.
    apply Qmult_integral in H as [H | H]; [contradiction | lra].
  - intros [H1 | H0]; [rewrite H1 | rewrite H0]; lra.
Qed.

Lemma snapshot_loads_and_total_witness :
  let svc := {| OpenDSS._model_loaded := true; OpenDSS._circuit_name := "grid";
                OpenDSS._current_load_mult := 1 # 2 |} in
  exists solved read,
    OpenDSS.get_grid_state svc sample_circuit = Ok solved /\
    OpenDSS.read_current_state svc sample_circuit = Ok read /\
    (total_load_kw read == 50)%Q /\ (total_load_kw solved == 25)%Q.
Proof.
  intros svc.
  assert (Hnd : NoDup (map OpenDSS.Loads_Name (OpenDSS.Loads sample_circuit))).
  { cbn. apply NoDup_singleton. }
  assert (Hne : Forall (fun r => OpenDSS.Loads_Name r <> "")
                  (OpenDSS.Loads sample_circuit)).
  { cbn. constructor; [discriminate | constructor]. }
  destruct (snapshot_loads_and_total svc sample_circuit eq_refl Hnd Hne)
    as (solved & read & Hs & Hr & _ & Heq & Hsum & Hread & Htot & _).
  exists solved, read. split; [exact Hs |]. split; [exact Hr |]. split.
  - rewrite Hread, Heq, Hsum. vm_compute. reflexivity.
  - rewrite Htot. vm_compute. reflexivity.
Defined.

(** ** The adapter: the voltage check *)

Section VoltageCheck.
Variable fmt4 : Q -> string.

Lemma insert_reverse_perm (x : Q * string) (l : list (Q * string)) :
  Adapter.insert_reverse x l ≡ₚ x :: l.
Proof.
  induction l as [| y l IH]; cbn [Adapter.insert_reverse].
  - reflexivity.
  - destruct (Engine.Qlt_bool (fst x) (fst y)); [| reflexivity].
    rewrite IH. apply Permutation_swap.
Qed.

Lemma insert_reverse_sorted (x : Q * string) (l : list (Q * string)) :
  StronglySorted worse_first l ->
  StronglySorted worse_first (Adapter.insert_reverse x l).
Proof.
  induction 1 as [| y l Hs IH Hall]; cbn [Adapter.insert_reverse].
  - repeat constructor.
  - destruct (Qlt_bool_spec (fst x) (fst y)) as [Hlt | Hge].
    + constructor; [exact IH |].
      apply Forall_forall. intros z Hz.
      rewrite insert_reverse_perm in Hz.
      apply elem_of_cons in Hz as [-> | Hz].
      * unfold worse_first. lra.
      * rewrite Forall_forall in Hall. apply Hall. exact Hz.
    + constructor; [constructor; assumption |].
      constructor; [exact Hge |].
      rewrite Forall_forall in Hall |- *. intros z Hz.
      specialize (Hall z Hz). unfold worse_first in *. lra.
Qed.

Lemma sort_reverse_perm (l : list (Q * string)) : Adapter.sort_reverse l ≡ₚ l.
Proof.
  induction l as [| x l IH]; cbn; [reflexivity |].
  rewrite insert_reverse_perm, IH. reflexivity.
Qed.

Lemma sort_reverse_sorted (l : list (Q * string)) :
  StronglySorted worse_first (Adapter.sort_reverse l).
Proof.
  induction l as [| x l IH]; cbn; [constructor |].
  apply insert_reverse_sorted. exact IH.
Qed.

(** The sort keeps a list that is in order as it is, ties included. *)
Lemma sort_reverse_stable (l : list (Q * string)) :
  StronglySorted worse_first l -> Adapter.sort_reverse l = l.
Proof.
  induction 1 as [| x l Hs IH Hall]; cbn; [reflexivity |].
  fold (Adapter.sort_reverse l). rewrite IH.
  destruct l as [| y l']; [reflexivity |]. cbn [Adapter.insert_reverse].
  apply Forall_inv in Hall. unfold worse_first in Hall.
  destruct (Qlt_bool_spec (fst x) (fst y)) as [Hlt | _]; [lra | reflexivity].
Qed.

Lemma node_violations_app (v_min v_max : Q) (name : string) (vs : list Q) :
  forall (i : nat) (acc : list (Q * string)),
    Adapter.node_violations fmt4 v_min v_max name i vs acc
    = acc ++ Adapter.node_violations fmt4 v_min v_max name i vs [].
Proof.
  induction vs as [| v vs IH]; intros i acc; cbn [Adapter.node_violations].
  - rewrite app_nil_r. reflexivity.
  - destruct (Engine.Qlt_bool (1 # 10) v
              && (Engine.Qlt_bool v v_min || Engine.Qlt_bool v_max v)).
    + rewrite (IH (S i) (acc ++ _)), (IH (S i) ([] ++ _)).
      rewrite <- app_assoc. reflexivity.
    + apply IH.
Qed.

Lemma violating_spec (v_min v_max v : Q) :
  Engine.Qlt_bool (1 # 10) v && (Engine.Qlt_bool v v_min || Engine.Qlt_bool v_max v)
  = true
  <-> (1 # 10 < v)%Q /\ ((v < v_min)%Q \/ (v_max < v)%Q).
Proof.
  destruct (Qlt_bool_spec (1 # 10) v), (Qlt_bool_spec v v_min),
    (Qlt_bool_spec v_max v); cbn; split;
    try discriminate; try tauto; intros [Ha [Hb | Hb]]; lra.
Qed.

Lemma node_violations_elem (v_min v_max : Q) (name : string) (vs : list Q) :
  forall (i : nat) (e : Q * string),
    e ∈ Adapter.node_violations fmt4 v_min v_max name i vs []
    <-> exists k v,
          vs !! k = Some v /\
          (1 # 10 < v)%Q /\ ((v < v_min)%Q \/ (v_max < v)%Q) /\
          e = ((Qabs (v - 1) * 100)%Q, Adapter.violation_message fmt4 name (i + k) v).
Proof.
  induction vs as [| v vs IH]; intros i e; cbn [Adapter.node_violations].
  - split.
    + intros Hin. exfalso. revert Hin. apply not_elem_of_nil.
    + intros (k & v & Hl & _). rewrite lookup_nil in Hl. discriminate.
  - assert (Hrest :
      e ∈ Adapter.node_violations fmt4 v_min v_max name (S i) vs []
      <-> exists k v',
            (v :: vs) !! S k = Some v' /\
            (1 # 10 < v')%Q /\ ((v' < v_min)%Q \/ (v_max < v')%Q) /\
            e = ((Qabs (v' - 1) * 100)%Q,
                 Adapter.violation_message fmt4 name (i + S k) v')).
    { rewrite IH. split; intros (k & v' & Hl & H1 & H2 & ->); exists k, v';
        cbn in Hl |- *; (split; [exact Hl |]); (split; [exact H1 |]);
        (split; [exact H2 |]); f_equal; f_equal; lia. }
    destruct (Engine.Qlt_bool (1 # 10) v
              && (Engine.Qlt_bool v v_min || Engine.Qlt_bool v_max v)) eqn:Hv.
    + rewrite node_violations_app. cbn [app].
      rewrite elem_of_cons, Hrest. apply violating_spec in Hv as [Hv1 Hv2].
      split.
      * intros [-> | (k & v' & H)].
        -- exists 0%nat, v. cbn. rewrite Nat.add_0_r. tauto.
        -- exists (S k), v'. exact H.
      * intros ([| k] & v' & Hl & H1 & H2 & ->).
        -- cbn in Hl. injection Hl as <-. left. rewrite Nat.add_0_r. reflexivity.
        -- right. exists k, v'. tauto.
    + rewrite Hrest. split.
      * intros (k & v' & H). exists (S k), v'. exact H.
      * intros ([| k] & v' & Hl & H1 & H2 & ->).
        -- cbn in Hl. injection Hl as <-.
           assert (Ht : Engine.Qlt_bool (1 # 10) v
                        && (Engine.Qlt_bool v v_min || Engine.Qlt_bool v_max v) = true)
             by (apply violating_spec; tauto).
           congruence.
        -- exists k, v'. tauto.
Qed.

Lemma bus_violations_app (v_min v_max : Q) (buses : list (string * BusData.t)) :
  forall acc : list (Q * string),
    Adapter.bus_violations fmt4 v_min v_max buses acc
    = acc ++ Adapter.bus_violations fmt4 v_min v_max buses [].
Proof.
  induction buses as [| [name bus] buses IH]; intros acc; cbn [Adapter.bus_violations].
  - rewrite app_nil_r. reflexivity.
  - destruct (Adapter.contains "source" (lower name)).
    + apply IH.
    + rewrite IH, (IH (Adapter.node_violations _ _ _ _ _ _ [])).
      rewrite node_violations_app, <- app_assoc. reflexivity.
Qed.

Lemma bus_violations_elem (v_min v_max : Q) (buses : list (string * BusData.t))
    (e : Q * string) :
  e ∈ Adapter.bus_violations fmt4 v_min v_max buses []
  <-> exists name bus,
        (name, bus) ∈ buses /\
        Adapter.contains "source" (lower name) = false /\
        e ∈ Adapter.node_violations fmt4 v_min v_max name 0 (BusData.voltage_pu bus) [].
Proof.
  induction buses as [| [name bus] buses IH]; cbn [Adapter.bus_violations].
  - split.
    + intros Hin. exfalso. revert Hin. apply not_elem_of_nil.
    + intros (n & b & Hin & _). exfalso. revert Hin. apply not_elem_of_nil.
  - destruct (Adapter.contains "source" (lower name)) eqn:Hsrc.
    + rewrite IH. split.
      * intros (n & b & Hin & H). exists n, b. split; [right; exact Hin | exact H].
      * intros (n & b & Hin & Hc & H). apply elem_of_cons in Hin as [Heq | Hin].
        -- injection Heq as -> ->. congruence.
        -- exists n, b. tauto.
    + rewrite bus_violations_app, elem_of_app, IH. split.
      * intros [Hin | (n & b & Hin & H)].
        -- exists name, bus. split; [left | tauto].
        -- exists n, b. split; [right; exact Hin | exact H].
      * intros (n & b & Hin & Hc & H). apply elem_of_cons in Hin as [Heq | Hin].
        -- injection Heq as -> ->. left. exact H.
        -- right. exists n, b. tauto.
Qed.

(** X17.  [_check_voltage_violations] with its default limits.  The
    readings it collects are those of the buses whose name has no
    "source" in it, above 0.1 pu and outside 0.90 to 1.10 pu, each with
    its deviation from nominal in percent, which is above 10.  It reports
    ten of them at most, the worst first: the report is the head of an
    ordering of all of them by falling deviation, and when they are
    collected in that order already, it is the first ten as collected.
    The report is empty exactly when there is no such reading. *)
Theorem voltage_check_reports_worst_ten (buses : list (string * BusData.t)) :
  let found := Adapter.bus_violations fmt4 Adapter.V_MIN Adapter.V_MAX buses [] in
  let report :=
    Adapter._check_voltage_violations fmt4 buses Adapter.V_MIN Adapter.V_MAX in
  (forall d msg,
     (d, msg) ∈ found
     <-> exists name bus k v,
           (name, bus) ∈ buses /\
           Adapter.contains "source" (lower name) = false /\
           BusData.voltage_pu bus !! k = Some v /\
           (1 # 10 < v)%Q /\ ((v < 9 # 10)%Q \/ (11 # 10 < v)%Q) /\
           d = (Qabs (v - 1) * 100)%Q /\
           msg = Adapter.violation_message fmt4 name k v) /\
  (forall d msg, (d, msg) ∈ found -> (10 < d)%Q) /\
  length report = Nat.min 10 (length found) /\
  (exists top rest,
     top ++ rest ≡ₚ found /\
     StronglySorted worse_first (top ++ rest) /\
     report = map snd top /\
     (rest <> [] -> length top = 10%nat)) /\
  (StronglySorted worse_first found -> report = map snd (take 10 found)) /\
  (report = []
   <-> forall name bus v,
         (name, bus) ∈ buses ->
         Adapter.contains "source" (lower name) = false ->
         v ∈ BusData.voltage_pu bus ->
         (v <= 1 # 10)%Q \/ (9 # 10 <= v <= 11 # 10)%Q).
Proof.
  intros found report.
  assert (Hfound : forall d msg,
     (d, msg) ∈ found
     <-> exists name bus k v,
           (name, bus) ∈ buses /\
           Adapter.contains "source" (lower name) = false /\
           BusData.voltage_pu bus !! k = Some v /\
           (1 # 10 < v)%Q /\ ((v < 9 # 10)%Q \/ (11 # 10 < v)%Q) /\
           d = (Qabs (v - 1) * 100)%Q /\
           msg = Adapter.violation_message fmt4 name k v).
  { intros d msg. subst found. rewrite bus_violations_elem. split.
    - intros (name & bus & Hin & Hsrc & He).
      apply node_violations_elem in He as (k & v & Hl & H1 & H2 & Heq).
      injection Heq as -> ->. exists name, bus, k, v.
      unfold Adapter.V_MIN, Adapter.V_MAX in H2.
      repeat split; try assumption. destruct H2; [left | right]; lra.
    - intros (name & bus & k & v & Hin & Hsrc & Hl & H1 & H2 & -> & ->).
      exists name, bus. split; [exact Hin |]. split; [exact Hsrc |].
      apply node_violations_elem. exists k, v. split; [exact Hl |].
      split; [exact H1 |]. unfold Adapter.V_MIN, Adapter.V_MAX.
      split; [destruct H2; [left | right]; lra | reflexivity]. }
  assert (Hlen : length report = Nat.min 10 (length found)).
  { subst report found. unfold Adapter._check_voltage_violations.
    rewrite length_map, length_take.
    rewrite (Permutation_length (sort_reverse_perm _)). reflexivity. }
  split; [exact Hfound |]. split; [| split; [exact Hlen |]; split; [| split]].
  - intros d msg Hin. apply Hfound in Hin
      as (name & bus & k & v & _ & _ & _ & H1 & H2 & -> & _).
    destruct (Qlt_le_dec (v - 1) 0) as [Hneg | Hpos].
    + rewrite Qabs_neg by lra. lra.
    + rewrite Qabs_pos by exact Hpos. lra.
  - exists (take 10 (Adapter.sort_reverse found)),
      (drop 10 (Adapter.sort_reverse found)).
    rewrite take_drop. split; [apply sort_reverse_perm |].
    split; [apply sort_reverse_sorted |]. split; [reflexivity |].
    intros Hrest. rewrite length_take.
    destruct (Nat.le_gt_cases (length (Adapter.sort_reverse found)) 10) as [Hle | Hgt];
      [| lia].
    exfalso. apply Hrest. apply drop_ge. exact Hle.
  - intros Hs. subst report. unfold Adapter._check_voltage_violations.
    fold found. rewrite (sort_reverse_stable found Hs). reflexivity.
  - split.
    + intros Hnil name bus v Hin Hsrc Hv.
      assert (Hf : found = []).
      { rewrite Hnil in Hlen. cbn in Hlen. destruct found; [reflexivity | cbn in Hlen; lia]. }
      destruct (Qlt_le_dec (1 # 10) v) as [H1 | H1]; [| left; exact H1].
      right. destruct (Qlt_le_dec v (9 # 10)) as [H2 | H2].
      * exfalso. apply list_elem_of_lookup in Hv as [k Hk].
        assert (Hin' : ((Qabs (v - 1) * 100)%Q,
                        Adapter.violation_message fmt4 name k v) ∈ found).
        { apply Hfound. exists name, bus, k, v. tauto. }
        rewrite Hf in Hin'. revert Hin'. apply not_elem_of_nil.
      * split; [exact H2 |].
        destruct (Qlt_le_dec (11 # 10) v) as [H3 | H3]; [| exact H3].
        exfalso. apply list_elem_of_lookup in Hv as [k Hk].
        assert (Hin' : ((Qabs (v - 1) * 100)%Q,
                        Adapter.violation_message fmt4 name k v) ∈ found).
        { apply Hfound. exists name, bus, k, v. tauto. }
        rewrite Hf in Hin'. revert Hin'. apply not_elem_of_nil.
    + intros Hnone.
      assert (Hf : found = []).
      { destruct found as [| [d msg] l] eqn:Hfd; [reflexivity |]. exfalso.
        assert (Hin : (d, msg) ∈ (d, msg) :: l) by left.
        apply Hfound in Hin as (name & bus & k & v & Hin & Hsrc & Hl & H1 & H2 & _).
        apply list_elem_of_lookup_2 in Hl.
        destruct (Hnone name bus v Hin Hsrc Hl) as [H | [Ha Hb]]; [lra |].
        destruct H2; lra. }
      subst report. unfold Adapter._check_voltage_violations.
      fold found. rewrite Hf. reflexivity.
Qed.
End VoltageCheck.

Lemma voltage_check_reports_worst_ten_witness :
  let fmt4 := fun v : Q => if Qle_bool 1 v then "high" else "low" in
  let bus := fun name vs => (name, BusData.mk name 11 vs [] (length vs) None) in
  let buses := [bus "SourceBus" [(1 # 2)%Q]; bus "b1" [(17 # 20)%Q; 1%Q; (6 # 5)%Q];
                bus "b2" [(1 # 20)%Q]] in
  Adapter._check_voltage_violations fmt4 buses Adapter.V_MIN Adapter.V_MAX
  = ["b1 (node 3): high pu"; "b1 (node 1): low pu"] /\
  length (Adapter._check_voltage_violations fmt4 buses Adapter.V_MIN Adapter.V_MAX)
  = Nat.min 10 (length (Adapter.bus_violations fmt4 Adapter.V_MIN Adapter.V_MAX buses [])).
Proof.
  intros fmt4 bus buses. split; [vm_compute; reflexivity |].
  exact (proj1 (proj2 (proj2 (voltage_check_reports_worst_ten fmt4 buses)))).
Defined.

(** ** The adapter: the overload check *)

Lemma fold_py_max_spec (xs : list Q) :
  forall x : Q,
    let m := fold_left EngineLoop.py_max xs x in
    m ∈ x :: xs /\ forall y, y ∈ x :: xs -> (y <= m)%Q.
Proof.
  induction xs as [| x' xs IH]; intros x; cbn [fold_left].
  - split; [left |]. intros y Hy. apply list_elem_of_singleton in Hy as ->. lra.
  - destruct (IH (EngineLoop.py_max x x')) as [Hin Hmax].
    destruct (py_max_spec x x') as (Hx & Hx' & Hor). split.
    + apply elem_of_cons in Hin as [Heq | Hin].
      * rewrite Heq. destruct Hor as [-> | ->]; [left | right; left].
      * right. right. exact Hin.
    + intros y Hy.
      assert (Hm : (EngineLoop.py_max x x'
                    <= fold_left EngineLoop.py_max xs (EngineLoop.py_max x x'))%Q)
        by (apply Hmax; left).
      apply elem_of_cons in Hy as [-> | Hy]; [lra |].
      apply elem_of_cons in Hy as [-> | Hy]; [lra |].
      apply Hmax. right. exact Hy.
Qed.

Lemma every_other_nil {A : Type} (l : list A) :
  Adapter.every_other l = [] <-> l = [].
Proof. destruct l; cbn; split; congruence. Qed.

Section OverloadCheck.
Variable fmt1 : Q -> string.

(** What the check makes of one line. *)
Lemma check_line_spec (threshold : Q) (r : Adapter.RawLine) (acc : list string) :
  (exists m,
     m ∈ phase_currents r /\ (forall y, y ∈ phase_currents r -> (y <= m)%Q) /\
     (0 < Adapter.Lines_NormAmps r)%Q /\
     (threshold < m / Adapter.Lines_NormAmps r * 100)%Q /\
     Adapter.check_line fmt1 threshold r acc
     = Ok (acc ++ [Adapter.overload_message fmt1 (Adapter.Lines_Name r)
                     (m / Adapter.Lines_NormAmps r * 100)%Q])) \/
  (Adapter.check_line fmt1 threshold r acc = Ok acc /\
   ((Adapter.Lines_NormAmps r <= 0)%Q \/
    forall y, y ∈ phase_currents r ->
              (y / Adapter.Lines_NormAmps r * 100 <= threshold)%Q)).
Proof.
  unfold Adapter.check_line, phase_currents.
  destruct (Qlt_bool_spec 0 (Adapter.Lines_NormAmps r)) as [Hn | Hn];
    [| right; split; [reflexivity | left; exact Hn]].
  destruct (Adapter.Line_CurrentsMagAng r) as [| c0 cs] eqn:Hc.
  - right. split; [reflexivity |]. right. cbn. intros y Hy.
    exfalso. revert Hy. apply not_elem_of_nil.
  - rewrite <- Hc.
    destruct (take 3 (Adapter.every_other (Adapter.Line_CurrentsMagAng r)))
      as [| x xs] eqn:Ht.
    { exfalso. rewrite Hc in Ht. cbn in Ht. discriminate. }
    cbn [Adapter.py_max_list mbind outcome_bind].
    destruct (fold_py_max_spec xs x) as [Hin Hmax]. cbn zeta in Hin, Hmax.
    set (m := fold_left EngineLoop.py_max xs x) in *.
    destruct (Qlt_bool_spec threshold (m / Adapter.Lines_NormAmps r * 100)) as [Ht' | Ht'].
    + left. exists m. repeat split; try assumption.
    + right. split; [reflexivity |]. right. intros y Hy.
      specialize (Hmax y Hy).
      assert (Hinv : (0 < / Adapter.Lines_NormAmps r)%Q) by (apply Qinv_lt_0_compat; exact Hn).
      unfold Qdiv in *. nra.
Qed.

Lemma check_overloads_from_spec (threshold : Q) (raw : list Adapter.RawLine) :
  forall acc : list string,
  exists over : list (Adapter.RawLine * Q),
    Adapter.check_overloads_from fmt1 threshold raw acc
    = Ok (acc ++ map (fun p => Adapter.overload_message fmt1
                                 (Adapter.Lines_Name (fst p)) (snd p)) over) /\
    sublist (map fst over) (lines_visited raw) /\
    (forall r, r ∈ lines_visited raw ->
       (r ∈ map fst over
        <-> (0 < Adapter.Lines_NormAmps r)%Q /\
            exists y, y ∈ phase_currents r /\
                      (threshold < y / Adapter.Lines_NormAmps r * 100)%Q)) /\
    (forall r x, (r, x) ∈ over ->
       exists m, m ∈ phase_currents r /\
                 (forall y, y ∈ phase_currents r -> (y <= m)%Q) /\
                 x = (m / Adapter.Lines_NormAmps r * 100)%Q).
Proof.
  induction raw as [| r raw IH]; intros acc;
    cbn [Adapter.check_overloads_from lines_visited].
  - exists []. cbn. rewrite app_nil_r. split; [reflexivity |].
    split; [constructor |]. split.
    + intros r Hr. exfalso. revert Hr. apply not_elem_of_nil.
    + intros r x Hr. exfalso. revert Hr. apply not_elem_of_nil.
  - destruct (String.eqb (Adapter.Lines_Name r) "").
    { exists []. cbn. rewrite app_nil_r. split; [reflexivity |].
      split; [constructor |]. split.
      + intros r0 Hr. exfalso. revert Hr. apply not_elem_of_nil.
      + intros r0 x Hr. exfalso. revert Hr. apply not_elem_of_nil. }
    destruct (check_line_spec threshold r acc)
      as [(m & Hm & Hmax & Hn & Ht & Hc) | (Hc & Hnot)];
      rewrite Hc; cbn [mbind outcome_bind].
    + destruct (IH (acc ++ [Adapter.overload_message fmt1 (Adapter.Lines_Name r)
                              (m / Adapter.Lines_NormAmps r * 100)%Q]))
        as (over & Hres & Hsub & Hiff & Hval).
      exists ((r, (m / Adapter.Lines_NormAmps r * 100)%Q) :: over).
      split; [rewrite Hres, <- app_assoc; reflexivity |].
      split; [cbn; constructor; exact Hsub |]. split.
      * intros r0 Hr0. cbn [map fst]. rewrite elem_of_cons. split.
        -- intros [-> | Hin].
           ++ split; [exact Hn |]. exists m. split; assumption.
           ++ apply Hiff; [| exact Hin]. eapply elem_of_sublist; eassumption.
        -- intros HP. apply elem_of_cons in Hr0 as [-> | Hr0]; [left; reflexivity |].
           right. apply Hiff; assumption.
      * intros r0 x Hin. apply elem_of_cons in Hin as [Heq | Hin].
        -- injection Heq as -> ->. exists m. repeat split; assumption.
        -- apply Hval. exact Hin.
    + destruct (IH acc) as (over & Hres & Hsub & Hiff & Hval).
      exists over. split; [exact Hres |].
      split; [apply sublist_cons; exact Hsub |]. split; [| exact Hval].
      intros r0 Hr0. split.
      * intros Hin. apply Hiff; [| exact Hin]. eapply elem_of_sublist; eassumption.
      * intros [Hn (y & Hy & Hty)].
        apply elem_of_cons in Hr0 as [-> | Hr0].
        -- exfalso. destruct Hnot as [Hle | Hall]; [lra |].
           specialize (Hall y Hy). lra.
        -- apply Hiff; [exact Hr0 |]. split; [exact Hn |]. exists y. tauto.
Qed.

(** X18.  [_check_overloads] with its default threshold of 100 percent
    never raises.  It looks at the lines before the first empty name, in
    their order, and reports a line exactly when its rating is positive
    and one of the first three current magnitudes is above the rating;
    the loading that it reports is the largest of these magnitudes in
    percent of the rating, which is above 100. *)
Theorem overload_check_reports_lines_above_rating (raw : list Adapter.RawLine) :
  exists (report : list string) (over : list (Adapter.RawLine * Q)),
    Adapter._check_overloads fmt1 100 raw = Ok report /\
    report = map (fun p => Adapter.overload_message fmt1
                             (Adapter.Lines_Name (fst p)) (snd p)) over /\
    sublist (map fst over) (lines_visited raw) /\
    (forall r, r ∈ lines_visited raw ->
       (r ∈ map fst over
        <-> (0 < Adapter.Lines_NormAmps r)%Q /\
            exists y, y ∈ phase_currents r /\ (Adapter.Lines_NormAmps r < y)%Q)) /\
    (forall r x, (r, x) ∈ over ->
       (100 < x)%Q /\
       exists m, m ∈ phase_currents r /\
                 (forall y, y ∈ phase_currents r -> (y <= m)%Q) /\
                 x = (m / Adapter.Lines_NormAmps r * 100)%Q).
Proof.
  unfold Adapter._check_overloads.
  destruct (check_overloads_from_spec 100 raw []) as (over & Hres & Hsub & Hiff & Hval).
  assert (Hscale : forall n y : Q, (0 < n)%Q -> (100 < y / n * 100)%Q <-> (n < y)%Q).
  { intros n y Hn.
    assert (Hinv : (0 < / n)%Q) by (apply Qinv_lt_0_compat; exact Hn).
    assert (Hone : (n * / n == 1)%Q) by (apply Qmult_inv_r; lra).
    unfold Qdiv. split; intros H; nra. }
  exists (map (fun p => Adapter.overload_message fmt1
                          (Adapter.Lines_Name (fst p)) (snd p)) over), over.
  split; [exact Hres |]. split; [reflexivity |]. split; [exact Hsub |]. split.
  - intros r Hr. rewrite (Hiff r Hr). split.
    + intros [Hn (y & Hy & Ht)]. split; [exact Hn |]. exists y.
      split; [exact Hy |]. apply (Hscale _ _ Hn). exact Ht.
    + intros [Hn (y & Hy & Ht)]. split; [exact Hn |]. exists y.
      split; [exact Hy |]. apply (Hscale _ _ Hn). exact Ht.
  - intros r x Hin. split; [| apply Hval; exact Hin].
    assert (Hr : r ∈ map fst over).
    { apply list_elem_of_fmap. exists (r, x). split; [reflexivity | exact Hin]. }
    destruct (Hval r x Hin) as (m & Hm & Hmax & ->).
    assert (Hvis : r ∈ lines_visited raw) by (eapply elem_of_sublist; eassumption).
    apply (Hiff r Hvis) in Hr as [Hn (y & Hy & Ht)].
    specialize (Hmax y Hy).
    assert (Hinv : (0 < / Adapter.Lines_NormAmps r)%Q)
      by (apply Qinv_lt_0_compat; exact Hn).
    unfold Qdiv in *. nra.
Qed.
End OverloadCheck.

(* A line at 250 A on a rating of 200 A, a line without a rating and,
   after the empty name that ends the walk, a line that is not looked
   at. *)
Lemma overload_check_reports_lines_above_rating_witness :
  let fmt1 := fun x : Q => pretty (Qfloor x) in
  let raw := [Adapter.mkRawLine "l1" 200 [150%Q; 0%Q; 250%Q; (-120)%Q; 90%Q; 120%Q];
              Adapter.mkRawLine "l2" 0 [900%Q; 0%Q];
              Adapter.mkRawLine "" 10 [];
              Adapter.mkRawLine "l4" 10 [900%Q; 0%Q]] in
  Adapter._check_overloads fmt1 100 raw = Ok ["Line.l1: 125%"] /\
  exists report, Adapter._check_overloads fmt1 100 raw = Ok report.
Proof.
  intros fmt1 raw. split; [vm_compute; reflexivity |].
  destruct (overload_check_reports_lines_above_rating fmt1 raw)
    as (report & _ & Hres & _).
  exists report. exact Hres.
Defined.

(** ** The adapter: the buses of a snapshot *)

Lemma every_other_interleave (mags : list Q) :
  forall angs : list Q,
    length mags = length angs ->
    Adapter.every_other (interleave mags angs) = mags /\
    Adapter.every_other (tail (interleave mags angs)) = angs.
Proof.
  induction mags as [| m mags IH]; intros [| a angs] Hlen; cbn in Hlen; try lia.
  - split; reflexivity.
  - destruct (IH angs ltac:(lia)) as [Hm Ha].
    cbn [interleave Adapter.every_other tail]. split.
    + rewrite Hm. reflexivity.
    + destruct (interleave mags angs) as [| x rest] eqn:Hi.
      * cbn in Ha. rewrite <- Ha. reflexivity.
      * cbn [tail] in Ha. rewrite Ha. reflexivity.
Qed.

Lemma get_all_buses_distinct (raw : list Adapter.RawBus) :
  forall acc : list (string * BusData.t),
    NoDup (map fst acc ++ map Adapter.Bus_Name raw) ->
    fold_left (fun buses r => dict_set (Adapter.Bus_Name r) (Adapter.bus_data r) buses)
      raw acc
    = acc ++ map (fun r => (Adapter.Bus_Name r, Adapter.bus_data r)) raw.
Proof.
  induction raw as [| r raw IH]; intros acc Hnd; cbn [fold_left map].
  - rewrite app_nil_r. reflexivity.
  - assert (Hfresh : Adapter.Bus_Name r ∉ map fst acc).
    { apply NoDup_app in Hnd as (_ & Hdisj & _). intros Hin.
      apply (Hdisj _ Hin). cbn. left. }
    rewrite dict_set_fresh by exact Hfresh. rewrite IH.
    + rewrite <- app_assoc. reflexivity.
    + rewrite map_app. cbn [map fst]. rewrite <- app_assoc. exact Hnd.
Qed.

(** X19.  When the solver lists its buses under distinct names,
    [_get_all_buses] has one entry for each, in the solver's order.  A
    bus whose voltage array is empty gets the single reading 0.0; one
    whose array holds magnitudes and angles in turn gets the first
    [NumNodes] magnitudes as its voltages and the first [NumNodes]
    angles as its angles, so never more readings than nodes. *)
Theorem get_all_buses_splits_voltages (raw : list Adapter.RawBus) :
  NoDup (map Adapter.Bus_Name raw) ->
  Adapter._get_all_buses raw
  = map (fun r => (Adapter.Bus_Name r, Adapter.bus_data r)) raw /\
  (forall r, r ∈ raw ->
     (Adapter.Bus_Name r, Adapter.bus_data r) ∈ Adapter._get_all_buses raw /\
     (Adapter.Bus_puVmagAngle r = [] ->
      BusData.voltage_pu (Adapter.bus_data r) = [0%Q] /\
      BusData.voltage_angle (Adapter.bus_data r) = [0%Q]) /\
     (forall mags angs,
        Adapter.Bus_puVmagAngle r = interleave mags angs ->
        length mags = length angs -> mags <> [] ->
        BusData.voltage_pu (Adapter.bus_data r) = take (Adapter.Bus_NumNodes r) mags /\
        BusData.voltage_angle (Adapter.bus_data r) = take (Adapter.Bus_NumNodes r) angs /\
        (length (BusData.voltage_pu (Adapter.bus_data r))
         <= Adapter.Bus_NumNodes r)%nat)).
Proof.
  intros Hnd.
  assert (Hall : Adapter._get_all_buses raw
                 = map (fun r => (Adapter.Bus_Name r, Adapter.bus_data r)) raw).
  { unfold Adapter._get_all_buses. rewrite get_all_buses_distinct; [reflexivity |].
    exact Hnd. }
  split; [exact Hall |]. intros r Hr. split; [| split].
  - rewrite Hall. apply list_elem_of_fmap. exists r. split; [reflexivity | exact Hr].
  - intros He. unfold Adapter.bus_data. cbn. rewrite He. split; reflexivity.
  - intros mags angs Hv Hlen Hne.
    destruct (every_other_interleave mags angs Hlen) as [Hm Ha].
    unfold Adapter.bus_data. cbn. rewrite Hv.
    destruct (interleave mags angs) as [| x rest] eqn:Hi.
    + exfalso. destruct mags as [| m mags]; [contradiction |].
      destruct angs; cbn in Hlen, Hi; [lia | discriminate].
    + rewrite Hm, Ha. split; [reflexivity |]. split; [reflexivity |].
      rewrite length_take. lia.
Qed.

Lemma get_all_buses_splits_voltages_witness :
  let raw := [Adapter.mkRawBus "sourcebus" [1%Q; 0%Q; 1%Q; (-120)%Q; 1%Q; 120%Q] 3 33 0 0;
              Adapter.mkRawBus "b1" [(19 # 20)%Q; 30%Q; (24 # 25)%Q; (-90)%Q] 1 11 5 7] in
  map (fun nb => (fst nb, BusData.voltage_pu (snd nb), BusData.voltage_angle (snd nb)))
      (Adapter._get_all_buses raw)
  = [("sourcebus", [1%Q; 1%Q; 1%Q], [0%Q; (-120)%Q; 120%Q]);
     ("b1", [(19 # 20)%Q], [30%Q])].
Proof.
  intros raw.
  assert (Hnd : NoDup (map Adapter.Bus_Name raw)).
  { apply (bool_decide_unpack _). vm_compute. exact I. }
  rewrite (proj1 (get_all_buses_splits_voltages raw Hnd)). reflexivity.
Defined.

(** ** The preparation of a day: synthetic weights *)

Lemma py_int_nonneg (x : Q) : (0 <= x)%Q -> py_int x = Qfloor x.
Proof.
  intros Hx. unfold py_int.
  destruct (Qle_bool_spec 0 x) as [_ | Hlt]; [reflexivity | lra].
Qed.

Lemma py_index_in_range (l : list Q) (i : Z) :
  (0 <= i < Z.of_nat (length l))%Z ->
  exists x, l !! Z.to_nat i = Some x /\ py_index l i = Ok x.
Proof.
  intros [H0 Hn]. unfold py_index.
  destruct (Z.ltb_spec i 0) as [Hneg | _]; [lia |].
  destruct (Z.leb_spec 0 i) as [_ | Hneg]; [| lia].
  destruct (Z.ltb_spec i (Z.of_nat (length l))) as [_ | Hge]; [| lia].
  cbn [andb].
  destruct (l !! Z.to_nat i) as [x |] eqn:Hl.
  - exists x. split; reflexivity.
  - apply lookup_ge_None in Hl. lia.
Qed.

Section SyntheticWeights.
Variable SYNTHETIC_PROFILES : gmap string (list Q).

(** X20.  [_get_synthetic_weight] for a load whose profile is in the
    table with its 24 hourly values, at an hour that is not negative:
    it returns a weight between the value of the hour of the day and
    that of the next hour, the value after 23 h being that of 0 h; at a
    whole hour it is the value of that hour. *)
Theorem synthetic_weight_interpolates (load : Disaggregate.load_info)
    (profile : list Q) (hour : Q) :
  SYNTHETIC_PROFILES !! Disaggregate.synthetic_profile load = Some profile ->
  length profile = 24%nat ->
  (0 <= hour)%Q ->
  exists a b w,
    profile !! Z.to_nat (Qfloor hour mod 24) = Some a /\
    profile !! Z.to_nat ((Qfloor hour + 1) mod 24) = Some b /\
    Disaggregate._get_synthetic_weight SYNTHETIC_PROFILES load hour = Ok w /\
    ((a <= w <= b)%Q \/ (b <= w <= a)%Q) /\
    ((hour == inject_Z (Qfloor hour))%Q -> (w == a)%Q).
Proof.
  intros Hp Hlen Hh. unfold Disaggregate._get_synthetic_weight. rewrite Hp.
  rewrite (py_int_nonneg hour Hh).
  assert (Hidx : (0 <= Qfloor hour mod 24 < 24)%Z) by (apply Z.mod_pos_bound; lia).
  assert (Hnext : ((Qfloor hour mod 24 + 1) mod 24 = (Qfloor hour + 1) mod 24)%Z).
  { rewrite Zplus_mod_idemp_l. reflexivity. }
  rewrite Hnext.
  assert (Hidx' : (0 <= (Qfloor hour + 1) mod 24 < 24)%Z) by (apply Z.mod_pos_bound; lia).
  destruct (py_index_in_range profile (Qfloor hour mod 24)) as (a & Ha & Hia);
    [rewrite Hlen; lia |].
  destruct (py_index_in_range profile ((Qfloor hour + 1) mod 24)) as (b & Hb & Hib);
    [rewrite Hlen; lia |].
  rewrite Hia, Hib. cbn [mbind outcome_bind].
  exists a, b. eexists. split; [exact Ha |]. split; [exact Hb |].
  split; [reflexivity |].
  pose proof (Qfloor_le hour) as Hlo. pose proof (Qlt_floor hour) as Hhi.
  rewrite inject_Z_plus in Hhi. change (inject_Z 1) with 1%Q in Hhi.
  set (f := (hour - inject_Z (Qfloor hour))%Q).
  assert (Hf : (0 <= f < 1)%Q) by (unfold f; split; lra).
  split.
  - destruct (Qlt_le_dec a b) as [Hab | Hba]; [left | right].
    + assert (H1 : (0 <= f * (b - a))%Q) by (apply Qmult_le_0_compat; lra).
      assert (H2 : (0 <= (1 - f) * (b - a))%Q) by (apply Qmult_le_0_compat; lra).
      split; lra.
    + assert (H1 : (0 <= f * (a - b))%Q) by (apply Qmult_le_0_compat; lra).
      assert (H2 : (0 <= (1 - f) * (a - b))%Q) by (apply Qmult_le_0_compat; lra).
      split; lra.
  - intros Hwhole. assert (Hf0 : (f == 0)%Q) by (unfold f; lra).
    rewrite Hf0. lra.
Qed.
End SyntheticWeights.

Lemma synthetic_weight_interpolates_witness :
  let Residential_Daily : list Q :=
    [35 # 100; 30 # 100; 28 # 100; 27 # 100; 28 # 100; 45 # 100; 70 # 100; 75 # 100;
     55 # 100; 40 # 100; 35 # 100; 35 # 100; 40 # 100; 45 # 100; 50 # 100; 55 # 100;
     60 # 100; 75 # 100; 95 # 100; 1; 90 # 100; 75 # 100; 55 # 100; 42 # 100]%Q in
  let profiles : gmap string (list Q) := {[ "Residential_Daily" := Residential_Daily ]} in
  let load := Disaggregate.mkLoad "F06_Residential" 700 "Residential_Daily" in
  exists w,
    Disaggregate._get_synthetic_weight profiles load (95 # 4) = Ok w /\
    ((42 # 100 <= w <= 35 # 100)%Q \/ (35 # 100 <= w <= 42 # 100)%Q).
Proof.
  intros Residential_Daily profiles load.
  assert (H0 : (0 <= 95 # 4)%Q) by discriminate.
  destruct (synthetic_weight_interpolates profiles load Residential_Daily (95 # 4)
              eq_refl eq_refl H0) as (a & b & w & Ha & Hb & Hw & Hbetween & _).
  vm_compute in Ha. injection Ha as <-.
  vm_compute in Hb. injection Hb as <-.
  exists w. split; [exact Hw | exact Hbetween].
Defined.

(** ** The preparation of a day: the multipliers of an interval *)

Lemma round_half_even_spec (x : Q) :
  (Qabs (inject_Z (round_half_even x) - x) <= 1 # 2)%Q /\
  (forall n : Z, (inject_Z n <= x)%Q -> (n <= round_half_even x)%Z) /\
  (forall n : Z, (x <= inject_Z n)%Q -> (round_half_even x <= n)%Z).
Proof.
  pose proof (Qfloor_le x) as Hlo. pose proof (Qlt_floor x) as Hhi.
  rewrite inject_Z_plus in Hhi. change (inject_Z 1) with 1%Q in Hhi.
  assert (Hup : forall n : Z, (x <= inject_Z n)%Q -> (inject_Z (Qfloor x) < x)%Q ->
                              (Qfloor x + 1 <= n)%Z).
  { intros n Hn Hlt. assert (Hq : (inject_Z (Qfloor x) < inject_Z n)%Q) by lra.
    rewrite <- Zlt_Qlt in Hq. lia. }
  assert (Hdown : forall n : Z, (inject_Z n <= x)%Q -> (n <= Qfloor x)%Z).
  { intros n Hn. apply Qfloor_resp_le in Hn. rewrite Qfloor_Z in Hn. exact Hn. }
  assert (Hfl : forall n : Z, (x <= inject_Z n)%Q -> (Qfloor x <= n)%Z).
  { intros n Hn. apply Qfloor_resp_le in Hn. rewrite Qfloor_Z in Hn. exact Hn. }
  unfold round_half_even.
  destruct (Qlt_bool_spec (x - inject_Z (Qfloor x)) (1 # 2)) as [Hr | Hr].
  - split; [apply Qabs_Qle_condition; split; lra |].
    split; [exact Hdown | exact Hfl].
  - assert (Hpos : (inject_Z (Qfloor x) < x)%Q) by lra.
    assert (Hplus : (Qabs (inject_Z (Qfloor x + 1) - x) <= 1 # 2)%Q).
    { rewrite inject_Z_plus. change (inject_Z 1) with 1%Q.
      apply Qabs_Qle_condition. split; lra. }
    destruct (Qlt_bool_spec (1 # 2) (x - inject_Z (Qfloor x))) as [Hr' | Hr'].
    + split; [exact Hplus |]. split.
      * intros n Hn. specialize (Hdown n Hn). lia.
      * intros n Hn. apply Hup; assumption.
    + destruct (Z.even (Qfloor x)).
      * split; [apply Qabs_Qle_condition; split; lra |].
        split; [exact Hdown | exact Hfl].
      * split; [exact Hplus |]. split.
        -- intros n Hn. specialize (Hdown n Hn). lia.
        -- intros n Hn. apply Hup; assumption.
Qed.

Lemma py_round4_spec (x : Q) :
  (Qabs (py_round4 x - x) <= 1 # 20000)%Q /\
  ((1 # 100 <= x)%Q -> (1 # 100 <= py_round4 x)%Q) /\
  ((x <= 3)%Q -> (py_round4 x <= 3)%Q).
Proof.
  destruct (round_half_even_spec (x * 10000)) as (Habs & Hlo & Hhi).
  unfold py_round4. set (r := round_half_even (x * 10000)) in *.
  apply Qabs_Qle_condition in Habs as [Ha Hb].
  assert (Hdiv : (inject_Z r / 10000 == inject_Z r * (1 # 10000))%Q) by (unfold Qdiv; reflexivity).
  split; [| split].
  - apply Qabs_Qle_condition. rewrite Hdiv. split; lra.
  - intros Hx. assert (H : (100 <= r)%Z).
    { apply Hlo. change (inject_Z 100) with 100%Q. lra. }
    rewrite Zle_Qle in H. change (inject_Z 100) with 100%Q in H.
    rewrite Hdiv. lra.
  - intros Hx. assert (H : (r <= 30000)%Z).
    { apply Hhi. change (inject_Z 30000) with 30000%Q. lra. }
    rewrite Zle_Qle in H. change (inject_Z 30000) with 30000%Q in H.
    rewrite Hdiv. lra.
Qed.

Section Allocation.
Variable SYNTHETIC_PROFILES : gmap string (list Q).

Lemma multiplier_bounds (gross total_weight : Q) (load : Disaggregate.load_info) (w : Q) :
  (1 # 100 <= Disaggregate.multiplier gross total_weight load w <= 3)%Q.
Proof.
  unfold Disaggregate.multiplier.
  set (mult := if Engine.Qlt_bool 0 (Disaggregate.kw load) then _ else _).
  destruct (py_min_spec mult 3) as (_ & Hmin & _).
  destruct (py_max_spec (1 # 100) (EngineLoop.py_min mult 3)) as (Hlo & _ & Hor).
  destruct (py_round4_spec (EngineLoop.py_max (1 # 100) (EngineLoop.py_min mult 3)))
    as (_ & Hrlo & Hrhi).
  split; [apply Hrlo; exact Hlo |]. apply Hrhi.
  destruct Hor as [-> | ->]; [discriminate | exact Hmin].
Qed.

Lemma multiplier_accuracy (gross total_weight : Q) (load : Disaggregate.load_info)
    (w : Q) :
  (0 < Disaggregate.kw load)%Q ->
  (1 # 100 <= gross * (w / total_weight) / Disaggregate.kw load <= 3)%Q ->
  (Qabs (Disaggregate.kw load * Disaggregate.multiplier gross total_weight load w
         - gross * (w / total_weight))
   <= Disaggregate.kw load * (1 # 20000))%Q.
Proof.
  intros Hkw [Hlo Hhi]. unfold Disaggregate.multiplier.
  destruct (Qlt_bool_spec 0 (Disaggregate.kw load)) as [_ | Hle]; [| lra].
  set (x := (gross * (w / total_weight) / Disaggregate.kw load)%Q) in *.
  set (c := EngineLoop.py_max (1 # 100) (EngineLoop.py_min x 3)).
  assert (Hc : (c == x)%Q).
  { unfold c, EngineLoop.py_max, EngineLoop.py_min.
    destruct (Qlt_bool_spec 3 x) as [H3 | _]; [lra |].
    destruct (Qlt_bool_spec (1 # 100) x) as [_ | H1]; [reflexivity | lra]. }
  destruct (py_round4_spec c) as (Habs & _ & _).
  apply Qabs_Qle_condition in Habs as [Ha Hb].
  assert (Hx : (Disaggregate.kw load * x == gross * (w / total_weight))%Q).
  { unfold x. apply Qmult_div_r. lra. }
  apply Qabs_Qle_condition. rewrite <- Hx.
  assert (Hkc : (Disaggregate.kw load * c == Disaggregate.kw load * x)%Q)
    by (rewrite Hc; reflexivity).
  assert (P1 : (0 <= Disaggregate.kw load * (py_round4 c - c + (1 # 20000)))%Q)
    by (apply Qmult_le_0_compat; lra).
  assert (P2 : (0 <= Disaggregate.kw load * ((1 # 20000) - (py_round4 c - c)))%Q)
    by (apply Qmult_le_0_compat; lra).
  split; lra.
Qed.

Lemma zip_multipliers_accuracy (gross total_weight : Q)
    (loads : list Disaggregate.load_info) :
  forall ws : list Q,
    Forall2 (fun load w =>
               (0 < Disaggregate.kw load)%Q /\
               (1 # 100 <= gross * (w / total_weight) / Disaggregate.kw load <= 3)%Q)
            loads ws ->
    (Qabs (py_sum (zip_with (fun load p => Disaggregate.kw load * snd p)%Q loads
                     (zip_with (fun load w =>
                                  (Disaggregate.name load,
                                   Disaggregate.multiplier gross total_weight load w))
                               loads ws))
           - gross * (py_sum ws / total_weight))
     <= py_sum (map Disaggregate.kw loads) * (1 # 20000))%Q.
Proof.
  induction loads as [| load loads IH]; intros ws H.
  - apply Forall2_nil_inv_l in H as ->. cbn [zip_with map].
    unfold py_sum. cbn [fold_left].
    apply Qabs_Qle_condition. unfold Qdiv. split; lra.
  - apply Forall2_cons_inv_l in H as (w & ws' & [Hkw Hb] & Hrest & ->).
    specialize (IH ws' Hrest). cbn [zip_with map snd].
    pose proof (multiplier_accuracy gross total_weight load w Hkw Hb) as Hone.
    rewrite !py_sum_cons.
    apply Qabs_Qle_condition in IH as [I1 I2].
    apply Qabs_Qle_condition in Hone as [O1 O2].
    apply Qabs_Qle_condition. unfold Qdiv in *. split; lra.
Qed.

(** X21.  One interval of [disaggregate] for a feeder that has data,
    once the synthetic weights of its loads are found.  Each load gets
    one multiplier, in the order of the loads, and every multiplier lies
    between 0.01 and 3.  When the weights do not add up to zero, every
    load has a positive rating and no multiplier meets a limit, the
    loads at their multipliers add up to the gross load of the feeder,
    up to half a unit of the fourth decimal for each kW of rating. *)
Theorem disaggregate_interval_shares (gross : Q) (loads : list Disaggregate.load_info)
    (hour : Q) (ws : list Q) :
  Disaggregate.interval_weights SYNTHETIC_PROFILES loads hour = Ok ws ->
  exists out,
    Disaggregate.disaggregate_interval SYNTHETIC_PROFILES gross loads hour = Ok out /\
    map fst out = map Disaggregate.name loads /\
    Forall (fun p => (1 # 100 <= snd p <= 3)%Q) out /\
    (~ (py_sum ws == 0)%Q ->
     Forall2 (fun load w =>
                (0 < Disaggregate.kw load)%Q /\
                (1 # 100 <= gross * (w / py_sum ws) / Disaggregate.kw load <= 3)%Q)
             loads ws ->
     (Qabs (py_sum (zip_with (fun load p => Disaggregate.kw load * snd p)%Q loads out)
            - gross)
      <= py_sum (map Disaggregate.kw loads) * (1 # 20000))%Q).
Proof.
  intros Hws. unfold Disaggregate.disaggregate_interval. rewrite Hws.
  cbn [mbind outcome_bind].
  set (W := if Qeq_bool (py_sum ws) 0 then 1%Q else py_sum ws).
  eexists. split; [reflexivity |].
  assert (Hlen : length ws = length loads).
  { clear W. revert ws Hws. induction loads as [| load loads IH]; intros ws Hws;
      cbn [Disaggregate.interval_weights] in Hws.
    - injection Hws as <-. reflexivity.
    - destruct (Disaggregate._get_synthetic_weight SYNTHETIC_PROFILES load hour)
        as [w |]; cbn [mbind outcome_bind] in Hws; [| discriminate].
      destruct (Disaggregate.interval_weights SYNTHETIC_PROFILES loads hour)
        as [ws' |]; cbn [mbind outcome_bind] in Hws; [| discriminate].
      injection Hws as <-. cbn. rewrite (IH ws' eq_refl). reflexivity. }
  split; [| split].
  - clearbody W. clear Hws. revert ws Hlen. induction loads as [| load loads IH];
      intros [| w ws] Hlen; cbn in Hlen |- *; try lia; try reflexivity.
    rewrite IH by lia. reflexivity.
  - clearbody W. clear Hws Hlen. revert ws. induction loads as [| load loads IH];
      intros [| w ws]; cbn [zip_with]; try constructor.
    + cbn [snd]. apply multiplier_bounds.
    + apply IH.
  - intros Hnz Hall.
    assert (HW : W = py_sum ws).
    { unfold W. destruct (Qeq_bool (py_sum ws) 0) eqn:He; [| reflexivity].
      apply Qeq_bool_eq in He. contradiction. }
    rewrite HW.
    pose proof (zip_multipliers_accuracy gross (py_sum ws) loads ws Hall) as Hacc.
    assert (Hone : (gross * (py_sum ws / py_sum ws) == gross)%Q) by (field; exact Hnz).
    rewrite Hone in Hacc. exact Hacc.
Qed.
End Allocation.

Lemma disaggregate_interval_shares_witness :
  let flat : list Q := replicate 24 (1 # 2)%Q in
  let profiles : gmap string (list Q) := {[ "Flat" := flat ]} in
  let loads := [Disaggregate.mkLoad "A" 4000 "Flat"; Disaggregate.mkLoad "B" 1000 "Flat"] in
  exists out,
    Disaggregate.disaggregate_interval profiles 2500 loads (13 # 4) = Ok out /\
    map fst out = ["A"; "B"] /\
    Forall (fun p => (1 # 100 <= snd p <= 3)%Q) out /\
    (Qabs (py_sum (zip_with (fun load p => Disaggregate.kw load * snd p)%Q loads out)
           - 2500)
     <= py_sum (map Disaggregate.kw loads) * (1 # 20000))%Q.
Proof.
  intros flat profiles loads.
  destruct (Disaggregate.interval_weights profiles loads (13 # 4)) as [ws |] eqn:Hws;
    [| vm_compute in Hws; discriminate].
  pose proof Hws as Hval. vm_compute in Hval. injection Hval as Hval.
  destruct (disaggregate_interval_shares profiles 2500 loads (13 # 4) ws Hws)
    as (out & Hout & Hnames & Hb & Hsum).
  exists out. split; [exact Hout |]. split; [exact Hnames |]. split; [exact Hb |].
  apply Hsum; subst ws.
  - vm_compute. discriminate.
  - repeat constructor; vm_compute; congruence.
Defined.

(** ** The preparation of a day: the 96 values of a load shape *)

Lemma py_index_last (l : list Q) :
  match last l with
  | Some x => py_index l (-1) = Ok x
  | None => py_index l (-1) = Raised "list index out of range"
  end.
Proof.
  rewrite last_lookup. unfold py_index. cbn [Z.ltb Z.compare].
  destruct l as [| a l]; [reflexivity |].
  cbn [length Init.Nat.pred].
  replace (Z.to_nat (-1 + Z.of_nat (S (length l)))) with (length l) by lia.
  destruct (Z.leb_spec 0 (-1 + Z.of_nat (S (length l)))) as [_ | Hneg]; [| lia].
  destruct (Z.ltb_spec (-1 + Z.of_nat (S (length l))) (Z.of_nat (S (length l))))
    as [_ | Hge]; [| lia].
  cbn [andb]. destruct ((a :: l) !! length l) as [x |] eqn:Hl; [reflexivity |].
  apply lookup_ge_None in Hl. cbn in Hl. lia.
Qed.

(** X22.  The padding and trimming of [generate_load_shapes].  An empty
    multiplier list raises an [IndexError].  Any other list comes out
    with 96 values: its own first 96 values, followed, when it is
    shorter, by copies of its last value; and a list of 96 values comes
    out as it is. *)
Theorem fit_96_pads_or_trims (mults : list Q) :
  (mults = [] -> LoadShapes.fit_96 mults = Raised "list index out of range") /\
  (mults <> [] ->
   exists out x,
     LoadShapes.fit_96 mults = Ok out /\
     length out = 96%nat /\
     last mults = Some x /\
     out = take 96 mults ++ replicate (96 - length mults) x /\
     LoadShapes.fit_96 out = Ok out) /\
  (length mults = 96%nat -> LoadShapes.fit_96 mults = Ok mults).
Proof.
  split; [intros ->; reflexivity |]. split.
  - intros Hne. unfold LoadShapes.fit_96 at 1.
    pose proof (py_index_last mults) as Hlast.
    destruct (last mults) as [x |] eqn:Hx.
    2:{ exfalso. apply Hne. apply last_None. exact Hx. }
    assert (Hfix : forall out : list Q, length out = 96%nat ->
                                        LoadShapes.fit_96 out = Ok out).
    { intros out Hl. unfold LoadShapes.fit_96. rewrite Hl. reflexivity. }
    destruct (Nat.eqb_spec (length mults) 96) as [Heq | Hneq].
    + exists mults, x. split; [reflexivity |]. split; [exact Heq |].
      split; [reflexivity |]. split; [| apply Hfix; exact Heq].
      rewrite Heq, Nat.sub_diag, take_ge by lia. cbn. rewrite app_nil_r. reflexivity.
    + destruct (Nat.ltb_spec (length mults) 96) as [Hlt | Hge].
      * rewrite Hlast. cbn [mbind outcome_bind].
        exists (mults ++ replicate (96 - length mults) x), x.
        assert (Hlen : length (mults ++ replicate (96 - length mults) x) = 96%nat)
          by (rewrite length_app, length_replicate; lia).
        split; [reflexivity |]. split; [exact Hlen |]. split; [reflexivity |].
        split; [rewrite take_ge by lia; reflexivity | apply Hfix; exact Hlen].
      * exists (take 96 mults), x.
        assert (Hlen : length (take 96 mults) = 96%nat) by (rewrite length_take; lia).
        split; [reflexivity |]. split; [exact Hlen |]. split; [reflexivity |].
        split; [| apply Hfix; exact Hlen].
        replace (96 - length mults)%nat with 0%nat by lia. cbn.
        rewrite app_nil_r. reflexivity.
  - intros Hl. unfold LoadShapes.fit_96. rewrite Hl. reflexivity.
Qed.

Lemma fit_96_pads_or_trims_witness :
  LoadShapes.fit_96 [(1 # 2)%Q; (3 # 4)%Q]
  = Ok ([(1 # 2)%Q; (3 # 4)%Q] ++ replicate 94 (3 # 4)%Q).
Proof.
  assert (Hne : [(1 # 2)%Q; (3 # 4)%Q] <> []) by discriminate.
  destruct (proj1 (proj2 (fit_96_pads_or_trims [(1 # 2)%Q; (3 # 4)%Q])) Hne)
    as (out & x & Hout & _ & Hlast & Hshape & _).
  cbn in Hlast. injection Hlast as <-. rewrite Hout, Hshape. reflexivity.
Defined.

(** ** The preparation of a day: the date references of the model files *)

Section DateUpdate.

Lemma digit_is_no_follower (c : ascii) :
  DateUpdater.is_digit c = true ->
  DateUpdater.is_space c || Ascii.eqb c "." = false.
Proof.
  destruct c as [[] [] [] [] [] [] [] []]; vm_compute; intros H;
    try reflexivity; discriminate.
Qed.

Lemma same_shape_refl (s : string) : same_shape s s.
Proof. induction s as [| c s IH]; cbn; [exact I | split; [left; reflexivity | exact IH]]. Qed.

Lemma same_shape_length (s : string) :
  forall t, same_shape s t -> String.length s = String.length t.
Proof.
  induction s as [| c s IH]; intros [| d t] H; cbn in H |- *; try contradiction.
  - reflexivity.
  - destruct H as [_ H]. rewrite (IH t H). reflexivity.
Qed.

Lemma same_shape_digits (n : nat) :
  forall s t, same_shape s t ->
    match DateUpdater.digits n s, DateUpdater.digits n t with
    | Some r, Some r' => same_shape r r'
    | None, None => True
    | _, _ => False
    end.
Proof.
  induction n as [| n IH]; intros s t H; cbn [DateUpdater.digits]; [exact H |].
  destruct s as [| c s], t as [| d t]; cbn in H; try contradiction; [exact I |].
  destruct H as [[-> | [Hc Hd]] H].
  - destruct (DateUpdater.is_digit d); [apply IH; exact H | exact I].
  - rewrite Hc, Hd. apply IH. exact H.
Qed.

Lemma same_shape_match_here (s t : string) :
  same_shape s t -> DateUpdater.match_here s = DateUpdater.match_here t.
Proof.
  intros H. unfold DateUpdater.match_here.
  pose proof (same_shape_digits 8 s t H) as Hd.
  destruct (DateUpdater.digits 8 s) as [r |], (DateUpdater.digits 8 t) as [r' |];
    try contradiction; [| reflexivity].
  destruct r as [| c r], r' as [| d r']; cbn in Hd; try contradiction; [reflexivity |].
  destruct Hd as [[-> | [Hc Hd]] _]; [reflexivity |].
  rewrite (digit_is_no_follower c Hc), (digit_is_no_follower d Hd). reflexivity.
Qed.

Lemma digits_app (n : nat) :
  forall r x, DateUpdater.digits n r = Some EmptyString ->
              DateUpdater.digits n (r +:+ x) = Some x.
Proof.
  induction n as [| n IH]; intros r x H; cbn [DateUpdater.digits] in *.
  - injection H as ->. reflexivity.
  - destruct r as [| c r]; [discriminate |].
    change (String c r +:+ x) with (String c (r +:+ x)).
    cbn [DateUpdater.digits].
    destruct (DateUpdater.is_digit c); [apply IH; exact H | discriminate].
Qed.

Lemma digits_same_shape (n : nat) :
  forall r s rest x,
    DateUpdater.digits n r = Some EmptyString ->
    DateUpdater.digits n s = Some rest ->
    same_shape rest x ->
    same_shape s (r +:+ x).
Proof.
  induction n as [| n IH]; intros r s rest x Hr Hs Hx; cbn [DateUpdater.digits] in *.
  - injection Hr as ->. injection Hs as ->. exact Hx.
  - destruct r as [| c r]; [discriminate |]. destruct s as [| d s]; [discriminate |].
    destruct (DateUpdater.is_digit c) eqn:Hc; [| discriminate].
    destruct (DateUpdater.is_digit d) eqn:Hd; [| discriminate].
    change (String c r +:+ x) with (String c (r +:+ x)).
    cbn [same_shape]. split; [right; split; assumption |].
    eapply IH; eassumption.
Qed.

(** Passing over the digits of a match. *)
Lemma subn_from_skip (repl : string) (n : nat) :
  forall b s rest,
    DateUpdater.digits (S n) s = Some rest ->
    DateUpdater.subn_from repl b (S n) s = DateUpdater.subn_from repl false 0 rest.
Proof.
  induction n as [| n IH]; intros b s rest H; cbn [DateUpdater.digits] in H;
    destruct s as [| c s]; try discriminate;
    destruct (DateUpdater.is_digit c); try discriminate;
    cbn [DateUpdater.subn_from].
  - cbn in H. injection H as ->. reflexivity.
  - apply IH. exact H.
Qed.

Lemma digits_length (n : nat) :
  forall s rest, DateUpdater.digits n s = Some rest ->
                 String.length s = (n + String.length rest)%nat.
Proof.
  induction n as [| n IH]; intros s rest H; cbn [DateUpdater.digits] in H.
  - injection H as ->. reflexivity.
  - destruct s as [| c s]; [discriminate |].
    destruct (DateUpdater.is_digit c); [| discriminate].
    cbn. rewrite (IH s rest H). reflexivity.
Qed.

(** The two ways in which the scan goes on at a character. *)
Lemma subn_from_cases (repl : string) (b : bool) (c : ascii) (s : string) :
  (b = true /\ DateUpdater.match_here (String c s) = true /\
   exists rest,
     DateUpdater.digits 8 (String c s) = Some rest /\
     DateUpdater.subn_from repl b 0 (String c s)
     = (repl +:+ fst (DateUpdater.subn_from repl false 0 rest),
        S (snd (DateUpdater.subn_from repl false 0 rest)))) \/
  (b && DateUpdater.match_here (String c s) = false /\
   DateUpdater.subn_from repl b 0 (String c s)
   = (String c (fst (DateUpdater.subn_from repl (Ascii.eqb c "_") 0 s)),
      snd (DateUpdater.subn_from repl (Ascii.eqb c "_") 0 s))).
Proof.
  cbn [DateUpdater.subn_from].
  destruct (b && DateUpdater.match_here (String c s)) eqn:Hm.
  - left. apply andb_true_iff in Hm as [-> Hm]. split; [reflexivity |].
    split; [exact Hm |].
    unfold DateUpdater.match_here in Hm.
    destruct (DateUpdater.digits 8 (String c s)) as [rest |] eqn:Hd; [| discriminate].
    exists rest. split; [reflexivity |].
    assert (H7 : DateUpdater.digits 7 s = Some rest).
    { cbn [DateUpdater.digits] in Hd.
      destruct (DateUpdater.is_digit c); [exact Hd | discriminate]. }
    rewrite (subn_from_skip repl 6 false s rest H7).
    destruct (DateUpdater.subn_from repl false 0 rest). reflexivity.
  - right. split; [reflexivity |].
    destruct (DateUpdater.subn_from repl (Ascii.eqb c "_") 0 s). reflexivity.
Qed.

(** A character that does not follow an underscore is kept. *)
Lemma subn_from_head (repl : string) (s : string) :
  match s with
  | EmptyString => fst (DateUpdater.subn_from repl false 0 s) = EmptyString
  | String c _ =>
      exists out, fst (DateUpdater.subn_from repl false 0 s) = String c out
  end.
Proof.
  destruct s as [| c s]; [reflexivity |].
  destruct (subn_from_cases repl false c s) as [(Hb & _) | (_ & ->)]; [discriminate |].
  eexists. reflexivity.
Qed.

Lemma subn_from_shape (repl : string) :
  compact_date repl ->
  forall (n : nat) (s : string) (b : bool),
    (String.length s <= n)%nat ->
    same_shape s (fst (DateUpdater.subn_from repl b 0 s)).
Proof.
  intros Hrepl. induction n as [| n IH]; intros s b Hlen.
  - destruct s; [exact I | cbn in Hlen; lia].
  - destruct s as [| c s]; [exact I |].
    destruct (subn_from_cases repl b c s) as [(_ & _ & rest & Hd & ->) | (_ & ->)];
      cbn [fst].
    + eapply digits_same_shape; [exact Hrepl | exact Hd |].
      apply IH. apply digits_length in Hd. cbn in Hlen. cbn in Hd. lia.
    + cbn [same_shape]. split; [left; reflexivity |]. apply IH. cbn in Hlen. lia.
Qed.

(** A second pass, with any date, finds the matches of the first. *)
Lemma subn_from_twice (r1 r2 : string) :
  compact_date r1 ->
  forall (n : nat) (s : string) (b : bool),
    (String.length s <= n)%nat ->
    DateUpdater.subn_from r2 b 0 (fst (DateUpdater.subn_from r1 b 0 s))
    = DateUpdater.subn_from r2 b 0 s.
Proof.
  intros Hr1. induction n as [| n IH]; intros s b Hlen.
  - destruct s; [reflexivity | cbn in Hlen; lia].
  - destruct s as [| c s]; [reflexivity |].
    destruct (subn_from_cases r1 b c s) as [(-> & Hm & rest & Hd & H1) | (Hm & H1)].
    + destruct (subn_from_cases r2 true c s) as [(_ & _ & rest' & Hd' & H2) | (Hn & _)];
        [| rewrite Hm in Hn; discriminate].
      rewrite Hd in Hd'. injection Hd' as <-.
      rewrite H1, H2. cbn [fst].
      assert (Hrest : (String.length rest <= n)%nat).
      { apply digits_length in Hd. cbn in Hlen, Hd. lia. }
      set (out1 := fst (DateUpdater.subn_from r1 false 0 rest)).
      assert (Hd1 : DateUpdater.digits 8 (r1 +:+ out1) = Some out1)
        by (apply digits_app; exact Hr1).
      assert (Hshape : same_shape (String c s) (r1 +:+ out1)).
      { eapply digits_same_shape; [exact Hr1 | exact Hd |].
        apply (subn_from_shape r1 Hr1 n). exact Hrest. }
      assert (Hm1 : DateUpdater.match_here (r1 +:+ out1) = true)
        by (rewrite <- (same_shape_match_here _ _ Hshape); exact Hm).
      destruct (r1 +:+ out1) as [| c1 s1] eqn:Hr; [cbn in Hshape; contradiction |].
      destruct (subn_from_cases r2 true c1 s1) as [(_ & _ & rest1 & Hd1' & ->) | (Hn & _)];
        [| rewrite Hm1 in Hn; discriminate].
      rewrite Hd1 in Hd1'. injection Hd1' as <-.
      unfold out1. rewrite (IH rest false Hrest). reflexivity.
    + destruct (subn_from_cases r2 b c s) as [(-> & Hm' & _) | (_ & H2)];
        [rewrite Hm' in Hm; discriminate |].
      rewrite H1, H2. cbn [fst].
      set (out1 := fst (DateUpdater.subn_from r1 (Ascii.eqb c "_") 0 s)).
      assert (Hshape : same_shape (String c s) (String c out1)).
      { cbn [same_shape]. split; [left; reflexivity |].
        apply (subn_from_shape r1 Hr1 n). cbn in Hlen. lia. }
      destruct (subn_from_cases r2 b c out1) as [(-> & Hm' & _) | (_ & ->)].
      * rewrite <- (same_shape_match_here _ _ Hshape) in Hm'.
        rewrite Hm' in Hm. discriminate.
      * unfold out1. rewrite (IH s (Ascii.eqb c "_")) by (cbn in Hlen; lia).
        reflexivity.
Qed.

(** Without a match the text stays as it is. *)
Lemma subn_from_none (repl : string) (s : string) :
  forall b, snd (DateUpdater.subn_from repl b 0 s) = 0%nat ->
            fst (DateUpdater.subn_from repl b 0 s) = s.
Proof.
  induction s as [| c s IH]; intros b H; [reflexivity |].
  destruct (subn_from_cases repl b c s) as [(_ & _ & rest & _ & Heq) | (_ & Heq)];
    rewrite Heq in H |- *; cbn [fst snd] in *; [discriminate |].
  rewrite (IH _ H). reflexivity.
Qed.

(** The count does not depend on the replacement. *)
Lemma subn_from_count (r1 r2 : string) (s : string) :
  forall b k, snd (DateUpdater.subn_from r1 b k s) = snd (DateUpdater.subn_from r2 b k s).
Proof.
  induction s as [| c s IH]; intros b k; [reflexivity |].
  cbn [DateUpdater.subn_from]. destruct k as [| k]; [| apply IH].
  destruct (b && DateUpdater.match_here (String c s)).
  - specialize (IH false 7%nat).
    destruct (DateUpdater.subn_from r1 false 7 s), (DateUpdater.subn_from r2 false 7 s).
    cbn in *. congruence.
  - specialize (IH (Ascii.eqb c "_") 0%nat).
    destruct (DateUpdater.subn_from r1 (Ascii.eqb c "_") 0 s),
      (DateUpdater.subn_from r2 (Ascii.eqb c "_") 0 s).
    cbn in *. congruence.
Qed.

(** What one substitution does, for the runs over files below. *)
Lemma subn_compact (text d1 d2 : string) :
  compact_date d1 ->
  (snd (DateUpdater.subn d1 text) = 0%nat -> fst (DateUpdater.subn d1 text) = text) /\
  String.length (fst (DateUpdater.subn d1 text)) = String.length text /\
  DateUpdater.subn d2 (fst (DateUpdater.subn d1 text)) = DateUpdater.subn d2 text.
Proof.
  intros H1. unfold DateUpdater.subn.
  split; [apply subn_from_none |]. split.
  - symmetry. apply same_shape_length.
    apply (subn_from_shape d1 H1 (String.length text)). apply Nat.le_refl.
  - apply (subn_from_twice d1 d2 H1 (String.length text)). apply Nat.le_refl.
Qed.

(** X23.  The substitution of [_DATE_PATTERN] by a compact date of eight
    digits.  The text keeps its length and changes in digits only; a
    text without a match stays as it is.  A second substitution, by the
    same or by another compact date, finds as many matches as the first
    and gives what it would have given on the original text; so the
    substitution by the same date changes nothing any more. *)
Theorem date_substitution_is_idempotent (text d1 d2 : string) :
  compact_date d1 ->
  compact_date d2 ->
  let r := DateUpdater.subn d1 text in
  String.length (fst r) = String.length text /\
  same_shape text (fst r) /\
  (snd r = 0%nat -> fst r = text) /\
  DateUpdater.subn d2 (fst r) = DateUpdater.subn d2 text /\
  snd (DateUpdater.subn d2 text) = snd r /\
  DateUpdater.subn d1 (fst r) = r.
Proof.
  intros H1 H2 r. subst r. unfold DateUpdater.subn.
  pose proof (subn_from_shape d1 H1 (String.length text) text false (Nat.le_refl _))
    as Hshape.
  pose proof (subn_from_twice d1 d2 H1 (String.length text) text false (Nat.le_refl _))
    as Hd2.
  pose proof (subn_from_twice d1 d1 H1 (String.length text) text false (Nat.le_refl _))
    as Hd1.
  split; [symmetry; apply same_shape_length; exact Hshape |].
  split; [exact Hshape |]. split; [apply subn_from_none |].
  split; [exact Hd2 |]. split; [apply subn_from_count | exact Hd1].
Qed.

Lemma replacements_ext (d d' : string) (dss_files : list string)
    (files files' : gmap string string) :
  (forall p, p ∈ dss_files ->
     match files !! p with
     | Some t => snd (DateUpdater.subn d t)
     | None => 0%nat
     end
     = match files' !! p with
       | Some t => snd (DateUpdater.subn d' t)
       | None => 0%nat
       end) ->
  replacements d dss_files files = replacements d' dss_files files'.
Proof.
  unfold replacements. induction dss_files as [| q rest IH]; intros H; [reflexivity |].
  cbn [map sum_list]. rewrite (H q) by left. rewrite IH; [reflexivity |].
  intros p Hp. apply H. right. exact Hp.
Qed.

Lemma replacements_cons (d q : string) (rest : list string)
    (files : gmap string string) :
  replacements d (q :: rest) files
  = (match files !! q with
     | Some t => snd (DateUpdater.subn d t)
     | None => 0%nat
     end + replacements d rest files)%nat.
Proof. reflexivity. Qed.

Lemma update_files_spec (d : string) :
  compact_date d ->
  forall (dss_files : list string) (files : gmap string string) (total : nat),
    (forall p,
       fst (DateUpdater.update_files d dss_files files total) !! p
       = if decide (p ∈ dss_files)
         then (fun t => fst (DateUpdater.subn d t)) <$> files !! p
         else files !! p) /\
    snd (DateUpdater.update_files d dss_files files total)
    = (total + replacements d dss_files files)%nat.
Proof.
  intros Hd. induction dss_files as [| q rest IH]; intros files total;
    cbn [DateUpdater.update_files].
  - split; [| unfold replacements; cbn; lia].
    intros p. destruct (decide (p ∈ [])) as [Hin | _]; [| reflexivity].
    exfalso. revert Hin. apply not_elem_of_nil.
  - destruct (files !! q) as [t |] eqn:Hq.
    + destruct (DateUpdater.subn d t) as [t1 c] eqn:Ht.
      destruct (subn_compact t d d Hd) as (Hnone & _ & Hidem).
      rewrite Ht in Hnone, Hidem. cbn [fst snd] in Hnone, Hidem.
      set (mid := if (0 <? c)%nat then <[q := t1]> files else files).
      assert (Hmq : mid !! q = Some t1).
      { unfold mid. destruct (Nat.ltb_spec 0 c) as [_ | Hc].
        - apply lookup_insert_eq.
        - rewrite Hq, Hnone by lia. reflexivity. }
      assert (Hmp : forall p, p <> q -> mid !! p = files !! p).
      { intros p Hp. unfold mid. destruct (0 <? c)%nat; [| reflexivity].
        apply lookup_insert_ne. congruence. }
      destruct (IH mid (total + c)%nat) as [Hfs Hn]. split.
      * intros p. rewrite Hfs. destruct (decide (p = q)) as [-> | Hne].
        -- rewrite Hmq, Hq. cbn [fmap option_fmap option_map].
           rewrite Ht. cbn [fst].
           destruct (decide (q ∈ q :: rest)) as [_ | Hn']; [| exfalso; apply Hn'; left].
           destruct (decide (q ∈ rest)); [| reflexivity].
           cbn. rewrite Hidem. reflexivity.
        -- rewrite (Hmp p Hne).
           destruct (decide (p ∈ rest)) as [Hin | Hnin];
             destruct (decide (p ∈ q :: rest)) as [Hin' | Hnin']; try reflexivity.
           ++ exfalso. apply Hnin'. right. exact Hin.
           ++ exfalso. apply elem_of_cons in Hin' as [-> | Hin']; contradiction.
      * rewrite Hn, replacements_cons, Hq, Ht. cbn [snd].
        rewrite (replacements_ext d d rest mid files); [lia |].
        intros p _. destruct (decide (p = q)) as [-> | Hne].
        -- rewrite Hmq, Hq, Hidem, Ht. reflexivity.
        -- rewrite (Hmp p Hne). reflexivity.
    + destruct (IH files total) as [Hfs Hn]. split.
      * intros p. rewrite Hfs. destruct (decide (p = q)) as [-> | Hne].
        -- rewrite Hq. destruct (decide (q ∈ rest)), (decide (q ∈ q :: rest));
             reflexivity.
        -- destruct (decide (p ∈ rest)) as [Hin | Hnin];
             destruct (decide (p ∈ q :: rest)) as [Hin' | Hnin']; try reflexivity.
           ++ exfalso. apply Hnin'. right. exact Hin.
           ++ exfalso. apply elem_of_cons in Hin' as [-> | Hin']; contradiction.
      * rewrite Hn, replacements_cons, Hq. reflexivity.
Qed.

(** X24.  [update_dss_references] with a target date whose compact form
    has eight digits.  Every listed file that exists gets the
    substituted text and keeps its length; the other files are not
    touched and none is created.  Run again on the files that it
    leaves, with the same or with another such date, it counts as many
    replacements as before and leaves what the run with that date would
    have left in the first place; with the same date it changes
    nothing. *)
Theorem update_dss_references_is_idempotent (dss_files : list string)
    (date1 date2 : string) (files : gmap string string) :
  compact_date (DateUpdater.remove_dashes date1) ->
  compact_date (DateUpdater.remove_dashes date2) ->
  let r := DateUpdater.update_dss_references dss_files date1 files in
  (forall p,
     fst r !! p
     = if decide (p ∈ dss_files)
       then (fun t => fst (DateUpdater.subn (DateUpdater.remove_dashes date1) t))
              <$> files !! p
       else files !! p) /\
  (forall p t, files !! p = Some t ->
     exists t', fst r !! p = Some t' /\ String.length t' = String.length t) /\
  (forall p, files !! p = None -> fst r !! p = None) /\
  DateUpdater.update_dss_references dss_files date2 (fst r)
  = DateUpdater.update_dss_references dss_files date2 files /\
  snd (DateUpdater.update_dss_references dss_files date2 files) = snd r /\
  DateUpdater.update_dss_references dss_files date1 (fst r) = r.
Proof.
  intros H1 H2 r. subst r. unfold DateUpdater.update_dss_references.
  set (d1 := DateUpdater.remove_dashes date1) in *.
  set (d2 := DateUpdater.remove_dashes date2) in *.
  destruct (update_files_spec d1 H1 dss_files files 0) as [Hfs1 Hn1].
  set (files1 := fst (DateUpdater.update_files d1 dss_files files 0)) in *.
  assert (Hagain : forall d, compact_date d ->
            DateUpdater.update_files d dss_files files1 0
            = DateUpdater.update_files d dss_files files 0).
  { intros d Hd.
    destruct (update_files_spec d Hd dss_files files 0) as [Hfs Hn].
    destruct (update_files_spec d Hd dss_files files1 0) as [Hfs' Hn'].
    apply injective_projections.
    - apply map_eq. intros p. rewrite Hfs', Hfs, Hfs1.
      destruct (decide (p ∈ dss_files)); [| reflexivity].
      destruct (files !! p) as [t |]; [| reflexivity].
      change (Some (fst (DateUpdater.subn d (fst (DateUpdater.subn d1 t))))
              = Some (fst (DateUpdater.subn d t))).
      destruct (subn_compact t d1 d H1) as (_ & _ & Htwice).
      rewrite Htwice. reflexivity.
    - rewrite Hn', Hn. f_equal. apply replacements_ext. intros p Hp.
      rewrite Hfs1. destruct (decide (p ∈ dss_files)); [| contradiction].
      destruct (files !! p) as [t |]; [| reflexivity].
      change (snd (DateUpdater.subn d (fst (DateUpdater.subn d1 t)))
              = snd (DateUpdater.subn d t)).
      destruct (subn_compact t d1 d H1) as (_ & _ & Htwice).
      rewrite Htwice. reflexivity. }
  split; [exact Hfs1 |]. split; [| split; [| split; [| split]]].
  - intros p t Hp. rewrite Hfs1, Hp.
    destruct (decide (p ∈ dss_files)); cbn; eexists; (split; [reflexivity |]);
      [| reflexivity].
    apply (subn_compact t d1 d1 H1).
  - intros p Hp. rewrite Hfs1, Hp. destruct (decide (p ∈ dss_files)); reflexivity.
  - apply Hagain. exact H2.
  - rewrite Hn1. destruct (update_files_spec d2 H2 dss_files files 0) as [_ ->].
    f_equal. apply replacements_ext. intros p _.
    destruct (files !! p) as [t |]; [| reflexivity]. apply subn_from_count.
  - rewrite (Hagain d1 H1). subst files1. reflexivity.
Qed.
End DateUpdate.

Lemma date_substitution_is_idempotent_witness :
  DateUpdater.subn "20250715" "New Loadshape.F06_Factory_20250801 npts=96"
  = ("New Loadshape.F06_Factory_20250715 npts=96", 1%nat) /\
  DateUpdater.subn "20250715" "New Loadshape.F06_Factory_20250715 npts=96"
  = ("New Loadshape.F06_Factory_20250715 npts=96", 1%nat).
Proof.
  pose proof (date_substitution_is_idempotent
                "New Loadshape.F06_Factory_20250801 npts=96" "20250715" "20250715"
                eq_refl eq_refl) as H.
  cbn zeta in H. destruct H as (_ & _ & _ & _ & _ & Hidem).
  assert (Hfirst : DateUpdater.subn "20250715" "New Loadshape.F06_Factory_20250801 npts=96"
                   = ("New Loadshape.F06_Factory_20250715 npts=96", 1%nat))
    by (vm_compute; reflexivity).
  split; [exact Hfirst |]. rewrite Hfirst in Hidem. exact Hidem.
Defined.

Lemma update_dss_references_is_idempotent_witness :
  let files : gmap string string :=
    {[ "Households.dss" := "daily=F07_Village_20250801.csv";
       "Master.dss" := "Redirect Households.dss" ]} in
  let listed := ["Households.dss"; "RooftopSolar.dss"] in
  let r := DateUpdater.update_dss_references listed "2025-07-15" files in
  fst r !! "Households.dss" = Some "daily=F07_Village_20250715.csv" /\
  fst r !! "Master.dss" = Some "Redirect Households.dss" /\
  fst r !! "RooftopSolar.dss" = None /\
  snd r = 1%nat /\
  DateUpdater.update_dss_references listed "2025-07-15" (fst r) = r.
Proof.
  intros files listed r.
  destruct (update_dss_references_is_idempotent listed "2025-07-15" "2025-07-15" files
              eq_refl eq_refl) as (Hfs & _ & _ & _ & _ & Hidem).
  fold r in Hfs, Hidem.
  split; [rewrite Hfs; vm_compute; reflexivity |].
  split; [rewrite Hfs; vm_compute; reflexivity |].
  split; [rewrite Hfs; vm_compute; reflexivity |].
  split; [vm_compute; reflexivity | exact Hidem].
Defined.

(** ** The hub: subscriptions and connections *)

Lemma hub_reachable_subscribed (s : Hub.Server) : hub_reachable s -> hub_subscribed s.
Proof.
  induction 1 as [| ws s Hr IH Hfresh | ws s Hr IH | broken s Hr IH
                 | broken raises st s Hr IH]; unfold hub_subscribed in *.
  - intros ws cb Hl. cbn in Hl. rewrite lookup_empty in Hl. discriminate.
  - intros ws' cb Hl. cbn in Hl |- *. apply elem_of_union.
    destruct (decide (ws = ws')) as [<- | Hne].
    + rewrite lookup_insert_eq in Hl. injection Hl as <-. left.
      apply elem_of_singleton. reflexivity.
    + rewrite lookup_insert_ne in Hl by exact Hne. right. eapply IH. exact Hl.
  - pose proof (hub_reachable_ok s Hr) as (_ & Hcb & _).
    intros ws' cb' Hl. unfold Hub.disconnect in *.
    destruct (Hub._callbacks (Hub.manager s) !! ws) as [cb |] eqn:Hws; cbn in Hl |- *.
    + apply lookup_delete_Some in Hl as [Hne Hl].
      apply elem_of_difference. split; [eapply IH; exact Hl |].
      rewrite elem_of_singleton. intros ->.
      pose proof (Hcb _ _ Hws) as Ha. pose proof (Hcb _ _ Hl) as Hb.
      rewrite Ha in Hb. injection Hb as Hb. congruence.
    + eapply IH. exact Hl.
  - destruct (hub_status_frame broken s) as (He & _ & Hcbs & _ & _).
    intros ws cb Hl. rewrite He. rewrite Hcbs in Hl. eapply IH. exact Hl.
  - pose proof (hub_reachable_ok s Hr) as (_ & Hcb & _).
    destruct (hub_snapshot_frame broken raises st s) as (Hm & _ & Hmem & _).
    intros ws cb Hl. rewrite Hm in Hl. apply Hmem. split; [eapply IH; exact Hl |].
    rewrite (Hcb _ _ Hl). reflexivity.
Qed.

(** X25.  In every state that the hub reaches, the subscribers of the
    engine are exactly the callbacks of the table, one for each socket
    that has one, and every active connection is among them.  A fan-out
    of a snapshot changes nothing there, whatever the network does.  A
    status broadcast that fails for an observer takes it out of the
    active connections only: it stays subscribed, and the next snapshot
    is sent to it once more. *)
Theorem subscriptions_outlive_connections (s : Hub.Server) :
  hub_reachable s ->
  (forall cb, cb ∈ Engine._subscribers (Hub.engine s)
              <-> exists ws, cb = WsCallback ws /\
                             Hub._callbacks (Hub.manager s) !! ws = Some cb) /\
  (forall ws, ws ∈ Hub.active_connections (Hub.manager s) ->
              WsCallback ws ∈ Engine._subscribers (Hub.engine s)) /\
  (forall broken raises st,
     fst (Hub.engine_broadcast broken raises st s) = s) /\
  (forall broken ws,
     WsCallback ws ∈ Engine._subscribers (Hub.engine s) ->
     let s' := fst (Hub._broadcast_status broken s) in
     WsCallback ws ∈ Engine._subscribers (Hub.engine s') /\
     (broken ws = true -> ws ∉ Hub.active_connections (Hub.manager s')) /\
     forall raises st,
       filter (fun d => dl_to d = ws)
              (snd (Hub.engine_broadcast broken raises st s'))
       = [Hub.send_json broken ws (state_update st)]).
Proof.
  intros Hr.
  pose proof (hub_reachable_ok s Hr) as (Hsub & Hcb & Hact).
  pose proof (hub_reachable_subscribed s Hr) as Hall.
  split; [| split; [| split]].
  - intros cb. split; [apply Hsub |].
    intros (ws & -> & Hl). eapply Hall. exact Hl.
  - intros ws Hin. destruct (Hact ws Hin) as [cb Hl].
    rewrite <- (Hcb _ _ Hl). eapply Hall. exact Hl.
  - intros broken raises st.
    destruct (hub_snapshot_frame broken raises st s) as (Hm & Ha & Hmem & _).
    pose proof (broadcast_state_frame (Hub.invoke broken raises) st (Hub.engine s)) as Hf.
    cbn zeta in Hf.
    destruct Hf as (H1 & H2 & H3 & H4 & H5 & H6 & H7 & H8 & H9 & H10 & _).
    assert (He : Hub.engine (fst (Hub.engine_broadcast broken raises st s))
                 = fst (Engine._broadcast_state (Hub.invoke broken raises) st
                          (Hub.engine s))).
    { unfold Hub.engine_broadcast.
      destruct (Engine._broadcast_state (Hub.invoke broken raises) st (Hub.engine s)).
      reflexivity. }
    assert (Hsubs : Engine._subscribers
                      (Hub.engine (fst (Hub.engine_broadcast broken raises st s)))
                    = Engine._subscribers (Hub.engine s)).
    { apply set_eq. intros cb. rewrite Hmem. split; [tauto |].
      intros Hin. split; [exact Hin |].
      destruct (Hsub cb Hin) as (ws & -> & _). reflexivity. }
    rewrite He in Hsubs.
    destruct (Hub.engine_broadcast broken raises st s) as [[m' e' d'] log] eqn:Hb.
    cbn [fst Hub.manager Hub.engine Hub.adapter] in *.
    destruct s as [m e d]. cbn [Hub.manager Hub.engine Hub.adapter] in *.
    subst m' d' e'. f_equal.
    destruct (fst (Engine._broadcast_state (Hub.invoke broken raises) st e)), e.
    cbn in *. congruence.
  - intros broken ws Hin s'.
    destruct (hub_status_frame broken s) as (He & _ & _ & Hmem & _).
    fold s' in He, Hmem.
    assert (Hin' : WsCallback ws ∈ Engine._subscribers (Hub.engine s'))
      by (rewrite He; exact Hin).
    split; [exact Hin' |]. split.
    + intros Hb Hact'. apply Hmem in Hact' as [_ Hf]. congruence.
    + intros raises st.
      destruct (hub_snapshot_frame broken raises st s') as (_ & _ & _ & ->).
      rewrite fan_out_to by apply NoDup_elements.
      destruct (decide (WsCallback ws ∈ elements (Engine._subscribers (Hub.engine s'))))
        as [_ | Hn]; [reflexivity |].
      exfalso. apply Hn. apply elem_of_elements. exact Hin'.
Qed.

Lemma subscriptions_outlive_connections_witness :
  let s := Hub.connect 7 Hub.init in
  let broken := fun ws : websocket => Nat.eqb ws 7 in
  let s' := fst (Hub._broadcast_status broken s) in
  elements (Hub.active_connections (Hub.manager s')) = [] /\
  WsCallback 7 ∈ Engine._subscribers (Hub.engine s') /\
  filter (fun d => dl_to d = 7)
         (snd (Hub.engine_broadcast broken (fun _ => false) (sample_state 1) s'))
  = [Hub.send_json broken 7 (state_update (sample_state 1))].
Proof.
  intros s broken s'.
  assert (Hr : hub_reachable s).
  { apply hub_reach_connect; [apply hub_reach_init | vm_compute; reflexivity]. }
  assert (Hin : WsCallback 7 ∈ Engine._subscribers (Hub.engine s)).
  { cbn. apply elem_of_union. left. apply elem_of_singleton. reflexivity. }
  destruct (subscriptions_outlive_connections s Hr) as (_ & _ & _ & Hstatus).
  destruct (Hstatus broken 7 Hin) as (Hsub & _ & Hsnap).
  split; [vm_compute; reflexivity |]. split; [exact Hsub | apply Hsnap].
Defined.
